(** * Match termination, ship accounting and user statistics

    Shallow embedding of the match-lifecycle code of the battleship server:

    - [src/events/emitters/match-terminated.ts]
      ([MatchTerminatedEmitter]: [emit], [getTotalShotsFired],
      [getTotalShipsDestroyed], [isShipDestroyed]);
    - [src/model/database/user/user.ts]
      ([getUserById], [getUserByUsername], [updateUserStats],
      [addMatchStats], [getUserStats], [getUsers], [deleteUser],
      [updateUserName], [getLeaderboard], and the methods for roles,
      notifications and relationships);
    - [model/database/chat/chat.ts]
      ([createChat], [getChatById], [deleteChat], [addUser], [removeUser],
      [addMessage]);
    - [src/routes/user-routes.ts], [src/routes/leaderboard-routes.ts]
      (the statistics, username and leaderboard routes);
    - [model/events/match-terminated-data.ts]
      ([MatchTerminatedReason], [MatchTerminatedData]).

    JavaScript numbers that hold counters, coordinates and ratings are
    integers here ([Z], or [nat] for array lengths and loop counters);
    documents of the store are finite maps keyed by the textual form of
    their ObjectId. *)

From Stdlib Require Import ZArith List Bool Arith Lia Sorted Permutation.
From stdpp Require Import gmap strings pretty.
Import ListNotations.

Local Open Scope Z_scope.

(** ** Exceptions and promise rejections *)

(** What a [throw] or a rejected promise carries: an instance of [Error]
    with its message, or any other JavaScript value. *)
Inductive thrown : Type :=
  | JsError (message : string)
  | JsValue (v : string).

(** [err instanceof Error] *)
Definition instanceofError (e : thrown) : bool :=
  match e with JsError _ => true | JsValue _ => false end.

(** The message of [new Error(err.message)]: that of [err] when it is an
    [Error], empty when [err] is a value without a message. *)
Definition message_of (e : thrown) : string :=
  match e with JsError m => m | JsValue _ => EmptyString end.

Inductive result (A : Type) : Type :=
  | Ok (a : A)
  | Throw (e : thrown).
Arguments Ok {A} a.
Arguments Throw {A} e.

Module Res.
Definition bind {A B} (r : result A) (k : A -> result B) : result B :=
  match r with Ok a => k a | Throw e => Throw e end.

(** [xs.forEach(x => { acc = body(acc, x) })] where the callback may
    throw: the first exception leaves the loop. *)
Fixpoint forEach {A X} (body : A -> X -> result A) (xs : list X) (acc : A)
  : result A :=
  match xs with
  | [] => Ok acc
  | x :: rest => bind (body acc x) (forEach body rest)
  end.
End Res.

(** ** Grid data *)

Module Js.
(** [Array.prototype.includes] on an array of integers. *)
Definition includes (xs : list Z) (x : Z) : bool := existsb (Z.eqb x) xs.

(** [xs.push(x)] *)
Definition push {A} (xs : list A) (x : A) : list A := xs ++ [x].
End Js.

(** Modelled from the spec: the declaration of [GridCoordinates]
    ([model/database/match/state/grid-coordinates.ts]) is not among the
    sources; the code reads its fields [row] and [col]. *)
Record GridCoordinates : Type := { row : Z; col : Z }.

(** Modelled from the spec: the declaration of [Ship]
    ([model/database/match/state/ship.ts]) is not among the sources; the
    code reads [coordinates] and takes the ship's size from
    [coordinates.length]. *)
Record Ship : Type := { coordinates : list GridCoordinates }.

(** Modelled from the spec: the declaration of [BattleshipGrid]
    ([model/database/match/state/battleship-grid.ts]) is not among the
    sources; the code reads [ships] and [shotsReceived]. *)
Record BattleshipGrid : Type := {
  ships : list Ship;
  shotsReceived : list GridCoordinates
}.

Record PlayerState : Type := {
  playerId : string;
  grid : BattleshipGrid
}.

(** Modelled from the spec: [MatchStatsUpdate]
    ([model/api/match/stats-update.ts]) is not among the sources; [emit]
    builds it with these four fields. *)
Module MatchStatsUpdate.
Record t : Type := {
  winner : string;
  endTime : Z;
  totalShots : nat;
  shipsDestroyed : nat
}.
End MatchStatsUpdate.

(** Modelled from the spec: the declaration of [MatchDocument]
    ([model/database/match/match.ts]) is not among the sources; the code
    reads [player1] and [player2], and [updateMatchStats] persists the
    statistics of the match in it. *)
Record MatchDocument : Type := {
  player1 : PlayerState;
  player2 : PlayerState;
  matchStats : option MatchStatsUpdate.t
}.

(** ** Ship accounting: [MatchTerminatedEmitter]'s static helpers *)

Definition getTotalShotsFired (m : MatchDocument) : nat :=
  let p1ReceivedShots := shotsReceived (grid (player1 m)) in
  let p2ReceivedShots := shotsReceived (grid (player2 m)) in
  (length p1ReceivedShots + length p2ReceivedShots)%nat.

(** The two arrays filled by the first loop of [isShipDestroyed]. *)
Definition shipRowsCols (ship : Ship) : list Z * list Z :=
  fold_left
    (fun '(shipRows, shipCols) coords =>
       (Js.push shipRows (row coords), Js.push shipCols (col coords)))
    (coordinates ship) ([], []).

(** The counter [hits] after the second loop of [isShipDestroyed]. *)
Definition countHits (ship : Ship) (shots : list GridCoordinates) : nat :=
  let '(shipRows, shipCols) := shipRowsCols ship in
  fold_left
    (fun hits shot =>
       if Js.includes shipRows (row shot) && Js.includes shipCols (col shot)
       then S hits else hits)
    shots 0%nat.

Definition hitsError : string :=
  "Ship hits shouldn't be higher than the number of pieces of the ships".

Definition isShipDestroyed (ship : Ship) (shots : list GridCoordinates)
  : result bool :=
  let hits := countHits ship shots in
  if (length (coordinates ship) <? hits)%nat
  then Throw (JsError hitsError)
  else Ok (length (coordinates ship) =? hits)%nat.

Definition getTotalShipsDestroyed (m : MatchDocument) : result nat :=
  let grids := [grid (player1 m); grid (player2 m)] in
  Res.forEach
    (fun totShipsDestroyed g =>
       Res.forEach
         (fun totShipsDestroyed ship =>
            Res.bind (isShipDestroyed ship (shotsReceived g))
              (fun destroyed =>
                 Ok (if destroyed then S totShipsDestroyed
                     else totShipsDestroyed)))
         (ships g) totShipsDestroyed)
    grids 0%nat.

(** The test of the second loop of [isShipDestroyed], as a predicate on
    the shot. *)
Definition rowColTest (ship : Ship) (shot : GridCoordinates) : bool :=
  Js.includes (map row (coordinates ship)) (row shot)
  && Js.includes (map col (coordinates ship)) (col shot).

(** ** The grid invariants of the data model *)

Definition coord_eqb (a b : GridCoordinates) : bool :=
  (row a =? row b) && (col a =? col b).

Fixpoint distinct (cs : list GridCoordinates) : bool :=
  match cs with
  | [] => true
  | c :: rest => negb (existsb (coord_eqb c) rest) && distinct rest
  end.

(** All cells of the ship lie on one row, or all on one column. *)
Definition collinear (ship : Ship) : bool :=
  let cs := coordinates ship in
  forallb (fun a => forallb (fun b => row a =? row b) cs) cs
  || forallb (fun a => forallb (fun b => col a =? col b) cs) cs.

(** The cells are pairwise distinct and no two of them are further apart
    than the ship is long: on a line, they fill an interval. *)
Definition contiguous (ship : Ship) : bool :=
  let cs := coordinates ship in
  distinct cs
  && forallb
       (fun a =>
          forallb
            (fun b =>
               Z.abs (row a - row b) + Z.abs (col a - col b)
               <? Z.of_nat (length cs))
            cs)
       cs.

Definition ship_invariant (ship : Ship) : bool :=
  collinear ship && contiguous ship.

Definition grid_invariant (g : BattleshipGrid) : bool :=
  forallb ship_invariant (ships g) && distinct (shotsReceived g).

(** ** Destroyed ships as the data model defines them *)

(** A shot hits a ship when it lands on one of the ship's cells. *)
Definition shot_hits (ship : Ship) (shot : GridCoordinates) : bool :=
  existsb (coord_eqb shot) (coordinates ship).

Definition hits_on (ship : Ship) (shots : list GridCoordinates) : nat :=
  length (List.filter (shot_hits ship) shots).

(** A ship of length L is destroyed when exactly L shots hit it. *)
Definition destroyed (ship : Ship) (shots : list GridCoordinates) : bool :=
  (hits_on ship shots =? length (coordinates ship))%nat.

Definition destroyed_in (g : BattleshipGrid) : nat :=
  length (List.filter (fun ship => destroyed ship (shotsReceived g)) (ships g)).

Definition destroyed_ships (m : MatchDocument) : nat :=
  (destroyed_in (grid (player1 m)) + destroyed_in (grid (player2 m)))%nat.

(** ** State and exceptions *)

(** A computation over a state [S] that returns or throws; the state
    reached is kept in both cases, as the writes made before a [throw]
    are. *)
Definition ST (S A : Type) : Type := S -> result A * S.

Module St.
Definition ret {S A} (a : A) : ST S A := fun s => (Ok a, s).

Definition throw {S A} (e : thrown) : ST S A := fun s => (Throw e, s).

Definition bind {S A B} (m : ST S A) (k : A -> ST S B) : ST S B :=
  fun s =>
    match m s with
    | (Ok a, s') => k a s'
    | (Throw e, s') => (Throw e, s')
    end.

(** [try { body } catch (err) { handler(err) }] *)
Definition tryCatch {S A} (body : ST S A) (handler : thrown -> ST S A)
  : ST S A :=
  fun s =>
    match body s with
    | (Ok a, s') => (Ok a, s')
    | (Throw e, s') => handler e s'
    end.

(** [m; k] *)
Definition andThen {S A B} (m : ST S A) (k : ST S B) : ST S B :=
  bind m (fun _ => k).

Definition ofResult {S A} (r : result A) : ST S A := fun s => (r, s).
End St.

Notation "'let*' x ':=' m 'in' k" := (St.bind m (fun x => k))
  (at level 10, x name, m at level 100, k at level 200, only parsing).

(** ** Users and their statistics ([model/database/user/user.ts]) *)

(** The seven numeric fields of the [stats] sub-document. *)
Record UserStats : Type := {
  elo : Z;
  topElo : Z;
  wins : Z;
  losses : Z;
  shipsDestroyed : Z;
  totalShots : Z;
  totalHits : Z
}.

(** The part of the [User] interface that the modelled functions read or
    write, as it is stored; roles, credentials, relationships and
    notifications are left untouched by them. *)
Module Stored.
Record User : Type := {
  username : string;
  stats : UserStats
}.
End Stored.

(** A [UserDocument]: the stored fields together with the [_id] under
    which the document is kept. *)
Record UserDocument : Type := {
  _id : string;
  username : string;
  stats : UserStats
}.

Definition hydrate (id : string) (u : Stored.User) : UserDocument :=
  {| _id := id; username := Stored.username u; stats := Stored.stats u |}.

Definition stored (doc : UserDocument) : Stored.User :=
  {| Stored.username := username doc; Stored.stats := stats doc |}.

(** The collections [Users] and [Matches], keyed by the textual form of
    the ObjectId. *)
Record Db : Type := {
  users : gmap string Stored.User;
  matches : gmap string MatchDocument
}.

Definition noUserError : string := "No user with that identifier".

(** [UserModel.findOne({ _id: userId })] on a store that answers. *)
Definition getUserById (userId : string) : ST Db UserDocument :=
  fun d =>
    match users d !! userId with
    | None => (Throw (JsError noUserError), d)
    | Some userDoc => (Ok (hydrate userId userDoc), d)
    end.

(** [UserModel.findOne({ username })] on a store that answers. *)
Definition getUserByUsername (name : string) : ST Db UserDocument :=
  fun d =>
    match List.find (fun '(_, u) => String.eqb (Stored.username u) name)
                    (map_to_list (users d)) with
    | None => (Throw (JsError noUserError), d)
    | Some (id, userdata) => (Ok (hydrate id userdata), d)
    end.

(** [user.save()] *)
Definition save (user : UserDocument) : ST Db UserDocument :=
  fun d =>
    (Ok user, {| users := <[_id user := stored user]> (users d);
                 matches := matches d |}).

Definition setStats (user : UserDocument) (s : UserStats) : UserDocument :=
  {| _id := _id user; username := username user; stats := s |}.

(** The seven assignments of [updateUserStats]. *)
Definition assignStats (old updatedStats : UserStats) : UserStats :=
  let s := old in
  let s := {| elo := elo s; topElo := topElo updatedStats; wins := wins s;
              losses := losses s; shipsDestroyed := shipsDestroyed s;
              totalShots := totalShots s; totalHits := totalHits s |} in
  let s := {| elo := elo updatedStats; topElo := topElo s; wins := wins s;
              losses := losses s; shipsDestroyed := shipsDestroyed s;
              totalShots := totalShots s; totalHits := totalHits s |} in
  let s := {| elo := elo s; topElo := topElo s; wins := wins updatedStats;
              losses := losses s; shipsDestroyed := shipsDestroyed s;
              totalShots := totalShots s; totalHits := totalHits s |} in
  let s := {| elo := elo s; topElo := topElo s; wins := wins s;
              losses := losses updatedStats;
              shipsDestroyed := shipsDestroyed s;
              totalShots := totalShots s; totalHits := totalHits s |} in
  let s := {| elo := elo s; topElo := topElo s; wins := wins s;
              losses := losses s;
              shipsDestroyed := shipsDestroyed updatedStats;
              totalShots := totalShots s; totalHits := totalHits s |} in
  let s := {| elo := elo s; topElo := topElo s; wins := wins s;
              losses := losses s; shipsDestroyed := shipsDestroyed s;
              totalShots := totalShots updatedStats;
              totalHits := totalHits s |} in
  {| elo := elo s; topElo := topElo s; wins := wins s;
     losses := losses s; shipsDestroyed := shipsDestroyed s;
     totalShots := totalShots s; totalHits := totalHits updatedStats |}.

Definition updateUserStats (userId : string) (updatedStats : UserStats)
  : ST Db UserDocument :=
  St.tryCatch
    (let* user := getUserById userId in
     save (setStats user (assignStats (stats user) updatedStats)))
    (fun err => St.throw (JsError (message_of err))).

(** The in-place update that [addMatchStats] makes on [user.stats]. *)
Definition addStats (s : UserStats)
  (newShipsDestroyed newShots newHits : Z) (didUserWin : bool) : UserStats :=
  let newElo := if didUserWin then 30 else -20 in
  (* newUserElo = (user.stats.elo += newElo) *)
  let elo1 := elo s + newElo in
  let newUserElo := elo1 in
  let newUserElo := if newUserElo <? 0 then 0 else newUserElo in
  {| elo := newUserElo;
     topElo := if topElo s <? newUserElo then newUserElo else topElo s;
     wins := wins s + (if didUserWin then 1 else 0);
     losses := losses s + (if negb didUserWin then 1 else 0);
     shipsDestroyed := shipsDestroyed s + newShipsDestroyed;
     totalShots := totalShots s + newShots;
     totalHits := totalHits s + newHits |}.

Definition addMatchStats (userId : string)
  (newShipsDestroyed newShots newHits : Z) (didUserWin : bool)
  : ST Db UserDocument :=
  St.tryCatch
    (let* user := getUserById userId in
     save (setStats user
             (addStats (stats user) newShipsDestroyed newShots newHits
                didUserWin)))
    (fun err => St.throw (JsError (message_of err))).

(** The statistics of one finished match, as [addMatchStats] takes them. *)
Record MatchResult : Type := {
  resShipsDestroyed : Z;
  resShots : Z;
  resHits : Z;
  resWon : bool
}.

(** The store after the results [rs] have been added, one call of
    [addMatchStats] each, for the user [userId]. *)
Definition addResults (userId : string) (rs : list MatchResult) (d : Db) : Db :=
  fold_left
    (fun d r =>
       snd (addMatchStats userId (resShipsDestroyed r) (resShots r)
              (resHits r) (resWon r) d))
    rs d.

Definition statsOf (userId : string) (d : Db) : option UserStats :=
  Stored.stats <$> (users d !! userId).

Definition addResult (s : UserStats) (r : MatchResult) : UserStats :=
  addStats s (resShipsDestroyed r) (resShots r) (resHits r) (resWon r).

(** The ratings a user has after each of the results [rs] in turn. *)
Fixpoint eloHistory (s : UserStats) (rs : list MatchResult) : list Z :=
  match rs with
  | [] => []
  | r :: rest => elo (addResult s r) :: eloHistory (addResult s r) rest
  end.

(** The invariant of [UserStats] in the data model. *)
Definition stats_invariant (s : UserStats) : Prop :=
  0 <= elo s /\ elo s <= topElo s.

(** ** The match-terminated event ([model/events/match-terminated-data.ts]) *)

Inductive MatchTerminatedReason : Type :=
  | PlayerLeftTheGame
  | PlayerWon.

(** The string value of each member of the enumeration. *)
Definition reasonValue (r : MatchTerminatedReason) : string :=
  match r with
  | PlayerLeftTheGame => "A player has left the game"
  | PlayerWon => "A player has won the game"
  end.

Record MatchTerminatedData : Type := {
  winnerUsername : string;
  reason : MatchTerminatedReason
}.

(** The properties of the object that travels with the event, in
    declaration order, each with its value. *)
Definition payloadFields (data : MatchTerminatedData)
  : list (string * string) :=
  [("winnerUsername"%string, winnerUsername data);
   ("reason"%string, reasonValue (reason data))].

(** One [ioServer.to(room).emit(eventName, data)]. *)
Record Broadcast : Type := {
  toRoom : string;
  event : string;
  data : MatchTerminatedData
}.

(** What [emit] acts on: the store, the console, the events handed to
    socket.io so far, and the wall clock in Unix seconds. *)
Record World : Type := {
  db : Db;
  console : list string;
  sent : list Broadcast;
  clock : Z
}.

Definition liftDb {A} (m : ST Db A) : ST World A :=
  fun w =>
    let '(r, d) := m (db w) in
    (r, {| db := d; console := console w; sent := sent w;
           clock := clock w |}).

(** [console.log(chalk.bgRed(line))]; the colour is not recorded. *)
Definition consoleLog (line : string) : ST World unit :=
  fun w =>
    (Ok tt, {| db := db w; console := console w ++ [line];
               sent := sent w; clock := clock w |}).

(** [toUnixSeconds(new Date())] *)
Definition toUnixSecondsNow : ST World Z := fun w => (Ok (clock w), w).

(** Modelled from the spec: the base class [RoomEmitter]
    ([events/emitters/base/room-emitter.ts]) is not among the sources.
    Its constructor keeps the event name and the room, and its [emit]
    hands the payload to the broadcaster for that room under that name
    ([emitToRoom(roomId, eventName, payload)]). *)
Record RoomEmitter : Type := {
  eventName : string;
  roomName : string
}.

Definition RoomEmitter_emit (self : RoomEmitter) (payload : MatchTerminatedData)
  : ST World unit :=
  fun w =>
    (Ok tt,
     {| db := db w; console := console w;
        sent := sent w ++ [{| toRoom := roomName self;
                              event := eventName self;
                              data := payload |}];
        clock := clock w |}).

Record MatchTerminatedEmitter : Type := {
  super : RoomEmitter;
  matchId : string
}.

(** [new MatchTerminatedEmitter(ioServer, matchId)] *)
Definition newMatchTerminatedEmitter (matchId : string)
  : MatchTerminatedEmitter :=
  let eventName := "match-terminated"%string in
  {| super := {| eventName := eventName; roomName := matchId |};
     matchId := matchId |}.

Definition newline : string := String (Ascii.ascii_of_nat 10) EmptyString.

(** The template literal that [emit] logs. *)
Definition failureLine (message : string) : string :=
  ("An error occurred while updating the statistics of the match "
   ++ newline
   ++ "                        and sending the termination event. Reason: "
   ++ message)%string.

Section Emit.
(** [getMatchById] and [updateMatchStats] belong to
    [model/database/match/match.ts], which is not among the sources:
    [emit] is modelled over any two such operations of the store. *)
Variable getMatchById : string -> ST Db MatchDocument.
Variable updateMatchStats : string -> MatchStatsUpdate.t -> ST Db unit.

(** The body of the [try] block of [emit]. *)
Definition updateStats (self : MatchTerminatedEmitter)
  (data : MatchTerminatedData) : ST World unit :=
  let* winner := liftDb (getUserByUsername (winnerUsername data)) in
  let* m := liftDb (getMatchById (matchId self)) in
  let* endTime := toUnixSecondsNow in
  let totalShots := getTotalShotsFired m in
  let* shipsDestroyed := St.ofResult (getTotalShipsDestroyed m) in
  let statsUpdate :=
    {| MatchStatsUpdate.winner := _id winner;
       MatchStatsUpdate.endTime := endTime;
       MatchStatsUpdate.totalShots := totalShots;
       MatchStatsUpdate.shipsDestroyed := shipsDestroyed |} in
  liftDb (updateMatchStats (matchId self) statsUpdate).

Definition emit (self : MatchTerminatedEmitter) (data : MatchTerminatedData)
  : ST World unit :=
  St.andThen
    (St.tryCatch (updateStats self data)
       (fun err =>
          if instanceofError err
          then consoleLog (failureLine (message_of err))
          else St.ret tt))
    (RoomEmitter_emit (super self) data).
End Emit.

(** ** The match collection *)

Module MatchStore.
Definition notFound : string := "MatchNotFoundError".

(** Modelled from the spec: [getMatchById] of
    [model/database/match/match.ts], which is not among the sources:
    load the match by id; it fails with [MatchNotFoundError] if the
    match is absent. *)
Definition getMatchById (matchId : string) : ST Db MatchDocument :=
  fun d =>
    match matches d !! matchId with
    | None => (Throw (JsError notFound), d)
    | Some m => (Ok m, d)
    end.

(** Modelled from the spec: [updateMatchStats] of
    [model/database/match/match.ts], which is not among the sources:
    persist the [MatchStatsUpdate] in the match record.  The update is
    write-once: a match that has its statistics keeps them, and the call
    is then a no-op and not an error. *)
Definition updateMatchStats (matchId : string)
  (statsUpdate : MatchStatsUpdate.t) : ST Db unit :=
  let* m := getMatchById matchId in
  fun d =>
    match matchStats m with
    | Some _ => (Ok tt, d)
    | None =>
        (Ok tt,
         {| users := users d;
            matches :=
              <[matchId := {| player1 := player1 m; player2 := player2 m;
                              matchStats := Some statsUpdate |}]>
                (matches d) |})
    end.

(** [emit] over this store. *)
Definition terminate (self : MatchTerminatedEmitter)
  (data : MatchTerminatedData) : ST World unit :=
  emit getMatchById updateMatchStats self data.
End MatchStore.

(** A match collection whose update rejects with a string and not with an
    [Error], the way [deleteChat] rejects with the string
    ['An error occurred: ' + err.message] when the store fails, and
    [getUsers] with the array of the users it found. *)
Module UnreliableStore.
Definition rejection : string := "An error occurred: connection closed".

Definition updateMatchStats (matchId : string)
  (statsUpdate : MatchStatsUpdate.t) : ST Db unit :=
  St.throw (JsValue rejection).

(** [emit] over the match collection with this update. *)
Definition terminate (self : MatchTerminatedEmitter)
  (data : MatchTerminatedData) : ST World unit :=
  emit MatchStore.getMatchById updateMatchStats self data.
End UnreliableStore.

(** The broadcast that [super.emit(data)] makes. *)
Definition broadcastOf (self : MatchTerminatedEmitter)
  (payload : MatchTerminatedData) : Broadcast :=
  {| toRoom := roomName (super self); event := eventName (super self);
     data := payload |}.

(** The statistics persisted for a match, if any. *)
Definition persistedStats (matchId : string) (d : Db)
  : option MatchStatsUpdate.t :=
  matches d !! matchId ≫= matchStats.

(** The same world, [seconds] later. *)
Definition later (seconds : Z) (w : World) : World :=
  {| db := db w; console := console w; sent := sent w;
     clock := clock w + seconds |}.

(** ** The pairing scheduler *)

Module Matchmaking.
Record QueueEntry : Type := {
  userId : string;
  enqueuedAt : Z
}.

(** A match-found notification: who receives it and who the opponent is. *)
Record MatchFound : Type := {
  recipient : string;
  opponentId : string
}.

Record Tick : Type := {
  arranged : list (QueueEntry * QueueEntry);
  notifications : list MatchFound;
  queueAfter : list QueueEntry
}.

(** Modelled from the spec: the matchmaking engine
    ([matchmaking/matchmaking-engine.ts]) is not among the sources,
    only its test is.  Pair consecutive entries of the drained queue,
    index 0 with 1, 2 with 3, and so on; an odd last entry is left
    over. *)
Fixpoint pairConsecutive (entries : list QueueEntry)
  : list (QueueEntry * QueueEntry) * list QueueEntry :=
  match entries with
  | a :: b :: rest =>
      let '(pairs, leftover) := pairConsecutive rest in
      ((a, b) :: pairs, leftover)
  | leftover => ([], leftover)
  end.

(** Modelled from the spec: one tick of the pairing scheduler, every
    match being persisted.  The queue is drained in enqueue order, one
    match is created for each pair of consecutive entries, both of its
    players are notified with a match-found event that names the
    opponent, and an odd last entry is enqueued again. *)
Definition tick (queue : list QueueEntry) : Tick :=
  let drained := queue in
  let '(pairs, leftover) := pairConsecutive drained in
  {| arranged := pairs;
     notifications :=
       flat_map
         (fun '(a, b) =>
            [{| recipient := userId a; opponentId := userId b |};
             {| recipient := userId b; opponentId := userId a |}])
         pairs;
     queueAfter := leftover |}.

(** The players of the matches, in the order the matches were made. *)
Definition players (pairs : list (QueueEntry * QueueEntry))
  : list QueueEntry :=
  flat_map (fun '(a, b) => [a; b]) pairs.

(** In how many of the matches the user plays. *)
Definition matchesOf (user : string) (pairs : list (QueueEntry * QueueEntry))
  : nat :=
  length
    (List.filter
       (fun '(a, b) =>
          String.eqb (userId a) user || String.eqb (userId b) user)
       pairs).
End Matchmaking.

(** ** Sample data *)

Module Scenario.
Definition cell (r c : Z) : GridCoordinates := {| row := r; col := c |}.

(** A ship of one cell at (0,0). *)
Definition dinghy : Ship := {| coordinates := [cell 0 0] |}.

Definition cruiser : Ship :=
  {| coordinates := [cell 2 2; cell 2 3; cell 2 4] |}.

Definition frigate : Ship := {| coordinates := [cell 4 1; cell 5 1] |}.

(** A shot list that breaks the no-double-shot invariant. *)
Definition sameCellTwice : list GridCoordinates := [cell 0 0; cell 0 0].

(** Scenario D: three shots in all, one of them a hit, which sinks the
    one-cell ship. *)
Definition matchD : MatchDocument :=
  {| player1 :=
       {| playerId := "p1";
          grid := {| ships := [dinghy; cruiser];
                     shotsReceived := [cell 0 0; cell 7 7] |} |};
     player2 :=
       {| playerId := "p2";
          grid := {| ships := [frigate];
                     shotsReceived := [cell 5 5] |} |};
     matchStats := None |}.

Definition freshStats : UserStats :=
  {| elo := 0; topElo := 0; wins := 0; losses := 0; shipsDestroyed := 0;
     totalShots := 0; totalHits := 0 |}.

Definition alice : Stored.User :=
  {| Stored.username := "alice";
     Stored.stats :=
       {| elo := 10; topElo := 40; wins := 2; losses := 1;
          shipsDestroyed := 4; totalShots := 30; totalHits := 12 |} |}.

Definition bob : Stored.User :=
  {| Stored.username := "bob"; Stored.stats := freshStats |}.

(** Two users and the match of scenario D, still without statistics. *)
Definition store : Db :=
  {| users := <["u1" := alice]> (<["u2" := bob]> ∅);
     matches := <["m1" := matchD]> ∅ |}.

Definition world : World :=
  {| db := store; console := []; sent := []; clock := 1000 |}.

Definition loss : MatchResult :=
  {| resShipsDestroyed := 1; resShots := 20; resHits := 3;
     resWon := false |}.

Definition win : MatchResult :=
  {| resShipsDestroyed := 5; resShots := 25; resHits := 17;
     resWon := true |}.

(** Statistics that break the invariant of [UserStats]. *)
Definition negativeStats : UserStats :=
  {| elo := -5; topElo := -10; wins := 0; losses := 0;
     shipsDestroyed := 0; totalShots := 0; totalHits := 0 |}.

Definition entry (n : Z) (user : string) : Matchmaking.QueueEntry :=
  {| Matchmaking.userId := user; Matchmaking.enqueuedAt := n |}.

(** Scenario A: seven users, in the order they were enqueued. *)
Definition queue7 : list Matchmaking.QueueEntry :=
  [entry 1 "a"; entry 2 "b"; entry 3 "c"; entry 4 "d"; entry 5 "e";
   entry 6 "f"; entry 7 "g"].

Definition aliceWon : MatchTerminatedData :=
  {| winnerUsername := "alice"; reason := PlayerWon |}.

(** A winner that the user collection does not know. *)
Definition strangerWon : MatchTerminatedData :=
  {| winnerUsername := "mallory"; reason := PlayerLeftTheGame |}.
End Scenario.

(** ** More of the user collection ([model/database/user/user.ts]) *)

(** [getUserStats]: [UserModel.findOne({ _id }, { stats: 1 })] on a store
    that answers. *)
Definition getUserStats (id : string) : ST Db UserStats :=
  fun d =>
    match users d !! id with
    | None => (Throw (JsError noUserError), d)
    | Some stat => (Ok (Stored.stats stat), d)
    end.

(** What [getUsers] rejects with: an [Error], or the array of the users
    that were found. *)
Inductive usersRejection : Type :=
  | RejectedError (message : string)
  | RejectedUsers (found : list UserDocument).

(** [UserModel.find({ _id: { $in: ids } })]: the documents whose [_id] is
    one of [ids], each once, in the order of the collection. *)
Definition findIn (ids : list string) (d : Db) : list UserDocument :=
  map (fun '(id, u) => hydrate id u)
    (List.filter (fun '(id, _) => existsb (String.eqb id) ids)
       (map_to_list (users d))).

Definition getUsers (ids : list string) (d : Db)
  : list UserDocument + usersRejection :=
  let users := findIn ids d in
  if (length users =? length ids)%nat then inl users
  else inr (RejectedUsers users).

(** [deleteUser(filter)]: [UserModel.deleteOne(filter)] removes the first
    document that the filter accepts and reports how many it removed. *)
Definition deleteUser (filter : string -> Stored.User -> bool) : ST Db unit :=
  fun d =>
    match List.find (fun '(id, u) => filter id u) (map_to_list (users d)) with
    | None => (Throw (JsError noUserError), d)
    | Some (id, _) =>
        (Ok tt, {| users := delete id (users d); matches := matches d |})
    end.

(** The filter [{ _id: userId }]. *)
Definition byId (userId : string) : string -> Stored.User -> bool :=
  fun id _ => String.eqb id userId.

(** Whether another document already holds [name]; [username] is a
    unique index of the collection. *)
Definition nameTaken (userId name : string) (d : Db) : bool :=
  existsb
    (fun '(id, u) =>
       negb (String.eqb id userId) && String.eqb (Stored.username u) name)
    (map_to_list (users d)).

(** [updateUserName]: [UserModel.updateOne({ _id }, { username })].  An
    update that matches no document is not an error; one that would break
    the unique index is rejected by the store with [duplicateKey]. *)
Definition updateUserName (duplicateKey : string) (id name : string)
  : ST Db unit :=
  fun d =>
    match users d !! id with
    | None => (Ok tt, d)
    | Some u =>
        if nameTaken id name d
        then (Throw (JsError duplicateKey), d)
        else
          (Ok tt,
           {| users := <[id := {| Stored.username := name;
                                  Stored.stats := Stored.stats u |}]>
                         (users d);
              matches := matches d |})
    end.

(** [insertByElo] and [sortByEloDesc] stand for [.sort({ 'stats.elo': -1 })]:
    the documents by rating, highest first.  Documents of equal rating keep
    the order of the collection here; the store promises none. *)
Fixpoint insertByElo (u : UserDocument) (sorted : list UserDocument)
  : list UserDocument :=
  match sorted with
  | [] => [u]
  | v :: rest =>
      if elo (stats v) <? elo (stats u) then u :: v :: rest
      else v :: insertByElo u rest
  end.

Definition sortByEloDesc (docs : list UserDocument) : list UserDocument :=
  fold_right insertByElo [] docs.

(** The order of a leaderboard: no rating is followed by a higher one. *)
Definition byEloDesc (a b : UserDocument) : Prop :=
  elo (stats b) <= elo (stats a).

(** [.limit(n)]: at most [n] documents, and all of them when [n] is 0. *)
Definition limitTo (n : nat) (docs : list UserDocument) : list UserDocument :=
  if (n =? 0)%nat then docs else firstn n docs.

(** [getLeaderboard(skip, limit)], for the [adminUsername] of the
    environment and non-negative [skip] and [limit]. *)
Definition getLeaderboard (adminUsername : string) (skip limit : nat) (d : Db)
  : list UserDocument :=
  limitTo limit
    (skipn skip
       (sortByEloDesc
          (List.filter
             (fun u => negb (String.eqb (username u) adminUsername))
             (map (fun '(id, u) => hydrate id u) (map_to_list (users d)))))).

(** What [.sort({ 'stats.elo': -1 })] may answer: the same documents, with
    no rating followed by a higher one.  Documents of equal rating may come
    in any order, and not in the same order from one query to the next. *)
Definition sortsByElo (order : list UserDocument -> list UserDocument)
  : Prop :=
  forall docs,
    Permutation (order docs) docs /\ StronglySorted byEloDesc (order docs).

(** The documents that [find({ username: { $ne: adminUsername } })]
    selects. *)
Definition leaderboardUsers (adminUsername : string) (d : Db)
  : list UserDocument :=
  List.filter
    (fun u => negb (String.eqb (username u) adminUsername))
    (map (fun '(id, u) => hydrate id u) (map_to_list (users d))).

(** [getLeaderboard(skip, limit)] on a store that sorts with [order]. *)
Definition getLeaderboardBy (order : list UserDocument -> list UserDocument)
  (adminUsername : string) (skip limit : nat) (d : Db) : list UserDocument :=
  limitTo limit (skipn skip (order (leaderboardUsers adminUsername d))).

(** The ratings on the leaderboard, one for each user on it. *)
Definition leaderboardRatings (adminUsername : string) (d : Db) : list Z :=
  map (fun u => elo (stats u)) (leaderboardUsers adminUsername d).

(** Two newcomers, who have the same rating. *)
Module Newcomers.
Definition carol : Stored.User :=
  {| Stored.username := "carol"; Stored.stats := Scenario.freshStats |}.

Definition store : Db :=
  {| users := <["u2" := Scenario.bob]> (<["u3" := carol]> ∅);
     matches := ∅ |}.
End Newcomers.

(** ** Routes ([routes/user-routes.ts], [routes/leaderboard-routes.ts]) *)

Module Http.
(** One entry of a leaderboard page. *)
Record LeaderboardEntry : Type := {
  userId : string;
  entryUsername : string;
  entryElo : Z
}.

(** The JSON bodies that the modelled routes send. *)
Inductive Body : Type :=
  | StatsBody (s : UserStats)
  | UsernameBody (username : string)
  | LeaderboardBody (leaderboard : list LeaderboardEntry) (nextPage : string)
  | ErrorBody (timestamp : Z) (errorMessage : string) (requestPath : string).

Record Response : Type := {
  status : nat;
  body : Body
}.

Definition userErr : string := "No user with that identifier".

(** The [catch] branch shared by the user routes. *)
Definition userError (now : Z) (path : string) (err : thrown) : Response :=
  let statusCode :=
    if String.eqb (message_of err) userErr then 404%nat else 500%nat in
  {| status := statusCode;
     body := ErrorBody now (message_of err) path |}.

(** [GET /users/:userId/stats] *)
Definition getStats (now : Z) (path : string) (userId : string) (d : Db)
  : Response * Db :=
  match getUserStats userId d with
  | (Ok stats, d') =>
      ({| status := 200;
          body := StatsBody
                    {| elo := elo stats; topElo := topElo stats;
                       wins := wins stats; losses := losses stats;
                       shipsDestroyed := shipsDestroyed stats;
                       totalShots := totalShots stats;
                       totalHits := totalHits stats |} |}, d')
  | (Throw err, d') => (userError now path err, d')
  end.

(** [PUT /users/:userId/username]; the body may lack [username]. *)
Definition putUsername (duplicateKey : string) (now : Z) (path : string)
  (userId : string) (username : option string) (d : Db) : Response * Db :=
  match username with
  | Some name =>
      if negb (String.eqb name "")
      then
        match updateUserName duplicateKey userId name d with
        | (Ok _, d') => ({| status := 200; body := UsernameBody name |}, d')
        | (Throw err, d') => (userError now path err, d')
        end
      else
        ({| status := 400;
            body := ErrorBody now "Wrong parameters" path |}, d)
  | None =>
      ({| status := 400; body := ErrorBody now "Wrong parameters" path |}, d)
  end.

(** [GET /leaderboard]; [skip] and [limit] are -1 when the request does
    not give them. *)
Definition getLeaderboardPage (adminUsername : string) (path : string)
  (skip limit : Z) (d : Db) : Response :=
  let skip := if skip =? -1 then 0 else skip in
  let limit := if limit =? -1 then 50 else limit in
  let leaderBoard :=
    getLeaderboard adminUsername (Z.to_nat skip) (Z.to_nat limit) d in
  let nextPage :=
    (path ++ "?skip=" ++ pretty (skip + limit)
          ++ "&limit=" ++ pretty limit)%string in
  let parsedLead :=
    map (fun x => {| userId := _id x; entryUsername := username x;
                     entryElo := elo (stats x) |}) leaderBoard in
  {| status := 200; body := LeaderboardBody parsedLead nextPage |}.
End Http.

(** ** Roles, notifications, relationships and chats
    ([model/database/user/user.ts], [model/database/chat/chat.ts]) *)

Module JsArray.
(** [xs.splice(idx, 1)] *)
Definition splice1 {A} (xs : list A) (idx : nat) : list A :=
  firstn idx xs ++ skipn (S idx) xs.

(** The index of the first element that [p] accepts. *)
Fixpoint findIndex {A} (p : A -> bool) (xs : list A) : option nat :=
  match xs with
  | [] => None
  | x :: rest =>
      if p x then Some 0%nat else option_map S (findIndex p rest)
  end.

(** [for (idx in xs) { if (test(xs[idx])) xs.splice(idx, 1) }]: the loop
    visits the indices that the array had when it started, in order, and
    reads the array as it is by then; past the end of the shortened array
    there is nothing to have the property tested. *)
Definition spliceTurn {A} (test : A -> bool) (cur : list A) (idx : nat)
  : list A :=
  match nth_error cur idx with
  | Some x => if test x then splice1 cur idx else cur
  | None => cur
  end.

Definition spliceMatching {A} (test : A -> bool) (xs : list A) : list A :=
  fold_left (spliceTurn test) (seq 0 (length xs)) xs.
End JsArray.

Module Chats.
Record Message : Type := {
  content : string;
  timestamp : Z;
  author : string
}.

(** The [Chat] interface, as it is stored. *)
Record Chat : Type := {
  users : list string;
  messages : list Message
}.

Record ChatDocument : Type := {
  _id : string;
  chat : Chat
}.
End Chats.

Module Social.
Inductive UserRoles : Type := Base | Moderator | Admin.

(** [role.valueOf()] *)
Definition roleValue (role : UserRoles) : string :=
  match role with
  | Base => "Base"
  | Moderator => "Moderator"
  | Admin => "Admin"
  end.

Inductive RequestTypes : Type := FriendRequest | MatchRequest.

(** [type.valueOf()] *)
Definition requestValue (t : RequestTypes) : string :=
  match t with
  | FriendRequest => "FriendRequest"
  | MatchRequest => "MatchRequest"
  end.

Record RequestNotification : Type := {
  type : RequestTypes;
  sender : string
}.

Record Relationship : Type := {
  friendId : string;
  chatId : string
}.

(** The fields of the [User] interface that the methods below read or
    write, as they are stored. *)
Record User : Type := {
  roles : list string;
  notifications : list RequestNotification;
  relationships : list Relationship
}.

Record UserDocument : Type := {
  _id : string;
  fields : User
}.

(** The collections [Users] and [Chats]. *)
Record Store : Type := {
  Users : gmap string User;
  Chats : gmap string Chats.Chat
}.

Definition withRoles (this : UserDocument) (rs : list string) : UserDocument :=
  {| _id := _id this;
     fields := {| roles := rs;
                  notifications := notifications (fields this);
                  relationships := relationships (fields this) |} |}.

Definition withNotifications (this : UserDocument)
  (ns : list RequestNotification) : UserDocument :=
  {| _id := _id this;
     fields := {| roles := roles (fields this);
                  notifications := ns;
                  relationships := relationships (fields this) |} |}.

Definition withRelationships (this : UserDocument)
  (rels : list Relationship) : UserDocument :=
  {| _id := _id this;
     fields := {| roles := roles (fields this);
                  notifications := notifications (fields this);
                  relationships := rels |} |}.

(** [this.save()] on a user document: the document is stored as it is in
    memory, which is what is persisted for a document that was loaded from
    the store and changed by the method alone. *)
Definition save (this : UserDocument) : ST Store UserDocument :=
  fun s =>
    (Ok this, {| Users := <[_id this := fields this]> (Users s);
                 Chats := Chats s |}).

(** [getUserById] over this store. *)
Definition getUserById (userId : string) : ST Store UserDocument :=
  fun s =>
    match Users s !! userId with
    | None => (Throw (JsError noUserError), s)
    | Some userDoc => (Ok {| _id := userId; fields := userDoc |}, s)
    end.

(** *** Roles *)

Definition hasRole (this : UserDocument) (role : UserRoles) : bool :=
  existsb (fun r => String.eqb r (roleValue role)) (roles (fields this)).

Definition setRole (this : UserDocument) (role : UserRoles)
  : ST Store UserDocument :=
  if negb (hasRole this role)
  then save (withRoles this (Js.push (roles (fields this)) (roleValue role)))
  else St.throw (JsError "Role already set").

Definition removeRole (this : UserDocument) (role : UserRoles)
  : ST Store UserDocument :=
  save (withRoles this
          (JsArray.spliceMatching (fun r => String.eqb r (roleValue role))
             (roles (fields this)))).

(** *** Notifications *)

(** The test of both notification loops: same type and same sender. *)
Definition sameNotification (reqType : RequestTypes) (from : string)
  (n : RequestNotification) : bool :=
  String.eqb (requestValue (type n)) (requestValue reqType)
  && String.eqb (sender n) from.

Definition addNotification (this : UserDocument) (reqType : RequestTypes)
  (from : string) : ST Store UserDocument :=
  if existsb (sameNotification reqType from) (notifications (fields this))
  then St.throw (JsError "Notification already sent")
  else
    let toInsert := {| type := reqType; sender := from |} in
    save (withNotifications this
            (Js.push (notifications (fields this)) toInsert)).

Definition removeNotification (this : UserDocument) (reqType : RequestTypes)
  (from : string) : ST Store UserDocument :=
  match JsArray.findIndex (sameNotification reqType from)
          (notifications (fields this)) with
  | Some idx =>
      save (withNotifications this
              (JsArray.splice1 (notifications (fields this)) idx))
  | None => St.throw (JsError "Notification not found")
  end.

(** *** Chats *)

(** [createChat(users)]; [newId] is the ObjectId that the new document
    gets. *)
Definition createChat (newId : string) (users : list string)
  : ST Store Chats.ChatDocument :=
  fun s =>
    let chat := {| Chats.users := users; Chats.messages := [] |} in
    (Ok {| Chats._id := newId; Chats.chat := chat |},
     {| Users := Users s; Chats := <[newId := chat]> (Chats s) |}).

Definition getChatById (id : string) : ST Store Chats.ChatDocument :=
  fun s =>
    match Chats s !! id with
    | None => (Throw (JsError "No chat with that identifier"), s)
    | Some chatData => (Ok {| Chats._id := id; Chats.chat := chatData |}, s)
    end.

(** [ChatModel.deleteOne({ _id })]: removing nothing is no error. *)
Definition deleteOneChat (id : string) : ST Store unit :=
  fun s => (Ok tt, {| Users := Users s; Chats := delete id (Chats s) |}).

Definition deleteChat (id : string) : ST Store unit := deleteOneChat id.

(** [this.save()] on a chat document, stored as it is in memory. *)
Definition saveChat (this : Chats.ChatDocument) : ST Store Chats.ChatDocument :=
  fun s =>
    (Ok this, {| Users := Users s;
                 Chats := <[Chats._id this := Chats.chat this]> (Chats s) |}).

Definition addUser (this : Chats.ChatDocument) (userId : string)
  : ST Store Chats.ChatDocument :=
  let users := Chats.users (Chats.chat this) in
  if negb (existsb (String.eqb userId) users)
  then
    saveChat {| Chats._id := Chats._id this;
                Chats.chat :=
                  {| Chats.users := Js.push users userId;
                     Chats.messages := Chats.messages (Chats.chat this) |} |}
  else
    St.throw (JsError ("this id is already in the array: " ++ userId)).

Definition removeUser (this : Chats.ChatDocument) (userId : string)
  : ST Store Chats.ChatDocument :=
  let users := Chats.users (Chats.chat this) in
  match JsArray.findIndex (fun u => String.eqb u userId) users with
  | Some idx =>
      saveChat {| Chats._id := Chats._id this;
                  Chats.chat :=
                    {| Chats.users := JsArray.splice1 users idx;
                       Chats.messages := Chats.messages (Chats.chat this) |} |}
  | None => St.throw (JsError noUserError)
  end.

Definition addMessage (this : Chats.ChatDocument) (content : string)
  (timestamp : Z) (author : string) : ST Store Chats.ChatDocument :=
  saveChat {| Chats._id := Chats._id this;
              Chats.chat :=
                {| Chats.users := Chats.users (Chats.chat this);
                   Chats.messages :=
                     Js.push (Chats.messages (Chats.chat this))
                       {| Chats.content := content;
                          Chats.timestamp := timestamp;
                          Chats.author := author |} |} |}.

(** *** Relationships *)

Definition isRelationshipWith (friend : string) (r : Relationship) : bool :=
  String.eqb (friendId r) friend.

(** [addRelationshipSymmetrically]; [newChatId] is the ObjectId that the
    chat of the two friends gets. *)
Definition addRelationshipSymmetrically (newChatId : string)
  (this : UserDocument) (friend : string) : ST Store UserDocument :=
  let doesUserContainRelationship (user : UserDocument) :=
    existsb (isRelationshipWith friend) (relationships (fields user)) in
  if doesUserContainRelationship this
  then St.throw (JsError "Relationship already existent")
  else
    St.tryCatch
      (let* friendChat := createChat newChatId [_id this; friend] in
       let newRelationship :=
         {| friendId := friend; chatId := Chats._id friendChat |} in
       let newSymmetricRelationship :=
         {| friendId := _id this; chatId := Chats._id friendChat |} in
       let* friendDoc := getUserById friend in
       let* _saved :=
         save (withRelationships friendDoc
                 (Js.push (relationships (fields friendDoc))
                    newSymmetricRelationship)) in
       save (withRelationships this
               (Js.push (relationships (fields this)) newRelationship)))
      (fun err => St.throw (JsError (message_of err))).

(** One turn of the loop of [removeRelationship]: a relationship with
    [friend] at [idx] is spliced out and [onMatch] runs for it; an
    exception of [onMatch] leaves the loop. *)
Definition removeTurn (onMatch : Relationship -> ST Store unit)
  (friend : string) (acc : ST Store (list Relationship * bool)) (idx : nat)
  : ST Store (list Relationship * bool) :=
  let* state := acc in
  match nth_error (fst state) idx with
  | Some r =>
      if isRelationshipWith friend r
      then
        let* _done := onMatch r in
        St.ret (JsArray.splice1 (fst state) idx, true)
      else St.ret state
  | None => St.ret state
  end.

Definition removeLoop (onMatch : Relationship -> ST Store unit)
  (friend : string) (rels : list Relationship)
  : ST Store (list Relationship * bool) :=
  fold_left (removeTurn onMatch friend) (seq 0 (length rels))
    (St.ret (rels, false)).

Definition removeRelationshipWith (onMatch : Relationship -> ST Store unit)
  (this : UserDocument) (friend : string) : ST Store UserDocument :=
  let* state := removeLoop onMatch friend (relationships (fields this)) in
  if snd state then save (withRelationships this (fst state))
  else St.throw (JsError "Relationship not found").

(** [user.removeRelationship(friendId, true)] *)
Definition removeRelationshipOneSide (this : UserDocument) (friend : string)
  : ST Store UserDocument :=
  removeRelationshipWith (fun _ => St.ret tt) this friend.

Definition symmetricRemoveRelationship (userId friend : string)
  : ST Store UserDocument :=
  let* user :=
    St.tryCatch (getUserById userId)
      (fun err => St.throw (JsError (message_of err))) in
  removeRelationshipOneSide user friend.

Definition removeRelationship (this : UserDocument) (friend : string)
  (removeSymmetric : bool) : ST Store UserDocument :=
  if removeSymmetric then removeRelationshipOneSide this friend
  else
    removeRelationshipWith
      (fun r =>
         let chatIdToRemove := chatId r in
         St.tryCatch
           (let* _deleted := deleteOneChat chatIdToRemove in
            let* _friend := symmetricRemoveRelationship friend (_id this) in
            St.ret tt)
           (fun err => St.throw (JsError (message_of err))))
      this friend.
End Social.

(** ** Sample users and chats *)

Module SocialSamples.
Definition carol : Social.User :=
  {| Social.roles := ["Base"];
     Social.notifications := [];
     Social.relationships := [] |}.

Definition dave : Social.User :=
  {| Social.roles := ["Base"; "Moderator"];
     Social.notifications :=
       [{| Social.type := Social.MatchRequest; Social.sender := "s1" |}];
     Social.relationships := [] |}.

Definition store : Social.Store :=
  {| Social.Users := <["s1" := carol]> (<["s2" := dave]> ∅);
     Social.Chats := ∅ |}.

Definition carolDoc : Social.UserDocument :=
  {| Social._id := "s1"; Social.fields := carol |}.

Definition daveDoc : Social.UserDocument :=
  {| Social._id := "s2"; Social.fields := dave |}.

Definition lobby : Chats.ChatDocument :=
  {| Chats._id := "c1";
     Chats.chat := {| Chats.users := ["s1"]; Chats.messages := [] |} |}.
End SocialSamples.

(** * Properties *)

(** ** Ship accounting *)

Section ShipAccounting.
Implicit Types (ship : Ship) (shot c : GridCoordinates).
Implicit Types (shots cs : list GridCoordinates).

Lemma coord_eqb_eq a b : coord_eqb a b = true <-> a = b.
Proof.
  unfold coord_eqb. rewrite andb_true_iff, !Z.eqb_eq.
  destruct a, b; simpl. split.
  - intros [-> ->]. reflexivity.
  - intros [= -> ->]. split; reflexivity.
Qed.

Lemma existsb_coord_In c cs : existsb (coord_eqb c) cs = true <-> In c cs.
Proof.
  rewrite existsb_exists. split.
  - intros (x & Hx & Heq). apply coord_eqb_eq in Heq. subst. exact Hx.
  - intros H. exists c. split; [exact H | apply coord_eqb_eq; reflexivity].
Qed.

Lemma distinct_NoDup cs : distinct cs = true <-> List.NoDup cs.
Proof.
  induction cs as [|c cs IH]; simpl.
  - split; [constructor | reflexivity].
  - rewrite andb_true_iff, negb_true_iff, IH, List.NoDup_cons_iff.
    rewrite <- existsb_coord_In.
    destruct (existsb (coord_eqb c) cs); intuition congruence.
Qed.

Lemma shipRowsCols_fold cs rs ks :
  fold_left
    (fun '(shipRows, shipCols) coords =>
       (Js.push shipRows (row coords), Js.push shipCols (col coords)))
    cs (rs, ks)
  = (rs ++ map row cs, ks ++ map col cs).
Proof.
  revert rs ks. induction cs as [|c cs IH]; intros rs ks; simpl.
  - rewrite !app_nil_r. reflexivity.
  - rewrite IH. unfold Js.push. rewrite <- !app_assoc. reflexivity.
Qed.

Lemma shipRowsCols_map ship :
  shipRowsCols ship
  = (map row (coordinates ship), map col (coordinates ship)).
Proof. unfold shipRowsCols. apply shipRowsCols_fold. Qed.

Lemma count_fold (p : GridCoordinates -> bool) shots n :
  fold_left (fun hits shot => if p shot then S hits else hits) shots n
  = (n + length (List.filter p shots))%nat.
Proof.
  revert n. induction shots as [|s shots IH]; intros n; simpl.
  - lia.
  - rewrite IH. destruct (p s); simpl; lia.
Qed.

Lemma countHits_filter ship shots :
  countHits ship shots = length (List.filter (rowColTest ship) shots).
Proof.
  unfold countHits. rewrite shipRowsCols_map.
  rewrite (count_fold (rowColTest ship)). reflexivity.
Qed.

Lemma includes_map (f : GridCoordinates -> Z) cs x :
  Js.includes (map f cs) x = true <-> exists c, In c cs /\ f c = x.
Proof.
  unfold Js.includes. rewrite existsb_exists. split.
  - intros (y & Hy & Heq). apply in_map_iff in Hy as (c & <- & Hc).
    apply Z.eqb_eq in Heq. eauto.
  - intros (c & Hc & <-). exists (f c). split.
    + apply in_map. exact Hc.
    + apply Z.eqb_refl.
Qed.

(** A shot on one of the cells passes the test, whatever the shape. *)
Lemma shot_hits_rowColTest ship shot :
  shot_hits ship shot = true -> rowColTest ship shot = true.
Proof.
  unfold shot_hits, rowColTest. rewrite existsb_coord_In. intros H.
  apply andb_true_iff. split; apply includes_map; eauto.
Qed.

(** On a ship that lies on a line of the grid, only they do. *)
Lemma rowColTest_shot_hits ship shot :
  collinear ship = true ->
  rowColTest ship shot = true -> shot_hits ship shot = true.
Proof.
  unfold collinear, rowColTest, shot_hits.
  rewrite orb_true_iff, andb_true_iff, !includes_map, existsb_coord_In.
  intros Hline [(a & Ha & Hrow) (b & Hb & Hcol)].
  destruct Hline as [Hl | Hl].
  - (* one row: the cell with the shot's column is the shot *)
    rewrite forallb_forall in Hl. specialize (Hl b Hb).
    rewrite forallb_forall in Hl. specialize (Hl a Ha).
    apply Z.eqb_eq in Hl.
    replace shot with b; [exact Hb|].
    destruct shot, b; simpl in *. f_equal; congruence.
  - rewrite forallb_forall in Hl. specialize (Hl a Ha).
    rewrite forallb_forall in Hl. specialize (Hl b Hb).
    apply Z.eqb_eq in Hl.
    replace shot with a; [exact Ha|].
    destruct shot, a; simpl in *. f_equal; congruence.
Qed.

Lemma rowColTest_collinear ship shot :
  collinear ship = true -> rowColTest ship shot = shot_hits ship shot.
Proof.
  intros Hline. apply eq_true_iff_eq. split.
  - apply rowColTest_shot_hits. exact Hline.
  - apply shot_hits_rowColTest.
Qed.

Lemma countHits_hits_on ship shots :
  collinear ship = true -> countHits ship shots = hits_on ship shots.
Proof.
  intros Hline. rewrite countHits_filter. unfold hits_on. f_equal.
  apply filter_ext. intros shot. apply rowColTest_collinear. exact Hline.
Qed.

(** Distinct shots cannot hit a ship more often than it has cells. *)
Lemma hits_on_le ship shots :
  distinct (coordinates ship) = true -> distinct shots = true ->
  (hits_on ship shots <= length (coordinates ship))%nat.
Proof.
  rewrite !distinct_NoDup. intros _ Hshots. unfold hits_on.
  apply List.NoDup_incl_length.
  - apply List.NoDup_filter. exact Hshots.
  - intros c Hc. apply filter_In in Hc as [_ Hc].
    apply existsb_coord_In. exact Hc.
Qed.

Lemma ship_invariant_parts ship :
  ship_invariant ship = true ->
  collinear ship = true /\ distinct (coordinates ship) = true.
Proof.
  unfold ship_invariant, contiguous.
  rewrite !andb_true_iff. tauto.
Qed.

Lemma isShipDestroyed_ok ship shots :
  ship_invariant ship = true -> distinct shots = true ->
  isShipDestroyed ship shots = Ok (destroyed ship shots).
Proof.
  intros Hship Hshots. apply ship_invariant_parts in Hship as [Hline Hd].
  unfold isShipDestroyed, destroyed.
  rewrite (countHits_hits_on _ _ Hline).
  pose proof (hits_on_le ship shots Hd Hshots) as Hle.
  destruct (Nat.ltb_spec (length (coordinates ship)) (hits_on ship shots));
    [lia|].
  f_equal. apply Nat.eqb_sym.
Qed.

(** The inner loop of [getTotalShipsDestroyed] over the ships of a grid. *)
Lemma forEach_ships shots (ss : list Ship) tot :
  forallb ship_invariant ss = true -> distinct shots = true ->
  Res.forEach
    (fun totShipsDestroyed ship =>
       Res.bind (isShipDestroyed ship shots)
         (fun destroyed =>
            Ok (if destroyed then S totShipsDestroyed
                else totShipsDestroyed)))
    ss tot
  = Ok (tot + length (List.filter (fun ship => destroyed ship shots) ss))%nat.
Proof.
  intros Hss Hshots. revert tot.
  induction ss as [|s ss IH]; intros tot; simpl.
  - f_equal. lia.
  - simpl in Hss. apply andb_true_iff in Hss as [Hs Hss].
    rewrite (isShipDestroyed_ok _ _ Hs Hshots). simpl.
    rewrite (IH Hss). destruct (destroyed s shots); simpl; f_equal; lia.
Qed.

(** A destroyed ship is one whose every cell has been shot at. *)
Lemma destroyed_all_cells ship shots :
  distinct (coordinates ship) = true -> distinct shots = true ->
  destroyed ship shots = true
  <-> (forall c, In c (coordinates ship) -> In c shots).
Proof.
  intros Hd Hshots. unfold destroyed. rewrite Nat.eqb_eq.
  pose proof (hits_on_le ship shots Hd Hshots) as Hle.
  apply distinct_NoDup in Hd. apply distinct_NoDup in Hshots.
  unfold hits_on in *.
  assert (Hincl : incl (List.filter (shot_hits ship) shots) (coordinates ship)).
  { intros c Hc. apply filter_In in Hc as [_ Hc].
    apply existsb_coord_In. exact Hc. }
  split.
  - intros Hlen c Hc.
    assert (Hback : incl (coordinates ship)
                      (List.filter (shot_hits ship) shots)).
    { apply List.NoDup_length_incl.
      - apply List.NoDup_filter. exact Hshots.
      - lia.
      - exact Hincl. }
    apply Hback in Hc. apply filter_In in Hc. tauto.
  - intros Hall. apply Nat.le_antisymm; [exact Hle|].
    apply List.NoDup_incl_length; [exact Hd|].
    intros c Hc. apply filter_In. split; [auto|].
    apply existsb_coord_In. exact Hc.
Qed.
End ShipAccounting.

(** ** User statistics *)

Section UserStatistics.
Implicit Types (d : Db) (s : UserStats) (u : Stored.User).
Implicit Types (rs : list MatchResult).

Lemma addMatchStats_found d userId u ships shots hits won :
  users d !! userId = Some u ->
  addMatchStats userId ships shots hits won d
  = (let s' := addStats (Stored.stats u) ships shots hits won in
     (Ok {| _id := userId; username := Stored.username u; stats := s' |},
      {| users :=
           <[userId := {| Stored.username := Stored.username u;
                          Stored.stats := s' |}]> (users d);
         matches := matches d |})).
Proof.
  intros Hu. unfold addMatchStats, St.tryCatch, St.bind, getUserById.
  rewrite Hu. reflexivity.
Qed.

Lemma addMatchStats_missing d userId ships shots hits won :
  users d !! userId = None ->
  addMatchStats userId ships shots hits won d
  = (Throw (JsError noUserError), d).
Proof.
  intros Hu. unfold addMatchStats, St.tryCatch, St.bind, getUserById.
  rewrite Hu. reflexivity.
Qed.

Lemma statsOf_addMatchStats d userId u ships shots hits won :
  users d !! userId = Some u ->
  statsOf userId (snd (addMatchStats userId ships shots hits won d))
  = Some (addStats (Stored.stats u) ships shots hits won).
Proof.
  intros Hu. rewrite (addMatchStats_found _ _ _ _ _ _ _ Hu).
  unfold statsOf. simpl. rewrite lookup_insert_eq. reflexivity.
Qed.

Lemma statsOf_addResults rs : forall d userId u,
  users d !! userId = Some u ->
  statsOf userId (addResults userId rs d)
  = Some (fold_left addResult rs (Stored.stats u)).
Proof.
  induction rs as [|r rs IH]; intros d userId u Hu.
  - unfold statsOf. simpl. rewrite Hu. reflexivity.
  - unfold addResults. simpl.
    rewrite (addMatchStats_found _ _ _ _ _ _ _ Hu). simpl.
    match goal with
    | |- statsOf _ (fold_left ?f rs ?d') = _ =>
        change (statsOf userId (addResults userId rs d')
                = Some (fold_left addResult rs
                          (addResult (Stored.stats u) r)))
    end.
    rewrite (IH _ userId
               {| Stored.username := Stored.username u;
                  Stored.stats := addResult (Stored.stats u) r |}).
    + reflexivity.
    + simpl. apply lookup_insert_eq.
Qed.

Lemma addStats_elo s ships shots hits won :
  elo (addStats s ships shots hits won)
  = Z.max 0 (elo s + (if won then 30 else -20)).
Proof.
  unfold addStats. simpl.
  destruct (Z.ltb_spec (elo s + (if won then 30 else -20)) 0); lia.
Qed.

Lemma addStats_topElo s ships shots hits won :
  topElo (addStats s ships shots hits won)
  = Z.max (topElo s) (elo (addStats s ships shots hits won)).
Proof.
  unfold addStats. simpl.
  match goal with |- context [?a <? ?b] => destruct (Z.ltb_spec a b) end; lia.
Qed.

Lemma addResult_invariant s r : stats_invariant (addResult s r).
Proof.
  unfold stats_invariant, addResult.
  rewrite addStats_topElo, addStats_elo. lia.
Qed.

Lemma eloHistory_nonneg rs :
  forall s, Forall (fun e => 0 <= e) (eloHistory s rs).
Proof.
  induction rs as [|r rs IH]; intros s; simpl; constructor.
  - apply addResult_invariant.
  - apply IH.
Qed.

(** [topElo] is the largest of its first value and the ratings since. *)
Lemma topElo_running_max rs : forall s,
  topElo (fold_left addResult rs s)
  = fold_left Z.max (eloHistory s rs) (topElo s).
Proof.
  induction rs as [|r rs IH]; intros s; simpl.
  - reflexivity.
  - rewrite IH. unfold addResult at 2. rewrite addStats_topElo.
    reflexivity.
Qed.

Lemma last_cons_default (l : list Z) : forall x z : Z,
  List.last (x :: l) z = List.last l x.
Proof.
  induction l as [|y l IH]; intros x z.
  - reflexivity.
  - change (List.last (y :: l) z = List.last (y :: l) x).
    rewrite !IH. reflexivity.
Qed.

Lemma elo_last rs : forall s,
  elo (fold_left addResult rs s) = List.last (eloHistory s rs) (elo s).
Proof.
  induction rs as [|r rs IH]; intros s.
  - reflexivity.
  - change (elo (fold_left addResult rs (addResult s r))
            = List.last (elo (addResult s r)
                         :: eloHistory (addResult s r) rs) (elo s)).
    rewrite last_cons_default. apply IH.
Qed.

Lemma fold_addResult_invariant rs : forall s,
  elo s <= topElo s ->
  elo (fold_left addResult rs s) <= topElo (fold_left addResult rs s)
  /\ (rs <> [] -> 0 <= elo (fold_left addResult rs s)).
Proof.
  induction rs as [|r rs IH]; intros s Hs; simpl.
  - split; [exact Hs | congruence].
  - pose proof (addResult_invariant s r) as [Hnn Hle].
    destruct (IH (addResult s r) Hle) as [H1 H2]. split; [exact H1|].
    intros _. destruct rs as [|r' rs']; [exact Hnn|].
    apply H2. discriminate.
Qed.

Lemma assignStats_verbatim (old updatedStats : UserStats) :
  assignStats old updatedStats = updatedStats.
Proof. destruct updatedStats. reflexivity. Qed.

Lemma updateUserStats_found d userId u updatedStats :
  users d !! userId = Some u ->
  updateUserStats userId updatedStats d
  = (Ok {| _id := userId; username := Stored.username u;
           stats := updatedStats |},
     {| users :=
          <[userId := {| Stored.username := Stored.username u;
                         Stored.stats := updatedStats |}]> (users d);
        matches := matches d |}).
Proof.
  intros Hu. unfold updateUserStats, St.tryCatch, St.bind, getUserById.
  rewrite Hu. unfold save, setStats, stored, hydrate. simpl.
  rewrite assignStats_verbatim. reflexivity.
Qed.
End UserStatistics.

(** C4. For every user and every sequence of match results added through
    [addMatchStats], the rating is at least 0 after each update, [topElo]
    is the running maximum of the ratings reached, and, if [topElo] was at
    least the rating at the start, it is at least the rating at the end. *)
Theorem addMatchStats_keeps_elo_invariant (d : Db) (userId : string)
  (u : Stored.User) (rs : list MatchResult) :
  users d !! userId = Some u ->
  elo (Stored.stats u) <= topElo (Stored.stats u) ->
  exists s',
    statsOf userId (addResults userId rs d) = Some s'
    /\ Forall (fun e => 0 <= e) (eloHistory (Stored.stats u) rs)
    /\ elo s'
       = List.last (eloHistory (Stored.stats u) rs) (elo (Stored.stats u))
    /\ topElo s'
       = fold_left Z.max (eloHistory (Stored.stats u) rs)
           (topElo (Stored.stats u))
    /\ elo s' <= topElo s'.
Proof.
  intros Hu Htop.
  exists (fold_left addResult rs (Stored.stats u)).
  split; [apply statsOf_addResults; exact Hu|].
  split; [apply eloHistory_nonneg|].
  split; [apply elo_last|].
  split; [apply topElo_running_max|].
  apply fold_addResult_invariant. exact Htop.
Qed.

Lemma addMatchStats_keeps_elo_invariant_witness :
  exists s',
    statsOf "u1" (addResults "u1" [Scenario.loss; Scenario.win; Scenario.loss]
                    Scenario.store) = Some s'
    /\ Forall (fun e => 0 <= e)
         (eloHistory (Stored.stats Scenario.alice)
            [Scenario.loss; Scenario.win; Scenario.loss])
    /\ elo s'
       = List.last
           (eloHistory (Stored.stats Scenario.alice)
              [Scenario.loss; Scenario.win; Scenario.loss])
           (elo (Stored.stats Scenario.alice))
    /\ topElo s'
       = fold_left Z.max
           (eloHistory (Stored.stats Scenario.alice)
              [Scenario.loss; Scenario.win; Scenario.loss])
           (topElo (Stored.stats Scenario.alice))
    /\ elo s' <= topElo s'.
Proof.
  apply (addMatchStats_keeps_elo_invariant Scenario.store "u1" Scenario.alice
           [Scenario.loss; Scenario.win; Scenario.loss]).
  - vm_compute. reflexivity.
  - simpl. lia.
Defined.

(** C5. [addMatchStats] on a user of the store: a win adds 30 to the
    rating and a loss adds -20, the sum being clamped at 0; [topElo] is
    raised to the new rating when that is higher; a win adds 1 to [wins]
    and nothing to [losses], a loss adds 1 to [losses] and nothing to
    [wins]; the ships destroyed, shots and hits of the match are added to
    the user's totals.  The updated document is returned and stored. *)
Theorem addMatchStats_winner_loser (d : Db) (userId : string)
  (u : Stored.User) (ships shots hits : Z) (won : bool) :
  users d !! userId = Some u ->
  let s := Stored.stats u in
  exists s',
    addMatchStats userId ships shots hits won d
    = (Ok {| _id := userId; username := Stored.username u; stats := s' |},
       {| users := <[userId := {| Stored.username := Stored.username u;
                                  Stored.stats := s' |}]> (users d);
          matches := matches d |})
    /\ elo s' = Z.max 0 (elo s + (if won then 30 else -20))
    /\ topElo s' = Z.max (topElo s) (elo s')
    /\ wins s' = wins s + (if won then 1 else 0)
    /\ losses s' = losses s + (if won then 0 else 1)
    /\ shipsDestroyed s' = shipsDestroyed s + ships
    /\ totalShots s' = totalShots s + shots
    /\ totalHits s' = totalHits s + hits.
Proof.
  intros Hu s.
  exists (addStats s ships shots hits won).
  split; [apply (addMatchStats_found _ _ _ _ _ _ _ Hu)|].
  split; [apply addStats_elo|].
  split; [apply addStats_topElo|].
  destruct won; simpl; repeat split; reflexivity.
Qed.

Lemma addMatchStats_winner_loser_witness :
  let s := Stored.stats Scenario.alice in
  exists s',
    addMatchStats "u1" 5 25 17 true Scenario.store
    = (Ok {| _id := "u1"; username := "alice"; stats := s' |},
       {| users := <["u1" := {| Stored.username := "alice";
                                Stored.stats := s' |}]>
                     (users Scenario.store);
          matches := matches Scenario.store |})
    /\ elo s' = Z.max 0 (elo s + 30)
    /\ topElo s' = Z.max (topElo s) (elo s')
    /\ wins s' = wins s + 1
    /\ losses s' = losses s + 0
    /\ shipsDestroyed s' = shipsDestroyed s + 5
    /\ totalShots s' = totalShots s + 25
    /\ totalHits s' = totalHits s + 17.
Proof.
  apply (addMatchStats_winner_loser Scenario.store "u1" Scenario.alice
           5 25 17 true).
  vm_compute. reflexivity.
Defined.

(** C10. [updateUserStats] on a user of the store keeps the seven given
    values exactly as given: the rating is not clamped at 0 and [topElo] is
    not raised to it, so statistics that break the invariant of
    [UserStats] are stored as they are. *)
Theorem updateUserStats_stores_verbatim (d : Db) (userId : string)
  (u : Stored.User) (updatedStats : UserStats) :
  users d !! userId = Some u ->
  fst (updateUserStats userId updatedStats d)
  = Ok {| _id := userId; username := Stored.username u;
          stats := updatedStats |}
  /\ statsOf userId (snd (updateUserStats userId updatedStats d))
     = Some updatedStats
  /\ exists bad,
       elo bad < 0 /\ topElo bad < elo bad
       /\ statsOf userId (snd (updateUserStats userId bad d)) = Some bad.
Proof.
  intros Hu. rewrite (updateUserStats_found _ _ _ _ Hu). simpl.
  split; [reflexivity|]. split.
  - unfold statsOf. simpl. rewrite lookup_insert_eq. reflexivity.
  - exists Scenario.negativeStats. split; [simpl; lia|].
    split; [simpl; lia|].
    rewrite (updateUserStats_found _ _ _ _ Hu).
    unfold statsOf. simpl. rewrite lookup_insert_eq. reflexivity.
Qed.

Lemma updateUserStats_stores_verbatim_witness :
  stats_invariant (Stored.stats Scenario.alice)
  /\ statsOf "u1" (snd (updateUserStats "u1" Scenario.negativeStats
                          Scenario.store))
     = Some Scenario.negativeStats
  /\ ~ stats_invariant Scenario.negativeStats.
Proof.
  split; [unfold stats_invariant; simpl; lia|]. split.
  - apply (updateUserStats_stores_verbatim Scenario.store "u1" Scenario.alice
             Scenario.negativeStats).
    vm_compute. reflexivity.
  - unfold stats_invariant. simpl. lia.
Defined.

(** ** The match-terminated emitter *)

Section EmitProperties.
Variable getMatchById : string -> ST Db MatchDocument.
Variable updateMatchStats : string -> MatchStatsUpdate.t -> ST Db unit.

Implicit Types (self : MatchTerminatedEmitter) (w : World).
Implicit Types (payload : MatchTerminatedData).

Lemma liftDb_frame {A} (m : ST Db A) w :
  console (snd (liftDb m w)) = console w
  /\ sent (snd (liftDb m w)) = sent w
  /\ clock (snd (liftDb m w)) = clock w.
Proof. unfold liftDb. destruct (m (db w)). simpl. auto. Qed.

Lemma liftDb_run {A} (m : ST Db A) w :
  liftDb m w
  = (fst (m (db w)),
     {| db := snd (m (db w)); console := console w; sent := sent w;
        clock := clock w |}).
Proof. unfold liftDb. destruct (m (db w)). reflexivity. Qed.

(** The [try] block writes to the store only. *)
Lemma updateStats_frame self payload w :
  let w' := snd (updateStats getMatchById updateMatchStats self payload w) in
  console w' = console w /\ sent w' = sent w /\ clock w' = clock w.
Proof.
  unfold updateStats, St.bind, St.ofResult, toUnixSecondsNow.
  rewrite liftDb_run.
  destruct (fst (getUserByUsername (winnerUsername payload) (db w)));
    simpl; [|auto].
  rewrite liftDb_run.
  destruct (fst (getMatchById (matchId self) _)); simpl; [|auto].
  destruct (getTotalShipsDestroyed a0); simpl; [|auto].
  rewrite liftDb_run. simpl. auto.
Qed.

Lemma getUserByUsername_run name (d : Db) :
  snd (getUserByUsername name d) = d
  /\ forall e, fst (getUserByUsername name d) = Throw e ->
               e = JsError noUserError.
Proof.
  unfold getUserByUsername.
  destruct (List.find _ _) as [[id u]|]; simpl; split; try reflexivity.
  - discriminate.
  - intros e [= <-]. reflexivity.
Qed.

Lemma getTotalShipsDestroyed_throws m e :
  getTotalShipsDestroyed m = Throw e -> e = JsError hitsError.
Proof.
  assert (Hship : forall shots ss tot,
    Res.forEach
      (fun totShipsDestroyed ship =>
         Res.bind (isShipDestroyed ship shots)
           (fun destroyed =>
              Ok (if destroyed then S totShipsDestroyed
                  else totShipsDestroyed)))
      ss tot = Throw e -> e = JsError hitsError).
  { intros shots ss. induction ss as [|s ss IH]; intros tot; simpl.
    - discriminate.
    - unfold isShipDestroyed at 1.
      destruct (_ <? _)%nat; simpl.
      + intros [= <-]. reflexivity.
      + apply IH. }
  unfold getTotalShipsDestroyed. simpl.
  destruct (Res.forEach _ (ships (grid (player1 m))) 0%nat) eqn:H1; simpl.
  - destruct (Res.forEach _ (ships (grid (player2 m))) a) eqn:H2; simpl.
    + discriminate.
    + intros [= <-]. apply (Hship _ _ _ H2).
  - intros [= <-]. apply (Hship _ _ _ H1).
Qed.

(** [emit] returns normally and hands the payload to the room, once. *)
Lemma emit_sends self payload w :
  fst (emit getMatchById updateMatchStats self payload w) = Ok tt
  /\ sent (snd (emit getMatchById updateMatchStats self payload w))
     = sent w ++ [broadcastOf self payload]
  /\ clock (snd (emit getMatchById updateMatchStats self payload w))
     = clock w.
Proof.
  pose proof (updateStats_frame self payload w) as (Hc & Hs & Hk).
  unfold emit, St.andThen, St.bind, St.tryCatch.
  destruct (updateStats getMatchById updateMatchStats self payload w)
    as [[[]|e] w']; simpl in *.
  - rewrite Hs, Hk. auto.
  - destruct (instanceofError e); simpl; rewrite Hs, Hk; auto.
Qed.



(** The store after [emit]: untouched when the winner does not load, as
    [getMatchById] left it when the match does not load or its ships
    cannot be counted, and as [updateMatchStats] left it otherwise. *)
Lemma emit_db self payload w :
  db (snd (emit getMatchById updateMatchStats self payload w))
  = match fst (getUserByUsername (winnerUsername payload) (db w)) with
    | Throw _ => db w
    | Ok winner =>
        match getMatchById (matchId self) (db w) with
        | (Throw _, d1) => d1
        | (Ok m, d1) =>
            match getTotalShipsDestroyed m with
            | Throw _ => d1
            | Ok n =>
                snd (updateMatchStats (matchId self)
                       {| MatchStatsUpdate.winner := _id winner;
                          MatchStatsUpdate.endTime := clock w;
                          MatchStatsUpdate.totalShots := getTotalShotsFired m;
                          MatchStatsUpdate.shipsDestroyed := n |} d1)
            end
        end
    end.
Proof.
  pose proof (proj1 (getUserByUsername_run (winnerUsername payload) (db w)))
    as Hsame.
  unfold emit, St.andThen, St.bind, St.tryCatch,
    updateStats, St.bind, St.ofResult, toUnixSecondsNow.
  rewrite liftDb_run, Hsame.
  destruct (fst (getUserByUsername (winnerUsername payload) (db w)))
    as [winner|e0]; simpl.
  - rewrite liftDb_run. simpl.
    destruct (getMatchById (matchId self) (db w)) as [[m|e1] d1]; simpl.
    + destruct (getTotalShipsDestroyed m) as [n|e2]; simpl.
      * rewrite liftDb_run. simpl.
        destruct (fst (updateMatchStats _ _ d1)) as [[]|e]; simpl;
          [reflexivity|].
        destruct (instanceofError e); reflexivity.
      * destruct (instanceofError e2); reflexivity.
    + destruct (instanceofError e1); reflexivity.
  - destruct (instanceofError e0); reflexivity.
Qed.

(** When the winner and the match load and the ships can be counted,
    the store after [emit] is the one [updateMatchStats] leaves, called
    with statistics computed at that moment. *)
Lemma emit_updates self payload w winner m d1 n :
  fst (getUserByUsername (winnerUsername payload) (db w)) = Ok winner ->
  getMatchById (matchId self) (db w) = (Ok m, d1) ->
  getTotalShipsDestroyed m = Ok n ->
  db (snd (emit getMatchById updateMatchStats self payload w))
  = snd (updateMatchStats (matchId self)
           {| MatchStatsUpdate.winner := _id winner;
              MatchStatsUpdate.endTime := clock w;
              MatchStatsUpdate.totalShots := getTotalShotsFired m;
              MatchStatsUpdate.shipsDestroyed := n |} d1).
Proof.
  intros Hwinner Hm Hn.
  pose proof (proj1 (getUserByUsername_run (winnerUsername payload) (db w)))
    as Hsame.
  unfold emit, St.andThen, St.bind, St.tryCatch,
    updateStats, St.bind, St.ofResult, toUnixSecondsNow.
  rewrite liftDb_run, Hwinner, Hsame. simpl.
  rewrite liftDb_run. simpl. rewrite Hm. simpl. rewrite Hn. simpl.
  rewrite liftDb_run. simpl.
  destruct (fst (updateMatchStats _ _ d1)) as [[]|e]; simpl.
  - reflexivity.
  - destruct (instanceofError e); reflexivity.
Qed.
End EmitProperties.

(** C1. At termination the number of ships reported destroyed is the
    number of ships, over the grids of both players, that are destroyed,
    a ship of length L being destroyed when exactly L of the shots its
    grid received hit it; this holds, and no exception is raised, for every
    match whose two grids satisfy the invariants of the data model (ships
    contiguous and collinear, no shot recorded twice).  That number is the
    [shipsDestroyed] of the statistics that [emit] hands to
    [updateMatchStats]. *)
Theorem getTotalShipsDestroyed_counts_destroyed (m : MatchDocument) :
  grid_invariant (grid (player1 m)) = true ->
  grid_invariant (grid (player2 m)) = true ->
  getTotalShipsDestroyed m = Ok (destroyed_ships m)
  /\ forall (getMatchById : string -> ST Db MatchDocument)
       (updateMatchStats : string -> MatchStatsUpdate.t -> ST Db unit)
       (self : MatchTerminatedEmitter) (payload : MatchTerminatedData)
       (w : World) (winner : UserDocument) (d1 : Db),
       fst (getUserByUsername (winnerUsername payload) (db w)) = Ok winner ->
       getMatchById (matchId self) (db w) = (Ok m, d1) ->
       db (snd (emit getMatchById updateMatchStats self payload w))
       = snd (updateMatchStats (matchId self)
                {| MatchStatsUpdate.winner := _id winner;
                   MatchStatsUpdate.endTime := clock w;
                   MatchStatsUpdate.totalShots := getTotalShotsFired m;
                   MatchStatsUpdate.shipsDestroyed := destroyed_ships m |}
                d1).
Proof.
  unfold grid_invariant. rewrite !andb_true_iff.
  intros [Hships1 Hshots1] [Hships2 Hshots2].
  assert (Hcount : getTotalShipsDestroyed m = Ok (destroyed_ships m)).
  { unfold getTotalShipsDestroyed, destroyed_ships, destroyed_in. simpl.
    rewrite (forEach_ships _ _ _ Hships1 Hshots1). simpl.
    rewrite (forEach_ships _ _ _ Hships2 Hshots2). simpl.
    reflexivity. }
  split; [exact Hcount|].
  intros getMatchById updateMatchStats self payload w winner d1 Hwinner Hm.
  apply emit_updates; assumption.
Qed.

Lemma getTotalShipsDestroyed_counts_destroyed_witness :
  getTotalShipsDestroyed Scenario.matchD = Ok 1%nat
  /\ persistedStats "m1"
       (db (snd (MatchStore.terminate (newMatchTerminatedEmitter "m1")
                   Scenario.aliceWon Scenario.world)))
     = Some {| MatchStatsUpdate.winner := "u1";
               MatchStatsUpdate.endTime := 1000;
               MatchStatsUpdate.totalShots := 3;
               MatchStatsUpdate.shipsDestroyed := 1 |}.
Proof.
  destruct (getTotalShipsDestroyed_counts_destroyed Scenario.matchD
              eq_refl eq_refl) as [Hcount Hemit].
  split; [exact Hcount|].
  unfold MatchStore.terminate.
  rewrite (Hemit MatchStore.getMatchById MatchStore.updateMatchStats
             (newMatchTerminatedEmitter "m1") Scenario.aliceWon
             Scenario.world (hydrate "u1" Scenario.alice)
             (db Scenario.world));
    vm_compute; reflexivity.
Defined.

(** C2. The total number of shots computed at termination is the length
    of the shots received by player 1's grid plus the length of the shots
    received by player 2's grid; that sum is the [totalShots] of the
    statistics that [emit] hands to [updateMatchStats]. *)
Theorem getTotalShotsFired_sum (m : MatchDocument) :
  getTotalShotsFired m
  = (length (shotsReceived (grid (player1 m)))
     + length (shotsReceived (grid (player2 m))))%nat
  /\ forall (getMatchById : string -> ST Db MatchDocument)
       (updateMatchStats : string -> MatchStatsUpdate.t -> ST Db unit)
       (self : MatchTerminatedEmitter) (payload : MatchTerminatedData)
       (w : World) (winner : UserDocument) (d1 : Db) (n : nat),
       fst (getUserByUsername (winnerUsername payload) (db w)) = Ok winner ->
       getMatchById (matchId self) (db w) = (Ok m, d1) ->
       getTotalShipsDestroyed m = Ok n ->
       db (snd (emit getMatchById updateMatchStats self payload w))
       = snd (updateMatchStats (matchId self)
                {| MatchStatsUpdate.winner := _id winner;
                   MatchStatsUpdate.endTime := clock w;
                   MatchStatsUpdate.totalShots :=
                     (length (shotsReceived (grid (player1 m)))
                      + length (shotsReceived (grid (player2 m))))%nat;
                   MatchStatsUpdate.shipsDestroyed := n |}
                d1).
Proof.
  split; [reflexivity|].
  intros getMatchById updateMatchStats self payload w winner d1 n
    Hwinner Hm Hn.
  apply (emit_updates getMatchById updateMatchStats self payload w
           winner m d1 n Hwinner Hm Hn).
Qed.

Lemma getTotalShotsFired_sum_witness :
  getTotalShotsFired Scenario.matchD = 3%nat
  /\ (persistedStats "m1"
        (db (snd (MatchStore.terminate (newMatchTerminatedEmitter "m1")
                    Scenario.aliceWon Scenario.world)))
      ≫= fun stats => Some (MatchStatsUpdate.totalShots stats))
     = Some 3%nat.
Proof.
  destruct (getTotalShotsFired_sum Scenario.matchD) as [Hsum Hemit].
  split; [exact Hsum|].
  unfold MatchStore.terminate.
  rewrite (Hemit MatchStore.getMatchById MatchStore.updateMatchStats
             (newMatchTerminatedEmitter "m1") Scenario.aliceWon
             Scenario.world (hydrate "u1" Scenario.alice)
             (db Scenario.world) 1%nat);
    vm_compute; reflexivity.
Defined.

(** Scenario D: three shots, one hit, one ship destroyed. *)
Example scenario_D_stats :
  getTotalShotsFired Scenario.matchD = 3%nat
  /\ getTotalShipsDestroyed Scenario.matchD = Ok 1%nat.
Proof. split; reflexivity. Qed.

(** C8. When the hits counted on a ship exceed the number of its cells,
    [isShipDestroyed] raises an error instead of answering; on a ship and
    shots that satisfy the grid invariants the count never exceeds the
    number of cells, so the function answers. *)
Theorem isShipDestroyed_asserts_hits (ship : Ship)
  (shots : list GridCoordinates) :
  ((length (coordinates ship) < countHits ship shots)%nat ->
   isShipDestroyed ship shots = Throw (JsError hitsError))
  /\ (ship_invariant ship = true -> distinct shots = true ->
      (countHits ship shots <= length (coordinates ship))%nat
      /\ isShipDestroyed ship shots = Ok (destroyed ship shots)).
Proof.
  split.
  - intros Hover. unfold isShipDestroyed.
    apply Nat.ltb_lt in Hover. rewrite Hover. reflexivity.
  - intros Hship Hshots. split.
    + destruct (ship_invariant_parts _ Hship) as [Hline Hd].
      rewrite (countHits_hits_on _ _ Hline).
      apply hits_on_le; assumption.
    + apply isShipDestroyed_ok; assumption.
Qed.

Lemma isShipDestroyed_asserts_hits_witness :
  isShipDestroyed Scenario.dinghy Scenario.sameCellTwice
  = Throw (JsError hitsError)
  /\ ((countHits Scenario.dinghy [Scenario.cell 0 0] <= 1)%nat
      /\ isShipDestroyed Scenario.dinghy [Scenario.cell 0 0] = Ok true).
Proof.
  split.
  - apply (proj1 (isShipDestroyed_asserts_hits Scenario.dinghy
                    Scenario.sameCellTwice)).
    vm_compute. lia.
  - apply (proj2 (isShipDestroyed_asserts_hits Scenario.dinghy
                    [Scenario.cell 0 0])); reflexivity.
Defined.




(** C9. Every termination event goes out under the name
    ['match-terminated'], to the room of the match, with a payload of
    exactly the two fields [winnerUsername] and [reason], the reason being
    one of [PlayerWon] and [PlayerLeftTheGame]. *)
Theorem match_terminated_event_contract
  (getMatchById : string -> ST Db MatchDocument)
  (updateMatchStats : string -> MatchStatsUpdate.t -> ST Db unit)
  (matchId : string) (payload : MatchTerminatedData) (w : World) :
  let self := newMatchTerminatedEmitter matchId in
  let w' := snd (emit getMatchById updateMatchStats self payload w) in
  eventName (super self) = "match-terminated"%string
  /\ sent w' = sent w ++ [{| toRoom := matchId;
                             event := "match-terminated";
                             data := payload |}]
  /\ map fst (payloadFields payload)
     = ["winnerUsername"%string; "reason"%string]
  /\ payload = {| winnerUsername := winnerUsername payload;
                 reason := reason payload |}
  /\ (reason payload = PlayerWon \/ reason payload = PlayerLeftTheGame).
Proof.
  intros self w'.
  destruct (emit_sends getMatchById updateMatchStats self payload w)
    as (_ & Hsent & _).
  split; [reflexivity|]. split; [exact Hsent|]. split; [reflexivity|].
  split; [destruct payload; reflexivity|].
  destruct (reason payload); auto.
Qed.

(** C7 (as stated, refuted). A second termination of a terminated match
    is not a no-op.  The statistics persisted by the first termination stay
    as they are and no error is raised, but the event is broadcast to the
    room a second time; [emit] broadcasts twice whatever the operations of
    the match collection do. *)
Lemma second_termination_broadcasts_again :
  let self := newMatchTerminatedEmitter "m1" in
  let event := {| toRoom := "m1"; event := "match-terminated";
                  data := Scenario.aliceWon |} in
  let w1 := snd (MatchStore.terminate self Scenario.aliceWon Scenario.world) in
  let w2 := snd (MatchStore.terminate self Scenario.aliceWon w1) in
  persistedStats "m1" (db w1)
  = Some {| MatchStatsUpdate.winner := "u1";
            MatchStatsUpdate.endTime := 1000;
            MatchStatsUpdate.totalShots := 3;
            MatchStatsUpdate.shipsDestroyed := 1 |}
  /\ fst (MatchStore.terminate self Scenario.aliceWon w1) = Ok tt
  /\ persistedStats "m1" (db w2) = persistedStats "m1" (db w1)
  /\ sent w1 = [event]
  /\ sent w2 = [event; event]
  /\ w2 <> w1
  /\ forall getMatchById updateMatchStats,
       sent (snd (emit getMatchById updateMatchStats self Scenario.aliceWon
                    (snd (emit getMatchById updateMatchStats self
                            Scenario.aliceWon Scenario.world))))
       = [event; event].
Proof.
  intros self event w1 w2.
  split; [vm_compute; reflexivity|].
  split; [vm_compute; reflexivity|].
  split; [vm_compute; reflexivity|].
  split; [vm_compute; reflexivity|].
  split; [vm_compute; reflexivity|].
  split.
  - intros Hsame. apply (f_equal sent) in Hsame.
    vm_compute in Hsame. discriminate.
  - intros getMatchById updateMatchStats.
    rewrite (proj1 (proj2 (emit_sends getMatchById updateMatchStats self
                             Scenario.aliceWon _))).
    rewrite (proj1 (proj2 (emit_sends getMatchById updateMatchStats self
                             Scenario.aliceWon _))).
    reflexivity.
Qed.

(** C7 (amended). A termination attempt on a match whose statistics are
    already persisted raises no error and leaves the store, and so the
    persisted statistics, as they were: the update of the match is
    write-once.  It is not a no-op, though: [emit] does not look at the
    state of the match, and whatever the operations of the match collection
    do, a second termination broadcasts the event a second time and, when
    the winner and the match load and the ships can be counted, calls
    [updateMatchStats] again, with statistics computed at the time of the
    second call. *)
Theorem second_termination_repeats
  (self : MatchTerminatedEmitter) (payload : MatchTerminatedData)
  (w : World) :
  (forall stats,
      persistedStats (matchId self) (db w) = Some stats ->
      let w' := snd (MatchStore.terminate self payload w) in
      fst (MatchStore.terminate self payload w) = Ok tt
      /\ db w' = db w
      /\ persistedStats (matchId self) (db w') = Some stats
      /\ sent w' = sent w ++ [broadcastOf self payload])
  /\ (forall (getMatchById : string -> ST Db MatchDocument)
        (updateMatchStats : string -> MatchStatsUpdate.t -> ST Db unit)
        (seconds : Z),
        let terminate := emit getMatchById updateMatchStats self payload in
        let w1 := later seconds (snd (terminate w)) in
        let w2 := snd (terminate w1) in
        fst (terminate w1) = Ok tt
        /\ sent w2
           = sent w ++ [broadcastOf self payload; broadcastOf self payload]
        /\ forall winner m d1 n,
             fst (getUserByUsername (winnerUsername payload) (db w1))
             = Ok winner ->
             getMatchById (matchId self) (db w1) = (Ok m, d1) ->
             getTotalShipsDestroyed m = Ok n ->
             db w2
             = snd (updateMatchStats (matchId self)
                      {| MatchStatsUpdate.winner := _id winner;
                         MatchStatsUpdate.endTime := clock w + seconds;
                         MatchStatsUpdate.totalShots := getTotalShotsFired m;
                         MatchStatsUpdate.shipsDestroyed := n |} d1)).
Proof.
  split.
  - intros stats Hstats w'.
    destruct (emit_sends MatchStore.getMatchById MatchStore.updateMatchStats
                self payload w) as (Hok & Hsent & _).
    assert (Hdb : db w' = db w).
    { unfold w', MatchStore.terminate. rewrite emit_db.
      destruct (fst (getUserByUsername (winnerUsername payload) (db w)))
        as [winner|e0]; [|reflexivity].
      unfold persistedStats in Hstats.
      unfold MatchStore.updateMatchStats, St.bind, MatchStore.getMatchById.
      destruct (matches (db w) !! matchId self) as [m|] eqn:Hm;
        [|discriminate].
      simpl in Hstats.
      destruct (getTotalShipsDestroyed m) as [n|e2]; [|reflexivity].
      rewrite Hm, Hstats. reflexivity. }
    split; [exact Hok|]. split; [exact Hdb|].
    split; [rewrite Hdb; exact Hstats|exact Hsent].
  - intros getMatchById updateMatchStats seconds terminate w1 w2.
    destruct (emit_sends getMatchById updateMatchStats self payload w)
      as (_ & Hsent & Hclock).
    destruct (emit_sends getMatchById updateMatchStats self payload w1)
      as (Hok' & Hsent' & _).
    split; [exact Hok'|]. split.
    + unfold w2, terminate. rewrite Hsent'. unfold w1. simpl.
      fold terminate. unfold terminate. rewrite Hsent.
      rewrite <- app_assoc. reflexivity.
    + intros winner m d1 n Hwinner Hm Hn.
      unfold w2, terminate.
      rewrite (emit_updates getMatchById updateMatchStats self payload w1
                 winner m d1 n Hwinner Hm Hn).
      unfold w1, later, terminate. simpl. rewrite Hclock. reflexivity.
Qed.

Lemma second_termination_repeats_witness :
  let self := newMatchTerminatedEmitter "m1" in
  let stats := {| MatchStatsUpdate.winner := "u1";
                  MatchStatsUpdate.endTime := 1000;
                  MatchStatsUpdate.totalShots := 3;
                  MatchStatsUpdate.shipsDestroyed := 1 |} in
  let w1 := later 5 (snd (MatchStore.terminate self Scenario.aliceWon
                            Scenario.world)) in
  let w2 := snd (MatchStore.terminate self Scenario.aliceWon w1) in
  persistedStats "m1" (db w1) = Some stats
  /\ fst (MatchStore.terminate self Scenario.aliceWon w1) = Ok tt
  /\ db w2 = db w1
  /\ persistedStats "m1" (db w2) = Some stats
  /\ sent w2 = sent w1 ++ [broadcastOf self Scenario.aliceWon].
Proof.
  intros self stats w1 w2.
  assert (Hstats : persistedStats (matchId self) (db w1) = Some stats)
    by (vm_compute; reflexivity).
  split; [exact Hstats|].
  apply (proj1 (second_termination_repeats self Scenario.aliceWon w1)
           stats Hstats).
Defined.

(** ** The pairing scheduler *)

Section Pairing.
Import Matchmaking.
Implicit Types (queue rest : list QueueEntry).
Implicit Types (pairs : list (QueueEntry * QueueEntry)).

(** Induction two entries at a time, as the scheduler walks the queue. *)
Lemma queue_pair_ind (P : list QueueEntry -> Prop) :
  P [] -> (forall a, P [a]) ->
  (forall a b rest, P rest -> P (a :: b :: rest)) ->
  forall queue, P queue.
Proof.
  intros Hnil Hone Hstep.
  fix IH 1. intros [|a [|b rest]].
  - exact Hnil.
  - apply Hone.
  - apply Hstep. apply IH.
Qed.

Lemma half_SS (n : nat) : (S (S n) / 2 = S (n / 2))%nat.
Proof.
  replace (S (S n)) with (n + 1 * 2)%nat by lia.
  rewrite Nat.div_add by lia. lia.
Qed.

Lemma pairConsecutive_step a b rest :
  pairConsecutive (a :: b :: rest)
  = ((a, b) :: fst (pairConsecutive rest), snd (pairConsecutive rest)).
Proof. simpl. destruct (pairConsecutive rest). reflexivity. Qed.

(** The matches and the leftover, read in order, are the queue. *)
Lemma pairConsecutive_fifo queue :
  players (fst (pairConsecutive queue)) ++ snd (pairConsecutive queue)
  = queue.
Proof.
  induction queue as [| a | a b rest IH] using queue_pair_ind;
    try reflexivity.
  rewrite pairConsecutive_step. simpl. rewrite IH. reflexivity.
Qed.

Lemma pairConsecutive_count queue :
  length (fst (pairConsecutive queue)) = (length queue / 2)%nat.
Proof.
  induction queue as [| a | a b rest IH] using queue_pair_ind;
    try reflexivity.
  rewrite pairConsecutive_step. cbn [fst length].
  rewrite half_SS, IH. reflexivity.
Qed.

Lemma pairConsecutive_even queue :
  Nat.even (length queue) = true -> snd (pairConsecutive queue) = [].
Proof.
  induction queue as [| a | a b rest IH] using queue_pair_ind.
  - reflexivity.
  - discriminate.
  - rewrite pairConsecutive_step. exact IH.
Qed.

Lemma pairConsecutive_odd queue (other : QueueEntry) :
  Nat.odd (length queue) = true ->
  snd (pairConsecutive queue) = [List.last queue other].
Proof.
  induction queue as [| a | a b rest IH] using queue_pair_ind.
  - discriminate.
  - reflexivity.
  - rewrite pairConsecutive_step. intros Hodd.
    change (Nat.odd (length rest) = true) in Hodd.
    cbn [snd]. rewrite (IH Hodd).
    destruct rest as [|c rest']; [discriminate|]. reflexivity.
Qed.

Lemma notifications_count pairs :
  length
    (flat_map
       (fun '(a, b) =>
          [{| recipient := userId a; opponentId := userId b |};
           {| recipient := userId b; opponentId := userId a |}])
       pairs)
  = (2 * length pairs)%nat.
Proof.
  induction pairs as [|[a b] pairs IH]; simpl; [reflexivity|].
  rewrite IH. lia.
Qed.

Lemma matchesOf_cons user a b pairs :
  matchesOf user ((a, b) :: pairs)
  = ((if String.eqb (userId a) user || String.eqb (userId b) user
      then 1 else 0)
     + matchesOf user pairs)%nat.
Proof.
  unfold matchesOf. cbn [List.filter].
  destruct (String.eqb (userId a) user || String.eqb (userId b) user);
    reflexivity.
Qed.

Lemma matchesOf_absent user pairs :
  ~ In user (map userId (players pairs)) -> matchesOf user pairs = 0%nat.
Proof.
  induction pairs as [|[a b] pairs IH]; [reflexivity|].
  cbn [players flat_map map app In]. intros Hnot.
  rewrite matchesOf_cons.
  destruct (String.eqb_spec (userId a) user) as [Heqa|Ha]; [tauto|].
  destruct (String.eqb_spec (userId b) user) as [Heqb|Hb]; [tauto|].
  simpl. apply IH. tauto.
Qed.

(** With one entry per user, a paired user plays exactly one match. *)
Lemma matchesOf_once user pairs :
  List.NoDup (map userId (players pairs)) ->
  In user (map userId (players pairs)) -> matchesOf user pairs = 1%nat.
Proof.
  induction pairs as [|[a b] pairs IH]; [simpl; tauto|].
  cbn [players flat_map map app In]. intros Hnodup Hin.
  apply List.NoDup_cons_iff in Hnodup as [Ha Hnodup].
  apply List.NoDup_cons_iff in Hnodup as [Hb Hnodup].
  cbn [In] in Ha.
  rewrite matchesOf_cons.
  destruct (String.eqb_spec (userId a) user) as [Heqa|Hnea].
  - cbn [orb]. rewrite (matchesOf_absent user pairs); [reflexivity|].
    subst user. tauto.
  - destruct (String.eqb_spec (userId b) user) as [Heqb|Hneb].
    + cbn [orb]. rewrite (matchesOf_absent user pairs); [reflexivity|].
      subst user. exact Hb.
    + cbn [orb]. rewrite IH; [reflexivity | exact Hnodup | tauto].
Qed.
End Pairing.

(** C3. A tick that drains a queue of N users pairs consecutive entries in
    enqueue order: the matches, followed by the entries left queued, list
    the users exactly as they were enqueued; N/2 matches are created and
    both players of each are notified; if N is even nobody is left and each
    user plays exactly one match; if N is odd, (N-1)/2 matches are created,
    the last entry alone stays queued and plays no match, and each other
    user plays exactly one; seven users give three matches and one user
    left queued. *)
Theorem tick_pairs_fifo (queue : list Matchmaking.QueueEntry) :
  List.NoDup (map Matchmaking.userId queue) ->
  let t := Matchmaking.tick queue in
  let N := length queue in
  Matchmaking.players (Matchmaking.arranged t) ++ Matchmaking.queueAfter t
  = queue
  /\ length (Matchmaking.arranged t) = (N / 2)%nat
  /\ length (Matchmaking.notifications t) = (2 * (N / 2))%nat
  /\ (forall e, In e (Matchmaking.players (Matchmaking.arranged t)) ->
        Matchmaking.matchesOf (Matchmaking.userId e) (Matchmaking.arranged t)
        = 1%nat)
  /\ (Nat.even N = true ->
      Matchmaking.queueAfter t = []
      /\ forall e, In e queue ->
           Matchmaking.matchesOf (Matchmaking.userId e)
             (Matchmaking.arranged t) = 1%nat)
  /\ (Nat.odd N = true ->
      length (Matchmaking.arranged t) = ((N - 1) / 2)%nat
      /\ forall other,
           Matchmaking.queueAfter t = [List.last queue other]
           /\ Matchmaking.matchesOf
                (Matchmaking.userId (List.last queue other))
                (Matchmaking.arranged t) = 0%nat
           /\ forall e, In e queue -> e <> List.last queue other ->
                Matchmaking.matchesOf (Matchmaking.userId e)
                  (Matchmaking.arranged t) = 1%nat)
  /\ (N = 7%nat ->
      length (Matchmaking.arranged t) = 3%nat
      /\ length (Matchmaking.queueAfter t) = 1%nat).
Proof.
  intros Hnodup t N.
  assert (Ht : t = {| Matchmaking.arranged :=
                        fst (Matchmaking.pairConsecutive queue);
                      Matchmaking.notifications :=
                        Matchmaking.notifications t;
                      Matchmaking.queueAfter :=
                        snd (Matchmaking.pairConsecutive queue) |}).
  { unfold t, Matchmaking.tick.
    destruct (Matchmaking.pairConsecutive queue). reflexivity. }
  assert (Harr : Matchmaking.arranged t
                 = fst (Matchmaking.pairConsecutive queue))
    by (rewrite Ht; reflexivity).
  assert (Hleft : Matchmaking.queueAfter t
                  = snd (Matchmaking.pairConsecutive queue))
    by (rewrite Ht; reflexivity).
  assert (Hnote : length (Matchmaking.notifications t)
                  = (2 * length (Matchmaking.arranged t))%nat).
  { unfold t, Matchmaking.tick.
    destruct (Matchmaking.pairConsecutive queue). simpl.
    apply notifications_count. }
  pose proof (pairConsecutive_fifo queue) as Hfifo.
  pose proof (pairConsecutive_count queue) as Hcount.
  rewrite <- Harr, <- Hleft in Hfifo. rewrite <- Harr in Hcount.
  fold N in Hcount.
  assert (Hsplit : List.NoDup
                     (map Matchmaking.userId
                        (Matchmaking.players (Matchmaking.arranged t))
                      ++ map Matchmaking.userId (Matchmaking.queueAfter t))).
  { rewrite <- map_app, Hfifo. exact Hnodup. }
  split; [exact Hfifo|]. split; [exact Hcount|].
  split; [rewrite Hnote, Hcount; reflexivity|].
  assert (Honce : forall e,
             In e (Matchmaking.players (Matchmaking.arranged t)) ->
             Matchmaking.matchesOf (Matchmaking.userId e)
               (Matchmaking.arranged t) = 1%nat).
  { intros e He. apply matchesOf_once.
    - apply List.NoDup_app_remove_r in Hsplit. exact Hsplit.
    - apply in_map. exact He. }
  split; [exact Honce|]. split; [|split].
  - intros Heven.
    assert (Hnone : Matchmaking.queueAfter t = []).
    { rewrite Hleft. apply pairConsecutive_even. exact Heven. }
    split; [exact Hnone|].
    intros e He. apply Honce.
    rewrite <- Hfifo, Hnone, app_nil_r in He. exact He.
  - intros Hodd. split.
    + rewrite Hcount.
      destruct N as [|n]; [discriminate|].
      replace (S n - 1)%nat with n by lia.
      rewrite Nat.odd_succ in Hodd.
      apply Nat.even_spec in Hodd as [k Hk]. subst n.
      replace (S (2 * k)) with (1 + k * 2)%nat by lia.
      rewrite Nat.div_add by lia.
      replace (2 * k)%nat with (0 + k * 2)%nat by lia.
      rewrite Nat.div_add by lia. reflexivity.
    + intros other.
      pose proof (pairConsecutive_odd queue other Hodd) as Hlast.
      rewrite <- Hleft in Hlast. split; [exact Hlast|]. split.
      * apply matchesOf_absent.
        rewrite Hlast in Hsplit. simpl in Hsplit.
        intros Hin.
        apply List.NoDup_remove_2 in Hsplit. apply Hsplit.
        rewrite app_nil_r. exact Hin.
      * intros e He Hne. apply Honce.
        rewrite <- Hfifo, Hlast in He.
        apply in_app_or in He as [He|[He|[]]]; [exact He|].
        congruence.
  - intros H7. split.
    + rewrite Hcount, H7. reflexivity.
    + assert (Hlen : length (Matchmaking.players (Matchmaking.arranged t)
                             ++ Matchmaking.queueAfter t) = 7%nat)
        by (rewrite Hfifo; exact H7).
      rewrite length_app in Hlen.
      assert (Hp : forall pairs,
                 length (Matchmaking.players pairs)
                 = (2 * length pairs)%nat).
      { induction pairs as [|[a b] pairs IH]; simpl; [reflexivity|].
        rewrite IH. lia. }
      rewrite Hp, Hcount, H7 in Hlen.
      change (7 / 2)%nat with 3%nat in Hlen. lia.
Qed.

Lemma tick_pairs_fifo_witness :
  Matchmaking.arranged (Matchmaking.tick Scenario.queue7)
  = [(Scenario.entry 1 "a", Scenario.entry 2 "b");
     (Scenario.entry 3 "c", Scenario.entry 4 "d");
     (Scenario.entry 5 "e", Scenario.entry 6 "f")]
  /\ length (Matchmaking.arranged (Matchmaking.tick Scenario.queue7)) = 3%nat
  /\ length (Matchmaking.queueAfter (Matchmaking.tick Scenario.queue7))
     = 1%nat.
Proof.
  split; [reflexivity|].
  assert (Hnodup : List.NoDup (map Matchmaking.userId Scenario.queue7)).
  { repeat (apply List.NoDup_cons;
            [vm_compute; intuition discriminate|]).
    apply List.NoDup_nil. }
  destruct (tick_pairs_fifo Scenario.queue7 Hnodup)
    as (_ & _ & _ & _ & _ & _ & H7).
  apply H7. reflexivity.
Defined.

(** ** More on the user collection *)

Lemma updateUserStats_missing (d : Db) (userId : string) (s : UserStats) :
  users d !! userId = None ->
  updateUserStats userId s d = (Throw (JsError noUserError), d).
Proof.
  intros Hu. unfold updateUserStats, St.tryCatch, St.bind, getUserById.
  rewrite Hu. reflexivity.
Qed.

(** X1. On a user that the collection does not hold, [getUserById],
    [getUserStats], [updateUserStats] and [addMatchStats] all reject with
    the [Error] 'No user with that identifier' and leave the store as it
    was. *)
Theorem stats_operations_reject_missing_user (d : Db) (userId : string) :
  users d !! userId = None ->
  getUserById userId d = (Throw (JsError noUserError), d)
  /\ getUserStats userId d = (Throw (JsError noUserError), d)
  /\ (forall s,
        updateUserStats userId s d = (Throw (JsError noUserError), d))
  /\ (forall ships shots hits won,
        addMatchStats userId ships shots hits won d
        = (Throw (JsError noUserError), d)).
Proof.
  intros Hu. repeat split; intros;
    unfold addMatchStats, updateUserStats, getUserStats, St.tryCatch,
      St.bind, getUserById; rewrite Hu; reflexivity.
Qed.

Lemma stats_operations_reject_missing_user_witness :
  getUserById "u9" Scenario.store
  = (Throw (JsError noUserError), Scenario.store)
  /\ getUserStats "u9" Scenario.store
     = (Throw (JsError noUserError), Scenario.store)
  /\ (forall s,
        updateUserStats "u9" s Scenario.store
        = (Throw (JsError noUserError), Scenario.store))
  /\ (forall ships shots hits won,
        addMatchStats "u9" ships shots hits won Scenario.store
        = (Throw (JsError noUserError), Scenario.store)).
Proof.
  apply (stats_operations_reject_missing_user Scenario.store "u9").
  vm_compute. reflexivity.
Defined.

(** X2. [addMatchStats] and [updateUserStats] write the statistics of one
    user and nothing else: every other user, the user's own name and the
    matches are as before. *)
Theorem stats_updates_touch_one_user (d : Db) (userId other : string)
  (ships shots hits : Z) (won : bool) (s : UserStats) :
  other <> userId ->
  let d1 := snd (addMatchStats userId ships shots hits won d) in
  let d2 := snd (updateUserStats userId s d) in
  users d1 !! other = users d !! other
  /\ users d2 !! other = users d !! other
  /\ Stored.username <$> users d1 !! userId
     = Stored.username <$> users d !! userId
  /\ Stored.username <$> users d2 !! userId
     = Stored.username <$> users d !! userId
  /\ matches d1 = matches d
  /\ matches d2 = matches d.
Proof.
  intros Hne d1 d2. unfold d1, d2.
  destruct (users d !! userId) as [u|] eqn:Hu.
  - rewrite (addMatchStats_found _ _ _ _ _ _ _ Hu),
      (updateUserStats_found _ _ _ _ Hu). simpl.
    rewrite !lookup_insert_eq, !lookup_insert_ne by congruence.
    repeat split; reflexivity.
  - rewrite (addMatchStats_missing _ _ _ _ _ _ Hu),
      (updateUserStats_missing _ _ _ Hu).
    simpl. rewrite ?Hu. repeat split; reflexivity.
Qed.

Lemma stats_updates_touch_one_user_witness :
  users (snd (addMatchStats "u1" 5 25 17 true Scenario.store)) !! "u2"
  = Some Scenario.bob.
Proof.
  destruct (stats_updates_touch_one_user Scenario.store "u1" "u2"
              5 25 17 true Scenario.freshStats) as (H & _).
  - discriminate.
  - rewrite H. vm_compute. reflexivity.
Defined.

Lemma fold_addResult_totals (rs : list MatchResult) : forall s : UserStats,
  let s' := fold_left addResult rs s in
  wins s' = wins s + Z.of_nat (length (List.filter resWon rs))
  /\ losses s'
     = losses s
       + Z.of_nat (length (List.filter (fun r => negb (resWon r)) rs))
  /\ shipsDestroyed s'
     = shipsDestroyed s + fold_right Z.add 0 (map resShipsDestroyed rs)
  /\ totalShots s' = totalShots s + fold_right Z.add 0 (map resShots rs)
  /\ totalHits s' = totalHits s + fold_right Z.add 0 (map resHits rs).
Proof.
  induction rs as [|r rs IH]; intros s; simpl.
  - repeat split; lia.
  - destruct (IH (addResult s r)) as (Hw & Hl & Hd & Hs & Hh).
    rewrite Hw, Hl, Hd, Hs, Hh. unfold addResult, addStats. simpl.
    destruct (resWon r); simpl; repeat split; lia.
Qed.

(** X3. After a sequence of results added through [addMatchStats], the
    user's [wins] have grown by the number of wins in the sequence,
    [losses] by the number of losses, together by the length of the
    sequence, and [shipsDestroyed], [totalShots] and [totalHits] by the sums
    of the matches' figures. *)
Theorem addResults_totals (d : Db) (userId : string) (u : Stored.User)
  (rs : list MatchResult) :
  users d !! userId = Some u ->
  let s := Stored.stats u in
  exists s',
    statsOf userId (addResults userId rs d) = Some s'
    /\ wins s' = wins s + Z.of_nat (length (List.filter resWon rs))
    /\ losses s'
       = losses s
         + Z.of_nat (length (List.filter (fun r => negb (resWon r)) rs))
    /\ wins s' + losses s' = wins s + losses s + Z.of_nat (length rs)
    /\ shipsDestroyed s'
       = shipsDestroyed s + fold_right Z.add 0 (map resShipsDestroyed rs)
    /\ totalShots s' = totalShots s + fold_right Z.add 0 (map resShots rs)
    /\ totalHits s' = totalHits s + fold_right Z.add 0 (map resHits rs).
Proof.
  intros Hu s. exists (fold_left addResult rs s).
  split; [apply statsOf_addResults; exact Hu|].
  destruct (fold_addResult_totals rs s) as (Hw & Hl & Hd & Hs & Hh).
  repeat split; try assumption.
  rewrite Hw, Hl.
  assert (Hlen : (length (List.filter resWon rs)
                  + length (List.filter (fun r => negb (resWon r)) rs)
                  = length rs)%nat).
  { clear. induction rs as [|r rs IH]; simpl; [reflexivity|].
    destruct (resWon r); simpl; lia. }
  lia.
Qed.

Lemma addResults_totals_witness :
  let s := Stored.stats Scenario.alice in
  let rs := [Scenario.loss; Scenario.win; Scenario.loss] in
  exists s',
    statsOf "u1" (addResults "u1" rs Scenario.store) = Some s'
    /\ wins s' = wins s + Z.of_nat (length (List.filter resWon rs))
    /\ losses s'
       = losses s
         + Z.of_nat (length (List.filter (fun r => negb (resWon r)) rs))
    /\ wins s' + losses s' = wins s + losses s + Z.of_nat (length rs)
    /\ shipsDestroyed s'
       = shipsDestroyed s + fold_right Z.add 0 (map resShipsDestroyed rs)
    /\ totalShots s' = totalShots s + fold_right Z.add 0 (map resShots rs)
    /\ totalHits s' = totalHits s + fold_right Z.add 0 (map resHits rs).
Proof.
  apply (addResults_totals Scenario.store "u1" Scenario.alice
           [Scenario.loss; Scenario.win; Scenario.loss]).
  vm_compute. reflexivity.
Defined.

Lemma fold_addResult_elo_bounds (rs : list MatchResult) : forall s : UserStats,
  let s' := fold_left addResult rs s in
  let won := Z.of_nat (length (List.filter resWon rs)) in
  let lost :=
    Z.of_nat (length (List.filter (fun r => negb (resWon r)) rs)) in
  elo s + 30 * won - 20 * lost <= elo s'
  /\ elo s' <= Z.max 0 (elo s) + 30 * won
  /\ topElo s <= topElo s'.
Proof.
  induction rs as [|r rs IH]; intros s; simpl.
  - lia.
  - destruct (IH (addResult s r)) as (Hlo & Hhi & Htop).
    pose proof (addStats_elo s (resShipsDestroyed r) (resShots r)
                  (resHits r) (resWon r)) as He.
    pose proof (addStats_topElo s (resShipsDestroyed r) (resShots r)
                  (resHits r) (resWon r)) as Ht.
    fold (addResult s r) in He, Ht.
    destruct (resWon r); simpl in *; lia.
Qed.

(** X4. Over any sequence of results the clamp at 0 only ever raises the
    rating: the final rating is at least the first rating plus 30 per win
    minus 20 per loss, it is at most the first rating (or 0, if that was
    negative) plus 30 per win, and [topElo] never goes down. *)
Theorem addResults_elo_bounds (d : Db) (userId : string) (u : Stored.User)
  (rs : list MatchResult) :
  users d !! userId = Some u ->
  let s := Stored.stats u in
  let won := Z.of_nat (length (List.filter resWon rs)) in
  let lost :=
    Z.of_nat (length (List.filter (fun r => negb (resWon r)) rs)) in
  exists s',
    statsOf userId (addResults userId rs d) = Some s'
    /\ elo s + 30 * won - 20 * lost <= elo s'
    /\ elo s' <= Z.max 0 (elo s) + 30 * won
    /\ topElo s <= topElo s'.
Proof.
  intros Hu s won lost. exists (fold_left addResult rs s).
  split; [apply statsOf_addResults; exact Hu|].
  apply fold_addResult_elo_bounds.
Qed.

Lemma addResults_elo_bounds_witness :
  let s := Stored.stats Scenario.alice in
  let rs := [Scenario.loss; Scenario.win; Scenario.loss] in
  exists s',
    statsOf "u1" (addResults "u1" rs Scenario.store) = Some s'
    /\ elo s + 30 * 1 - 20 * 2 <= elo s'
    /\ elo s' <= Z.max 0 (elo s) + 30 * 1
    /\ topElo s <= topElo s'.
Proof.
  apply (addResults_elo_bounds Scenario.store "u1" Scenario.alice
           [Scenario.loss; Scenario.win; Scenario.loss]).
  vm_compute. reflexivity.
Defined.

(** X5. The statistics written by [updateUserStats] are the ones that
    [getUserStats] reads back, and the ones that [GET /users/:userId/stats]
    answers with status 200; on a user that the collection does not hold
    the route answers 404 with the message of the rejection.  Reading
    changes nothing. *)
Theorem getUserStats_reads_back (d : Db) (userId : string) (s : UserStats)
  (now : Z) (path : string) :
  let d' := snd (updateUserStats userId s d) in
  (is_Some (users d !! userId) ->
   getUserStats userId d' = (Ok s, d')
   /\ Http.getStats now path userId d'
      = ({| Http.status := 200; Http.body := Http.StatsBody s |}, d'))
  /\ (users d !! userId = None ->
      Http.getStats now path userId d
      = ({| Http.status := 404;
            Http.body := Http.ErrorBody now noUserError path |}, d)).
Proof.
  intros d'. split.
  - intros [u Hu]. unfold d'.
    rewrite (updateUserStats_found _ _ _ _ Hu). simpl.
    unfold Http.getStats, getUserStats. simpl.
    rewrite lookup_insert_eq. simpl.
    split; [reflexivity|]. destruct s; reflexivity.
  - intros Hu. unfold Http.getStats, getUserStats. rewrite Hu. reflexivity.
Qed.

Lemma getUserStats_reads_back_witness :
  Http.getStats 1000 "/users/u1/stats" "u1"
    (snd (updateUserStats "u1" Scenario.negativeStats Scenario.store))
  = ({| Http.status := 200;
        Http.body := Http.StatsBody Scenario.negativeStats |},
     snd (updateUserStats "u1" Scenario.negativeStats Scenario.store))
  /\ Http.getStats 1000 "/users/u9/stats" "u9" Scenario.store
     = ({| Http.status := 404;
           Http.body :=
             Http.ErrorBody 1000 noUserError "/users/u9/stats" |},
        Scenario.store).
Proof.
  split.
  - apply (proj1 (getUserStats_reads_back Scenario.store "u1"
                    Scenario.negativeStats 1000 "/users/u1/stats")).
    exists Scenario.alice. vm_compute. reflexivity.
  - apply (proj2 (getUserStats_reads_back Scenario.store "u9"
                    Scenario.negativeStats 1000 "/users/u9/stats")).
    vm_compute. reflexivity.
Defined.

Section UserLookup.
Implicit Types (d : Db) (name id : string) (u : Stored.User).

Lemma In_map_to_list d id u :
  In (id, u) (map_to_list (users d)) <-> users d !! id = Some u.
Proof. rewrite <- list_elem_of_In. apply elem_of_map_to_list. Qed.

Lemma find_by_name_Some d name id u :
  List.find (fun '(_, v) => String.eqb (Stored.username v) name)
    (map_to_list (users d)) = Some (id, u) ->
  users d !! id = Some u /\ Stored.username u = name.
Proof.
  intros H. apply List.find_some in H as [Hin Heq].
  apply In_map_to_list in Hin. apply String.eqb_eq in Heq. auto.
Qed.

Lemma find_by_name_None d name :
  List.find (fun '(_, v) => String.eqb (Stored.username v) name)
    (map_to_list (users d)) = None
  <-> (forall id u, users d !! id = Some u -> Stored.username u <> name).
Proof.
  split.
  - intros H id u Hu Heq.
    apply In_map_to_list in Hu.
    pose proof (List.find_none _ _ H _ Hu) as Hf. simpl in Hf.
    apply String.eqb_neq in Hf. contradiction.
  - intros Hnone.
    destruct (List.find _ _) as [[id u]|] eqn:Hfind; [|reflexivity].
    apply find_by_name_Some in Hfind as [Hu Heq].
    exfalso. apply (Hnone id u Hu Heq).
Qed.
End UserLookup.

(** X6. The document that [getUserByUsername] finds has the name asked
    for and is the document that [getUserById] finds under its [_id];
    [getUserByUsername] rejects, with 'No user with that identifier',
    exactly when no user of the collection has that name; it never writes
    to the store. *)
Theorem getUserByUsername_agrees_with_getUserById (name : string) (d : Db) :
  (forall u,
      fst (getUserByUsername name d) = Ok u ->
      username u = name /\ getUserById (_id u) d = (Ok u, d))
  /\ (fst (getUserByUsername name d) = Throw (JsError noUserError)
      <-> forall id v, users d !! id = Some v -> Stored.username v <> name)
  /\ (forall e, fst (getUserByUsername name d) = Throw e ->
                e = JsError noUserError)
  /\ snd (getUserByUsername name d) = d.
Proof.
  unfold getUserByUsername.
  destruct (List.find _ _) as [[id v]|] eqn:Hfind; simpl.
  - apply find_by_name_Some in Hfind as [Hv Hname].
    split; [|split; [|split]].
    + intros u [= <-]. simpl. split; [exact Hname|].
      unfold getUserById. rewrite Hv. reflexivity.
    + split; [discriminate|].
      intros Hnone. exfalso. apply (Hnone id v Hv Hname).
    + discriminate.
    + reflexivity.
  - pose proof (proj1 (find_by_name_None d name) Hfind) as Hnone.
    split; [|split; [|split]].
    + discriminate.
    + split; [intros _; exact Hnone | reflexivity].
    + intros e [= <-]. reflexivity.
    + reflexivity.
Qed.

Section GetUsers.
Implicit Types (d : Db) (ids : list string).

Lemma existsb_eqb_In id ids :
  existsb (String.eqb id) ids = true <-> In id ids.
Proof.
  rewrite existsb_exists. split.
  - intros (x & Hx & Heq). apply String.eqb_eq in Heq. subst. exact Hx.
  - intros H. exists id. split; [exact H | apply String.eqb_refl].
Qed.

Lemma stored_hydrate id (v : Stored.User) : stored (hydrate id v) = v.
Proof. destruct v. reflexivity. Qed.

Lemma hydrate_stored (u : UserDocument) : hydrate (_id u) (stored u) = u.
Proof. destruct u. reflexivity. Qed.

Lemma NoDup_keys d : List.NoDup (map fst (map_to_list (users d))).
Proof. apply NoDup_ListNoDup. apply NoDup_fst_map_to_list. Qed.

Lemma NoDup_keys_filter {A} (f : string * A -> bool)
  (l : list (string * A)) :
  List.NoDup (map fst l) -> List.NoDup (map fst (List.filter f l)).
Proof.
  induction l as [|[k a] l IH]; simpl; [auto|].
  intros Hnd. apply List.NoDup_cons_iff in Hnd as [Hk Hnd].
  destruct (f (k, a)); simpl; [|auto].
  apply List.NoDup_cons; [|auto].
  intros Hin. apply Hk.
  apply in_map_iff in Hin as ([k' a'] & Heq & Hin). simpl in Heq. subst k'.
  apply filter_In in Hin as [Hin _].
  apply in_map_iff. exists (k, a'). auto.
Qed.

(** The keys of the documents that [find] returns. *)
Lemma findIn_ids ids d :
  map _id (findIn ids d)
  = map fst
      (List.filter (fun '(id, _) => existsb (String.eqb id) ids)
         (map_to_list (users d))).
Proof.
  unfold findIn. rewrite map_map. apply map_ext. intros [id v]. reflexivity.
Qed.

Lemma findIn_In ids d (u : UserDocument) :
  In u (findIn ids d)
  <-> In (_id u) ids /\ users d !! _id u = Some (stored u).
Proof.
  unfold findIn. rewrite in_map_iff. split.
  - intros ([id v] & <- & Hin). apply filter_In in Hin as [Hin Hids].
    apply existsb_eqb_In in Hids. apply In_map_to_list in Hin.
    simpl. rewrite stored_hydrate. auto.
  - intros [Hids Hu]. exists (_id u, stored u). split.
    + apply hydrate_stored.
    + apply filter_In. split.
      * apply In_map_to_list. exact Hu.
      * apply existsb_eqb_In. exact Hids.
Qed.

Lemma findIn_id_In ids d id :
  In id (map _id (findIn ids d))
  <-> In id ids /\ is_Some (users d !! id).
Proof.
  rewrite in_map_iff. split.
  - intros (u & <- & Hu). apply findIn_In in Hu as [Hids Hu]. eauto.
  - intros [Hids [v Hv]]. exists (hydrate id v). split; [reflexivity|].
    apply findIn_In. simpl. rewrite stored_hydrate. auto.
Qed.

Lemma findIn_NoDup ids d : List.NoDup (map _id (findIn ids d)).
Proof. rewrite findIn_ids. apply NoDup_keys_filter. apply NoDup_keys. Qed.

Lemma findIn_complete ids d :
  length (findIn ids d) = length ids
  <-> List.NoDup ids /\ forall id, In id ids -> is_Some (users d !! id).
Proof.
  rewrite <- (length_map _id (findIn ids d)).
  pose proof (findIn_NoDup ids d) as Hnd.
  assert (Hincl : incl (map _id (findIn ids d)) ids).
  { intros id Hid. apply findIn_id_In in Hid. tauto. }
  split.
  - intros Hlen.
    assert (Hback : incl ids (map _id (findIn ids d))).
    { apply List.NoDup_length_incl; [exact Hnd | lia | exact Hincl]. }
    split.
    + apply (List.NoDup_incl_NoDup Hnd); [lia | exact Hincl].
    + intros id Hid. apply Hback in Hid. apply findIn_id_In in Hid. tauto.
  - intros [Hids Hall].
    apply Nat.le_antisymm.
    + apply List.NoDup_incl_length; assumption.
    + apply List.NoDup_incl_length; [exact Hids|].
      intros id Hid. apply findIn_id_In. auto.
Qed.
End GetUsers.

(** X7. [getUsers] resolves exactly when the ids are pairwise distinct and
    every one of them is the [_id] of a stored user; it then returns as
    many documents as ids, namely the stored documents of those ids.  In
    every other case, also when an id is merely given twice, it rejects
    with the array of the users it found, which is not an [Error]. *)
Theorem getUsers_all_or_nothing (ids : list string) (d : Db) :
  ((exists us, getUsers ids d = inl us)
   <-> List.NoDup ids /\ forall id, In id ids -> is_Some (users d !! id))
  /\ (forall us,
        getUsers ids d = inl us ->
        length us = length ids
        /\ forall u, In u us
                     <-> In (_id u) ids
                         /\ users d !! _id u = Some (stored u))
  /\ (forall r, getUsers ids d = inr r -> r = RejectedUsers (findIn ids d)).
Proof.
  unfold getUsers.
  destruct (Nat.eqb_spec (length (findIn ids d)) (length ids)) as [Hlen|Hlen].
  - split; [|split].
    + split; [intros _; apply findIn_complete; exact Hlen | eauto].
    + intros us [= <-]. split; [exact Hlen|]. intros u. apply findIn_In.
    + discriminate.
  - split; [|split].
    + split.
      * intros [us Hus]. discriminate.
      * intros H. apply findIn_complete in H. contradiction.
    + discriminate.
    + intros r [= <-]. reflexivity.
Qed.

Lemma deleteUser_cases (filter : string -> Stored.User -> bool) (d : Db) :
  (exists id u,
      users d !! id = Some u /\ filter id u = true
      /\ deleteUser filter d
         = (Ok tt, {| users := delete id (users d); matches := matches d |}))
  \/ ((forall id u, users d !! id = Some u -> filter id u = false)
      /\ deleteUser filter d = (Throw (JsError noUserError), d)).
Proof.
  unfold deleteUser.
  destruct (List.find _ _) as [[id u]|] eqn:Hfind.
  - left. apply List.find_some in Hfind as [Hin Hf].
    apply In_map_to_list in Hin. exists id, u. auto.
  - right. split; [|reflexivity]. intros id u Hu.
    apply In_map_to_list in Hu.
    apply (List.find_none _ _ Hfind _ Hu).
Qed.

(** X8. [deleteUser] removes exactly one document, one that the filter
    accepts, and touches nothing else; when the filter accepts no stored
    document it rejects with 'No user with that identifier' and the store
    is as before. *)
Theorem deleteUser_removes_one_accepted
  (filter : string -> Stored.User -> bool) (d : Db) :
  let d' := snd (deleteUser filter d) in
  (fst (deleteUser filter d) = Ok tt ->
   exists id u,
     users d !! id = Some u /\ filter id u = true
     /\ users d' !! id = None
     /\ (forall other, other <> id -> users d' !! other = users d !! other)
     /\ matches d' = matches d)
  /\ (forall e, fst (deleteUser filter d) = Throw e ->
        e = JsError noUserError /\ d' = d
        /\ forall id u, users d !! id = Some u -> filter id u = false)
  /\ ((exists id u, users d !! id = Some u /\ filter id u = true)
      -> fst (deleteUser filter d) = Ok tt).
Proof.
  intros d'. unfold d'.
  destruct (deleteUser_cases filter d)
    as [(id & u & Hu & Hf & Hrun) | [Hnone Hrun]]; rewrite Hrun; simpl.
  - split; [|split].
    + intros _. exists id, u. repeat split; try assumption.
      * apply lookup_delete_eq.
      * intros other Hne. apply lookup_delete_ne. congruence.
    + discriminate.
    + reflexivity.
  - split; [|split].
    + discriminate.
    + intros e [= <-]. auto.
    + intros (id & u & Hu & Hf). rewrite (Hnone id u Hu) in Hf.
      discriminate.
Qed.

(** X9. Deleting by [_id]: when the user is stored, [deleteUser] resolves,
    afterwards [getUserById] rejects for that id, a second [deleteUser]
    rejects too, and every other user is untouched; when the user is not
    stored, [deleteUser] rejects with 'No user with that identifier'. *)
Theorem deleteUser_byId (d : Db) (userId : string) :
  let d' := {| users := delete userId (users d); matches := matches d |} in
  (is_Some (users d !! userId) ->
   deleteUser (byId userId) d = (Ok tt, d')
   /\ getUserById userId d' = (Throw (JsError noUserError), d')
   /\ deleteUser (byId userId) d' = (Throw (JsError noUserError), d')
   /\ forall other, other <> userId ->
        getUserById other d' = (fst (getUserById other d), d'))
  /\ (users d !! userId = None ->
      deleteUser (byId userId) d = (Throw (JsError noUserError), d)).
Proof.
  intros d'.
  assert (Hmiss : forall d0, users d0 !! userId = None ->
            deleteUser (byId userId) d0 = (Throw (JsError noUserError), d0)).
  { intros d0 Hu.
    destruct (deleteUser_cases (byId userId) d0)
      as [(id & u & Hid & Hf & _) | [_ Hrun]]; [|exact Hrun].
    unfold byId in Hf. apply String.eqb_eq in Hf. subst id. congruence. }
  split; [|apply Hmiss].
  intros [u Hu].
  assert (Hgone : users d' !! userId = None) by apply lookup_delete_eq.
  split; [|split; [|split]].
  - destruct (deleteUser_cases (byId userId) d)
      as [(id & v & Hid & Hf & Hrun) | [Hnone _]].
    + unfold byId in Hf. apply String.eqb_eq in Hf. subst id. exact Hrun.
    + specialize (Hnone userId u Hu). unfold byId in Hnone.
      rewrite String.eqb_refl in Hnone. discriminate.
  - unfold getUserById. rewrite Hgone. reflexivity.
  - apply Hmiss. exact Hgone.
  - intros other Hne. unfold getUserById. simpl.
    rewrite lookup_delete_ne by congruence.
    destruct (users d !! other); reflexivity.
Qed.

Lemma deleteUser_byId_witness :
  deleteUser (byId "u2") Scenario.store
  = (Ok tt, {| users := delete "u2" (users Scenario.store);
               matches := matches Scenario.store |})
  /\ deleteUser (byId "u9") Scenario.store
     = (Throw (JsError noUserError), Scenario.store).
Proof.
  split.
  - apply (proj1 (deleteUser_byId Scenario.store "u2")).
    exists Scenario.bob. vm_compute. reflexivity.
  - apply (proj2 (deleteUser_byId Scenario.store "u9")).
    vm_compute. reflexivity.
Defined.

Lemma deleteUser_removes_one_accepted_witness :
  exists id u,
    users Scenario.store !! id = Some u /\ byId "u2" id u = true
    /\ users (snd (deleteUser (byId "u2") Scenario.store)) !! id = None
    /\ (forall other, other <> id ->
          users (snd (deleteUser (byId "u2") Scenario.store)) !! other
          = users Scenario.store !! other)
    /\ matches (snd (deleteUser (byId "u2") Scenario.store))
       = matches Scenario.store.
Proof.
  apply (proj1 (deleteUser_removes_one_accepted (byId "u2") Scenario.store)).
  vm_compute. reflexivity.
Defined.

Section Rename.
Implicit Types (d : Db) (id name : string).

Lemma nameTaken_false d id name :
  nameTaken id name d = false
  <-> (forall other v, users d !! other = Some v -> other <> id ->
                       Stored.username v <> name).
Proof.
  unfold nameTaken. split.
  - intros H other v Hv Hne Hname.
    apply In_map_to_list in Hv.
    assert (Hex : existsb
              (fun '(k, u) =>
                 negb (String.eqb k id) && String.eqb (Stored.username u) name)
              (map_to_list (users d)) = true).
    { apply existsb_exists. exists (other, v). split; [exact Hv|].
      apply andb_true_iff. split.
      - apply negb_true_iff. apply String.eqb_neq. exact Hne.
      - apply String.eqb_eq. exact Hname. }
    congruence.
  - intros H. apply not_true_is_false. intros Hex.
    apply existsb_exists in Hex as ([other v] & Hin & Hb).
    apply andb_true_iff in Hb as [Hne Hname].
    apply negb_true_iff, String.eqb_neq in Hne.
    apply String.eqb_eq in Hname. apply In_map_to_list in Hin.
    apply (H other v Hin Hne Hname).
Qed.
End Rename.

(** X10. [updateUserName] on an id that the collection does not hold is
    not an error: it resolves and changes nothing, so
    [PUT /users/:userId/username] answers 200 with the new name for a user
    that does not exist. *)
Theorem updateUserName_missing_user_is_silent (duplicateKey : string)
  (d : Db) (id name : string) (now : Z) (path : string) :
  users d !! id = None ->
  updateUserName duplicateKey id name d = (Ok tt, d)
  /\ (name <> ""%string ->
      Http.putUsername duplicateKey now path id (Some name) d
      = ({| Http.status := 200; Http.body := Http.UsernameBody name |}, d)).
Proof.
  intros Hu.
  assert (Hrun : updateUserName duplicateKey id name d = (Ok tt, d)).
  { unfold updateUserName. rewrite Hu. reflexivity. }
  split; [exact Hrun|].
  intros Hname. unfold Http.putUsername.
  apply String.eqb_neq in Hname. rewrite Hname. simpl.
  rewrite Hrun. reflexivity.
Qed.

Lemma updateUserName_missing_user_is_silent_witness :
  updateUserName "E11000" "u9" "zoe" Scenario.store = (Ok tt, Scenario.store)
  /\ Http.putUsername "E11000" 1000 "/users/u9/username" "u9" (Some "zoe")
       Scenario.store
     = ({| Http.status := 200; Http.body := Http.UsernameBody "zoe" |},
        Scenario.store).
Proof.
  destruct (updateUserName_missing_user_is_silent "E11000" Scenario.store
              "u9" "zoe" 1000 "/users/u9/username") as [Hrun Hroute].
  - vm_compute. reflexivity.
  - split; [exact Hrun|]. apply Hroute. discriminate.
Defined.

(** X11. [updateUserName] on a stored user, with a name that no other user
    holds, resolves; afterwards [getUserByUsername] finds that user under
    the new name, with the statistics it had, and every other user is
    untouched.  With a name that another user holds it rejects and changes
    nothing. *)
Theorem updateUserName_renames (duplicateKey : string) (d : Db)
  (id name : string) (u : Stored.User) :
  users d !! id = Some u ->
  let d' := snd (updateUserName duplicateKey id name d) in
  (nameTaken id name d = false ->
   fst (updateUserName duplicateKey id name d) = Ok tt
   /\ getUserByUsername name d'
      = (Ok {| _id := id; username := name; stats := Stored.stats u |}, d')
   /\ forall other, other <> id -> users d' !! other = users d !! other)
  /\ (nameTaken id name d = true ->
      updateUserName duplicateKey id name d
      = (Throw (JsError duplicateKey), d)).
Proof.
  intros Hu d'. unfold d', updateUserName. rewrite Hu. split.
  - intros Hfree. rewrite Hfree. simpl.
    split; [reflexivity|]. split.
    + set (d1 := {| users := _; matches := _ |}).
      assert (Hnew : users d1 !! id
                     = Some {| Stored.username := name;
                               Stored.stats := Stored.stats u |})
        by apply lookup_insert_eq.
      unfold getUserByUsername.
      destruct (List.find _ _) as [[k v]|] eqn:Hfind.
      * apply find_by_name_Some in Hfind as [Hk Hname].
        destruct (String.eqb_spec k id) as [->|Hne].
        -- rewrite Hnew in Hk. injection Hk as <-. reflexivity.
        -- exfalso. unfold d1 in Hk. simpl in Hk.
           rewrite lookup_insert_ne in Hk by congruence.
           apply (proj1 (nameTaken_false d id name) Hfree k v Hk Hne Hname).
      * exfalso.
        apply (proj1 (find_by_name_None d1 name) Hfind id _ Hnew).
        reflexivity.
    + intros other Hne. simpl. apply lookup_insert_ne. congruence.
  - intros Htaken. rewrite Htaken. reflexivity.
Qed.

Lemma updateUserName_renames_witness :
  getUserByUsername "zoe" (snd (updateUserName "E11000" "u2" "zoe"
                                  Scenario.store))
  = (Ok {| _id := "u2"; username := "zoe"; stats := Scenario.freshStats |},
     snd (updateUserName "E11000" "u2" "zoe" Scenario.store))
  /\ updateUserName "E11000" "u2" "alice" Scenario.store
     = (Throw (JsError "E11000"), Scenario.store).
Proof.
  destruct (updateUserName_renames "E11000" Scenario.store "u2" "zoe"
              Scenario.bob) as [Hfree _]; [vm_compute; reflexivity|].
  destruct (updateUserName_renames "E11000" Scenario.store "u2" "alice"
              Scenario.bob) as [_ Htaken]; [vm_compute; reflexivity|].
  split.
  - apply Hfree. vm_compute. reflexivity.
  - apply Htaken. vm_compute. reflexivity.
Defined.

(** ** The leaderboard *)

Section Leaderboard.
Implicit Types (u v : UserDocument) (docs : list UserDocument).

Lemma insertByElo_perm u docs : Permutation (insertByElo u docs) (u :: docs).
Proof.
  induction docs as [|v docs IH]; simpl; [reflexivity|].
  destruct (elo (stats v) <? elo (stats u)); [reflexivity|].
  rewrite IH. apply perm_swap.
Qed.

Lemma sortByEloDesc_perm docs : Permutation (sortByEloDesc docs) docs.
Proof.
  induction docs as [|u docs IH]; simpl; [reflexivity|].
  rewrite insertByElo_perm. apply perm_skip. exact IH.
Qed.

Lemma insertByElo_sorted u docs :
  StronglySorted byEloDesc docs ->
  StronglySorted byEloDesc (insertByElo u docs).
Proof.
  induction docs as [|v docs IH]; simpl; intros Hs.
  - constructor; [constructor | constructor].
  - apply StronglySorted_inv in Hs as [Hs Hv].
    destruct (Z.ltb_spec (elo (stats v)) (elo (stats u))) as [Hlt|Hge].
    + constructor.
      * constructor; assumption.
      * constructor; [unfold byEloDesc; lia|].
        eapply List.Forall_impl; [|exact Hv].
        intros w Hw. unfold byEloDesc in *. lia.
    + constructor; [apply IH; exact Hs|].
      apply (Permutation_Forall (Permutation_sym (insertByElo_perm u docs))).
      constructor; [unfold byEloDesc; lia | exact Hv].
Qed.

Lemma sortByEloDesc_sorted docs : StronglySorted byEloDesc (sortByEloDesc docs).
Proof.
  induction docs as [|u docs IH]; simpl; [constructor|].
  apply insertByElo_sorted. exact IH.
Qed.

Lemma In_firstn {A} (n : nat) (l : list A) (x : A) :
  In x (firstn n l) -> In x l.
Proof.
  intros H. rewrite <- (firstn_skipn n l). apply in_or_app. auto.
Qed.

Lemma firstn_then_firstn {A} (n m : nat) : forall l : list A,
  firstn n l ++ firstn m (skipn n l) = firstn (n + m) l.
Proof.
  induction n as [|n IH]; intros [|a l]; simpl; try reflexivity.
  - apply firstn_nil.
  - f_equal. apply IH.
Qed.

Lemma StronglySorted_skipn n docs :
  StronglySorted byEloDesc docs -> StronglySorted byEloDesc (skipn n docs).
Proof.
  revert docs. induction n as [|n IH]; intros [|u docs] Hs; simpl; auto.
  apply StronglySorted_inv in Hs as [Hs _]. auto.
Qed.

Lemma StronglySorted_firstn n docs :
  StronglySorted byEloDesc docs -> StronglySorted byEloDesc (firstn n docs).
Proof.
  revert docs. induction n as [|n IH]; intros [|u docs] Hs; simpl;
    try constructor.
  - apply IH. apply StronglySorted_inv in Hs. tauto.
  - apply StronglySorted_inv in Hs as [_ Hu].
    apply List.Forall_forall. intros w Hw.
    rewrite List.Forall_forall in Hu. apply Hu.
    apply (In_firstn _ _ _ Hw).
Qed.

Lemma limitTo_incl n docs : incl (limitTo n docs) docs.
Proof.
  unfold limitTo. destruct (n =? 0)%nat; [apply incl_refl|].
  intros w Hw. apply (In_firstn _ _ _ Hw).
Qed.

Lemma NoDup_skipn {A} n (l : list A) : List.NoDup l -> List.NoDup (skipn n l).
Proof.
  revert l. induction n as [|n IH]; intros [|a l] H; simpl; auto.
  apply List.NoDup_cons_iff in H. apply IH. tauto.
Qed.

Lemma NoDup_firstn {A} n (l : list A) : List.NoDup l -> List.NoDup (firstn n l).
Proof.
  revert l. induction n as [|n IH]; intros [|a l] H; simpl;
    try constructor.
  - apply List.NoDup_cons_iff in H as [Ha _]. intros Hin. apply Ha.
    apply (In_firstn _ _ _ Hin).
  - apply IH. apply List.NoDup_cons_iff in H. tauto.
Qed.

(** The documents that the leaderboard query ranks. *)
Lemma ranked_In admin (d : Db) u :
  In u (sortByEloDesc
          (List.filter (fun u => negb (String.eqb (username u) admin))
             (map (fun '(id, v) => hydrate id v) (map_to_list (users d)))))
  <-> username u <> admin /\ users d !! _id u = Some (stored u).
Proof.
  split.
  - intros Hin.
    apply (Permutation_in _ (sortByEloDesc_perm _)) in Hin.
    apply filter_In in Hin as [Hin Hname].
    apply negb_true_iff, String.eqb_neq in Hname.
    apply in_map_iff in Hin as ([id v] & <- & Hin).
    apply In_map_to_list in Hin. simpl. rewrite stored_hydrate. auto.
  - intros [Hname Hu].
    apply (Permutation_in _ (Permutation_sym (sortByEloDesc_perm _))).
    apply filter_In. split.
    + apply in_map_iff. exists (_id u, stored u). split.
      * apply hydrate_stored.
      * apply In_map_to_list. exact Hu.
    + apply negb_true_iff, String.eqb_neq. exact Hname.
Qed.

Lemma ranked_NoDup admin (d : Db) :
  List.NoDup
    (map _id
       (sortByEloDesc
          (List.filter (fun u => negb (String.eqb (username u) admin))
             (map (fun '(id, v) => hydrate id v) (map_to_list (users d)))))).
Proof.
  eapply Permutation_NoDup.
  - apply Permutation_map. apply Permutation_sym. apply sortByEloDesc_perm.
  - assert (Hall : List.NoDup
              (map _id (map (fun '(id, v) => hydrate id v)
                          (map_to_list (users d))))).
    { rewrite map_map.
      rewrite (map_ext _ fst); [apply NoDup_keys|].
      intros [id v]. reflexivity. }
    revert Hall. generalize (map (fun '(id, v) => hydrate id v)
                               (map_to_list (users d))).
    induction l as [|a l IH]; simpl; intros Hnd; [constructor|].
    apply List.NoDup_cons_iff in Hnd as [Ha Hnd].
    destruct (negb _); simpl; [|auto].
    apply List.NoDup_cons; [|auto].
    intros Hin. apply Ha.
    apply in_map_iff in Hin as (b & Hb & Hin).
    apply filter_In in Hin as [Hin _].
    apply in_map_iff. eauto.
Qed.
(** Sorted by rating, documents of distinct ratings can be in one order
    only. *)
Lemma sorted_by_elo_unique docs1 : forall docs2,
  Permutation docs1 docs2 ->
  StronglySorted byEloDesc docs1 -> StronglySorted byEloDesc docs2 ->
  List.NoDup (map (fun u => elo (stats u)) docs1) ->
  docs1 = docs2.
Proof.
  induction docs1 as [|a docs1 IH]; intros docs2 Hp Hs1 Hs2 Hnd.
  - apply Permutation_nil in Hp. subst. reflexivity.
  - destruct docs2 as [|b docs2].
    { apply Permutation_sym, Permutation_nil in Hp. discriminate. }
    apply StronglySorted_inv in Hs1 as [Hs1 Ha].
    apply StronglySorted_inv in Hs2 as [Hs2 Hb].
    simpl in Hnd. apply List.NoDup_cons_iff in Hnd as [Hnot Hnd].
    assert (Hab : a = b).
    { rewrite List.Forall_forall in Ha, Hb.
      assert (Hina : In a (b :: docs2))
        by (apply (Permutation_in _ Hp); left; reflexivity).
      assert (Hinb : In b (a :: docs1))
        by (apply (Permutation_in _ (Permutation_sym Hp)); left;
            reflexivity).
      destruct Hina as [Hina|Hina]; [symmetry; exact Hina|].
      destruct Hinb as [Hinb|Hinb]; [exact Hinb|].
      exfalso. apply Hnot.
      pose proof (Ha b Hinb) as Hle1. pose proof (Hb a Hina) as Hle2.
      unfold byEloDesc in Hle1, Hle2.
      apply in_map_iff. exists b. split; [lia|exact Hinb]. }
    subst b. f_equal.
    apply IH; try assumption.
    apply (Permutation_cons_inv Hp).
Qed.

Lemma sortsByElo_agree first next docs :
  sortsByElo first -> sortsByElo next ->
  List.NoDup (map (fun u => elo (stats u)) docs) ->
  first docs = next docs.
Proof.
  intros Hfirst Hnext Hnd.
  destruct (Hfirst docs) as [Hp1 Hs1]. destruct (Hnext docs) as [Hp2 Hs2].
  apply sorted_by_elo_unique; try assumption.
  - rewrite Hp1. symmetry. exact Hp2.
  - apply (Permutation_NoDup
             (Permutation_map _ (Permutation_sym Hp1)) Hnd).
Qed.

Lemma sortsByElo_sortByEloDesc : sortsByElo sortByEloDesc.
Proof.
  intros docs. split; [apply sortByEloDesc_perm|apply sortByEloDesc_sorted].
Qed.

(** The same sort, reading the collection from its other end: documents
    of equal rating come out the other way round. *)
Lemma sortsByElo_backwards : sortsByElo (fun docs => sortByEloDesc (rev docs)).
Proof.
  intros docs. split; [|apply sortByEloDesc_sorted].
  rewrite sortByEloDesc_perm. symmetry. apply Permutation_rev.
Qed.
End Leaderboard.

(** X12. A page of the leaderboard is in order of rating, highest first;
    every entry is a stored user other than the administrator; no user
    appears twice; and a positive [limit] bounds the length of the page. *)
Theorem getLeaderboard_page (adminUsername : string) (skip limit : nat)
  (d : Db) :
  let page := getLeaderboard adminUsername skip limit d in
  StronglySorted byEloDesc page
  /\ (forall u, In u page ->
        username u <> adminUsername /\ users d !! _id u = Some (stored u))
  /\ List.NoDup (map _id page)
  /\ ((0 < limit)%nat -> (length page <= limit)%nat).
Proof.
  intros page. unfold page, getLeaderboard.
  set (ranked := sortByEloDesc _).
  assert (Hsorted : StronglySorted byEloDesc ranked)
    by apply sortByEloDesc_sorted.
  split; [|split; [|split]].
  - unfold limitTo. destruct (limit =? 0)%nat.
    + apply StronglySorted_skipn. exact Hsorted.
    + apply StronglySorted_firstn, StronglySorted_skipn. exact Hsorted.
  - intros u Hu. apply limitTo_incl in Hu.
    assert (Hin : In u ranked).
    { rewrite <- (firstn_skipn skip ranked). apply in_or_app. auto. }
    apply ranked_In in Hin. exact Hin.
  - pose proof (ranked_NoDup adminUsername d) as Hnd. fold ranked in Hnd.
    unfold limitTo. destruct (limit =? 0)%nat.
    + rewrite <- skipn_map. apply NoDup_skipn. exact Hnd.
    + rewrite <- firstn_map, <- skipn_map.
      apply NoDup_firstn, NoDup_skipn. exact Hnd.
  - intros Hpos. unfold limitTo.
    destruct (Nat.eqb_spec limit 0) as [->|_]; [lia|].
    apply firstn_le_length.
Qed.

(** X13. The store may put users of equal rating in any order, and in
    another order at each query.  Whatever orders it picks, when no two
    users on the leaderboard have the same rating and [limit] is positive,
    the page at [skip] followed by the page at [skip + limit], the offset
    that the route's [nextPage] names, is the page of twice the size at
    [skip]: nothing is skipped and nothing repeated.  With or without equal
    ratings, once a page is empty every later page is empty.
    [getLeaderboard] is the query for one such order, and a request without
    [skip] and [limit] is answered with its page at 0 of size 50 and with
    the next page at 50. *)
Theorem leaderboard_pages_chain
  (first next both : list UserDocument -> list UserDocument)
  (adminUsername path : string) (skip limit : nat) (d : Db) :
  sortsByElo first -> sortsByElo next -> sortsByElo both ->
  (0 < limit)%nat ->
  (List.NoDup (leaderboardRatings adminUsername d) ->
   getLeaderboardBy first adminUsername skip limit d
   ++ getLeaderboardBy next adminUsername (skip + limit) limit d
   = getLeaderboardBy both adminUsername skip (limit + limit) d)
  /\ (getLeaderboardBy first adminUsername skip limit d = [] ->
      forall later size, (skip <= later)%nat ->
        getLeaderboardBy next adminUsername later size d = [])
  /\ sortsByElo sortByEloDesc
  /\ getLeaderboard adminUsername skip limit d
     = getLeaderboardBy sortByEloDesc adminUsername skip limit d
  /\ Http.getLeaderboardPage adminUsername path (-1) (-1) d
     = {| Http.status := 200;
          Http.body :=
            Http.LeaderboardBody
              (map (fun x => {| Http.userId := _id x;
                                Http.entryUsername := username x;
                                Http.entryElo := elo (stats x) |})
                 (getLeaderboard adminUsername 0 50 d))
              (path ++ "?skip=50&limit=50") |}.
Proof.
  intros Hfirst Hnext Hboth Hpos.
  split; [|split; [|split; [|split]]].
  - intros Hnd. unfold getLeaderboardBy.
    rewrite (sortsByElo_agree next first _ Hnext Hfirst Hnd).
    rewrite (sortsByElo_agree both first _ Hboth Hfirst Hnd).
    set (ranked := first _).
    unfold limitTo.
    destruct (Nat.eqb_spec limit 0) as [->|_]; [lia|].
    destruct (Nat.eqb_spec (limit + limit) 0) as [H0|_]; [lia|].
    rewrite (Nat.add_comm skip limit), <- skipn_skipn.
    apply firstn_then_firstn.
  - unfold getLeaderboardBy.
    set (docs := leaderboardUsers adminUsername d).
    intros Hempty later size Hlater.
    pose proof (Permutation_length (proj1 (Hfirst docs))) as Hlen1.
    pose proof (Permutation_length (proj1 (Hnext docs))) as Hlen2.
    assert (Hshort : (length (first docs) <= skip)%nat).
    { destruct (Nat.le_gt_cases (length (first docs)) skip) as [H|H];
        [exact H|].
      exfalso.
      assert (Hlen : length (limitTo limit (skipn skip (first docs)))
                     = 0%nat)
        by (rewrite Hempty; reflexivity).
      unfold limitTo in Hlen.
      destruct (Nat.eqb_spec limit 0) as [->|_]; [lia|].
      rewrite length_firstn, length_skipn in Hlen. lia. }
    rewrite (skipn_all2 (next docs)) by lia.
    unfold limitTo. destruct (size =? 0)%nat; [reflexivity | apply firstn_nil].
  - apply sortsByElo_sortByEloDesc.
  - reflexivity.
  - reflexivity.
Qed.

Lemma leaderboard_pages_chain_witness :
  getLeaderboardBy sortByEloDesc "admin" 0 1 Scenario.store
  ++ getLeaderboardBy (fun docs => sortByEloDesc (rev docs)) "admin"
       (0 + 1) 1 Scenario.store
  = getLeaderboardBy sortByEloDesc "admin" 0 (1 + 1) Scenario.store.
Proof.
  apply (leaderboard_pages_chain
           sortByEloDesc (fun docs => sortByEloDesc (rev docs)) sortByEloDesc
           "admin" "/leaderboard" 0 1 Scenario.store).
  - apply sortsByElo_sortByEloDesc.
  - apply sortsByElo_backwards.
  - apply sortsByElo_sortByEloDesc.
  - lia.
  - vm_compute.
    repeat (apply List.NoDup_cons; [simpl; intuition discriminate|]).
    apply List.NoDup_nil.
Defined.

(** With equal ratings the pages need not chain: for two newcomers, a store
    that orders the first query one way and the second the other way
    returns the same user on the first page and on the second. *)
Example leaderboard_ties_may_repeat :
  sortsByElo sortByEloDesc
  /\ sortsByElo (fun docs => sortByEloDesc (rev docs))
  /\ leaderboardRatings "admin" Newcomers.store = [0; 0]
  /\ map _id (getLeaderboardBy sortByEloDesc "admin" 0 1 Newcomers.store)
     = map _id (getLeaderboardBy (fun docs => sortByEloDesc (rev docs))
                  "admin" 1 1 Newcomers.store)
  /\ length (getLeaderboardBy sortByEloDesc "admin" 0 1 Newcomers.store)
     = 1%nat.
Proof.
  split; [apply sortsByElo_sortByEloDesc|].
  split; [apply sortsByElo_backwards|].
  vm_compute. repeat split.
Qed.

Lemma getLeaderboard_page_witness :
  (length (getLeaderboard "admin" 0 1 Scenario.store) <= 1)%nat.
Proof.
  apply (getLeaderboard_page "admin" 0 1 Scenario.store). lia.
Defined.

(** ** More on ship accounting *)

Section ShipShapes.
Implicit Types (ship : Ship) (shots : list GridCoordinates).

Lemma filter_length_le {A} (p q : A -> bool) (l : list A) :
  (forall x, p x = true -> q x = true) ->
  (length (List.filter p l) <= length (List.filter q l))%nat.
Proof.
  intros Hpq. induction l as [|x l IH]; simpl; [lia|].
  destruct (p x) eqn:Hp.
  - rewrite (Hpq x Hp). simpl. lia.
  - destruct (q x); simpl; lia.
Qed.

Lemma hits_on_le_countHits ship shots :
  (hits_on ship shots <= countHits ship shots)%nat.
Proof.
  rewrite countHits_filter. unfold hits_on.
  apply filter_length_le. apply shot_hits_rowColTest.
Qed.

Lemma hits_on_all_cells ship shots :
  distinct (coordinates ship) = true ->
  (forall c, In c (coordinates ship) -> In c shots) ->
  (length (coordinates ship) <= hits_on ship shots)%nat.
Proof.
  intros Hd Hall. apply distinct_NoDup in Hd. unfold hits_on.
  apply List.NoDup_incl_length; [exact Hd|].
  intros c Hc. apply filter_In. split; [auto|].
  apply existsb_coord_In. exact Hc.
Qed.

Lemma forEach_ships_bounded shots (ss : list Ship) :
  forall tot n,
    Res.forEach
      (fun totShipsDestroyed ship =>
         Res.bind (isShipDestroyed ship shots)
           (fun destroyed =>
              Ok (if destroyed then S totShipsDestroyed
                  else totShipsDestroyed)))
      ss tot = Ok n ->
    (tot <= n <= tot + length ss)%nat.
Proof.
  induction ss as [|s ss IH]; intros tot n; simpl.
  - intros [= <-]. lia.
  - destruct (isShipDestroyed s shots) as [[|]|e]; simpl.
    + intros H. apply IH in H. lia.
    + intros H. apply IH in H. lia.
    + discriminate.
Qed.
End ShipShapes.

(** X14. Under the grid invariants [isShipDestroyed] answers true exactly
    when every cell of the ship is among the shots received, and false
    exactly when some cell is not; a ship that is destroyed stays destroyed
    when further, distinct shots are recorded. *)
Theorem isShipDestroyed_iff_all_cells_shot (ship : Ship)
  (shots more : list GridCoordinates) :
  ship_invariant ship = true ->
  distinct (shots ++ more) = true ->
  (isShipDestroyed ship shots = Ok true
   <-> forall c, In c (coordinates ship) -> In c shots)
  /\ (isShipDestroyed ship shots = Ok false
      <-> ~ forall c, In c (coordinates ship) -> In c shots)
  /\ (isShipDestroyed ship shots = Ok true ->
      isShipDestroyed ship (shots ++ more) = Ok true).
Proof.
  intros Hship Hall.
  assert (Hshots : distinct shots = true).
  { apply distinct_NoDup. apply distinct_NoDup in Hall.
    apply (List.NoDup_app_remove_r _ _ Hall). }
  destruct (ship_invariant_parts _ Hship) as [_ Hd].
  rewrite (isShipDestroyed_ok _ _ Hship Hshots).
  rewrite (isShipDestroyed_ok _ _ Hship Hall).
  pose proof (destroyed_all_cells ship shots Hd Hshots) as Hiff.
  pose proof (destroyed_all_cells ship (shots ++ more) Hd Hall) as Hiff'.
  split; [|split].
  - rewrite <- Hiff.
    split; [intros [= ->]; reflexivity | intros ->; reflexivity].
  - rewrite <- Hiff. split.
    + intros [= ->]. discriminate.
    + intros Hn. destruct (destroyed ship shots); [contradiction|reflexivity].
  - intros [= Hdes]. f_equal. apply Hiff'. intros c Hc.
    apply in_or_app. left. apply (proj1 Hiff Hdes c Hc).
Qed.

Lemma isShipDestroyed_iff_all_cells_shot_witness :
  isShipDestroyed Scenario.frigate
    ([Scenario.cell 5 1; Scenario.cell 4 1] ++ [Scenario.cell 9 9])
  = Ok true.
Proof.
  apply (isShipDestroyed_iff_all_cells_shot Scenario.frigate
           [Scenario.cell 5 1; Scenario.cell 4 1] [Scenario.cell 9 9]);
    reflexivity.
Defined.

(** X15. Whatever the shape of the ship, the row-and-column test of
    [isShipDestroyed] counts every shot that lands on a cell of the ship,
    so a ship of distinct cells that have all been shot at is never
    reported as still afloat: the function answers true or raises the
    assertion. *)
Theorem isShipDestroyed_never_misses (ship : Ship)
  (shots : list GridCoordinates) :
  (hits_on ship shots <= countHits ship shots)%nat
  /\ (distinct (coordinates ship) = true ->
      (forall c, In c (coordinates ship) -> In c shots) ->
      isShipDestroyed ship shots = Ok true
      \/ isShipDestroyed ship shots = Throw (JsError hitsError)).
Proof.
  pose proof (hits_on_le_countHits ship shots) as Hle.
  split; [exact Hle|].
  intros Hd Hall.
  pose proof (hits_on_all_cells ship shots Hd Hall) as Hge.
  unfold isShipDestroyed.
  destruct (Nat.ltb_spec (length (coordinates ship)) (countHits ship shots))
    as [Hlt|Hnlt]; [right; reflexivity|].
  left. f_equal. apply Nat.eqb_eq. lia.
Qed.

Lemma isShipDestroyed_never_misses_witness :
  isShipDestroyed Scenario.dinghy Scenario.sameCellTwice = Ok true
  \/ isShipDestroyed Scenario.dinghy Scenario.sameCellTwice
     = Throw (JsError hitsError).
Proof.
  apply (isShipDestroyed_never_misses Scenario.dinghy Scenario.sameCellTwice).
  - reflexivity.
  - intros c [<-|[]]. left. reflexivity.
Defined.

(** X16. The test is too generous on a ship that is not on a line of the
    grid: for two cells in different rows and different columns, the two
    shots on the other corners of their rectangle hit neither cell, yet
    [isShipDestroyed] reports the two-cell ship destroyed. *)
Theorem isShipDestroyed_counts_other_corners (a b : GridCoordinates) :
  row a <> row b -> col a <> col b ->
  let ship := {| coordinates := [a; b] |} in
  let shots := [{| row := row a; col := col b |};
                {| row := row b; col := col a |}] in
  isShipDestroyed ship shots = Ok true
  /\ hits_on ship shots = 0%nat
  /\ distinct shots = true
  /\ distinct (coordinates ship) = true
  /\ collinear ship = false.
Proof.
  intros Hrow Hcol ship shots.
  assert (Hr : (row a =? row b) = false) by (apply Z.eqb_neq; exact Hrow).
  assert (Hc : (col a =? col b) = false) by (apply Z.eqb_neq; exact Hcol).
  assert (Hr' : (row b =? row a) = false) by (apply Z.eqb_neq; congruence).
  assert (Hc' : (col b =? col a) = false) by (apply Z.eqb_neq; congruence).
  unfold isShipDestroyed, countHits, shipRowsCols, hits_on, shot_hits,
    collinear, Js.includes, Js.push, coord_eqb, ship, shots.
  simpl.
  rewrite ?Z.eqb_refl, ?Hr, ?Hc, ?Hr', ?Hc'. simpl.
  unfold coord_eqb. simpl. rewrite Hr. simpl.
  repeat split; reflexivity.
Qed.

Lemma isShipDestroyed_counts_other_corners_witness :
  isShipDestroyed {| coordinates := [Scenario.cell 0 0; Scenario.cell 1 1] |}
    [Scenario.cell 0 1; Scenario.cell 1 0] = Ok true.
Proof.
  apply (isShipDestroyed_counts_other_corners
           (Scenario.cell 0 0) (Scenario.cell 1 1)); discriminate.
Defined.

(** X17. [getTotalShipsDestroyed] either raises the hits assertion, and
    nothing else, or returns a count that is at most the number of ships on
    the two grids. *)
Theorem getTotalShipsDestroyed_bounded (m : MatchDocument) :
  (forall n, getTotalShipsDestroyed m = Ok n ->
     (n <= length (ships (grid (player1 m)))
           + length (ships (grid (player2 m))))%nat)
  /\ (forall e, getTotalShipsDestroyed m = Throw e -> e = JsError hitsError).
Proof.
  split; [|intros e; apply getTotalShipsDestroyed_throws].
  intros n. unfold getTotalShipsDestroyed. simpl.
  destruct (Res.forEach _ (ships (grid (player1 m))) 0%nat) as [n1|e] eqn:H1;
    simpl; [|discriminate].
  destruct (Res.forEach _ (ships (grid (player2 m))) n1) as [n2|e] eqn:H2;
    simpl; [|discriminate].
  intros [= <-].
  apply forEach_ships_bounded in H1. apply forEach_ships_bounded in H2. lia.
Qed.

(** ** More on the match-terminated emitter *)

(** X18. When the winner and the match load, the grids satisfy their
    invariants and the update is persisted, [emit] logs nothing: it leaves
    the store as [updateMatchStats] left it, called once with the winner's
    id, the current time, the shots of both grids and the number of
    destroyed ships, and it broadcasts the event once. *)
Theorem emit_success_is_silent
  (getMatchById : string -> ST Db MatchDocument)
  (updateMatchStats : string -> MatchStatsUpdate.t -> ST Db unit)
  (self : MatchTerminatedEmitter) (payload : MatchTerminatedData)
  (w : World) (winner : UserDocument) (m : MatchDocument) (d1 d2 : Db) :
  fst (getUserByUsername (winnerUsername payload) (db w)) = Ok winner ->
  getMatchById (matchId self) (db w) = (Ok m, d1) ->
  grid_invariant (grid (player1 m)) = true ->
  grid_invariant (grid (player2 m)) = true ->
  updateMatchStats (matchId self)
    {| MatchStatsUpdate.winner := _id winner;
       MatchStatsUpdate.endTime := clock w;
       MatchStatsUpdate.totalShots := getTotalShotsFired m;
       MatchStatsUpdate.shipsDestroyed := destroyed_ships m |} d1
  = (Ok tt, d2) ->
  emit getMatchById updateMatchStats self payload w
  = (Ok tt,
     {| db := d2; console := console w;
        sent := sent w ++ [broadcastOf self payload];
        clock := clock w |}).
Proof.
  intros Hwinner Hm Hg1 Hg2 Hupd.
  pose proof (proj1 (getUserByUsername_run (winnerUsername payload) (db w)))
    as Hsame.
  assert (Hcount : getTotalShipsDestroyed m = Ok (destroyed_ships m)).
  { unfold grid_invariant in Hg1, Hg2.
    apply andb_true_iff in Hg1 as [Hs1 Hd1].
    apply andb_true_iff in Hg2 as [Hs2 Hd2].
    unfold getTotalShipsDestroyed, destroyed_ships, destroyed_in. simpl.
    rewrite (forEach_ships _ _ _ Hs1 Hd1). simpl.
    rewrite (forEach_ships _ _ _ Hs2 Hd2). reflexivity. }
  unfold emit, St.andThen, St.bind, St.tryCatch, updateStats, St.bind,
    St.ofResult, toUnixSecondsNow, RoomEmitter_emit, broadcastOf.
  rewrite liftDb_run, Hwinner, Hsame. simpl.
  rewrite liftDb_run. simpl. rewrite Hm. simpl. rewrite Hcount. simpl.
  rewrite liftDb_run. simpl. rewrite Hupd. reflexivity.
Qed.

Lemma emit_success_is_silent_witness :
  exists d2,
    MatchStore.terminate (newMatchTerminatedEmitter "m1") Scenario.aliceWon
      Scenario.world
    = (Ok tt,
       {| db := d2; console := [];
          sent := [{| toRoom := "m1"; event := "match-terminated";
                      data := Scenario.aliceWon |}];
          clock := 1000 |})
    /\ persistedStats "m1" d2
       = Some {| MatchStatsUpdate.winner := "u1";
                 MatchStatsUpdate.endTime := 1000;
                 MatchStatsUpdate.totalShots := 3;
                 MatchStatsUpdate.shipsDestroyed := 1 |}.
Proof.
  eexists. split.
  - apply (emit_success_is_silent
             MatchStore.getMatchById MatchStore.updateMatchStats
             (newMatchTerminatedEmitter "m1") Scenario.aliceWon
             Scenario.world (hydrate "u1" Scenario.alice) Scenario.matchD
             Scenario.store);
      vm_compute; reflexivity.
  - vm_compute. reflexivity.
Defined.

(** X19. When no user has the winner's name, or when counting the ships
    of the loaded match raises the hits assertion, [emit] never calls
    [updateMatchStats]: in the first case the match collection is not even
    read and the store is untouched, in the second the store is as
    [getMatchById] left it; the failure is logged and the event is
    broadcast all the same. *)
Theorem emit_failure_before_persisting
  (getMatchById : string -> ST Db MatchDocument)
  (updateMatchStats : string -> MatchStatsUpdate.t -> ST Db unit)
  (self : MatchTerminatedEmitter) (payload : MatchTerminatedData)
  (w : World) :
  ((forall id u, users (db w) !! id = Some u ->
                 Stored.username u <> winnerUsername payload) ->
   emit getMatchById updateMatchStats self payload w
   = (Ok tt,
      {| db := db w;
         console := console w ++ [failureLine noUserError];
         sent := sent w ++ [broadcastOf self payload];
         clock := clock w |}))
  /\ (forall winner m d1 e,
        fst (getUserByUsername (winnerUsername payload) (db w)) = Ok winner ->
        getMatchById (matchId self) (db w) = (Ok m, d1) ->
        getTotalShipsDestroyed m = Throw e ->
        emit getMatchById updateMatchStats self payload w
        = (Ok tt,
           {| db := d1;
              console := console w ++ [failureLine hitsError];
              sent := sent w ++ [broadcastOf self payload];
              clock := clock w |})).
Proof.
  pose proof (proj1 (getUserByUsername_run (winnerUsername payload) (db w)))
    as Hsame.
  split.
  - intros Hnone.
    assert (Hfail : fst (getUserByUsername (winnerUsername payload) (db w))
                    = Throw (JsError noUserError)).
    { unfold getUserByUsername.
      rewrite (proj2 (find_by_name_None (db w) (winnerUsername payload))
                 Hnone).
      reflexivity. }
    unfold emit, St.andThen, St.bind, St.tryCatch, updateStats, St.bind,
      RoomEmitter_emit, broadcastOf, consoleLog.
    rewrite liftDb_run, Hfail, Hsame. reflexivity.
  - intros winner m d1 e Hwinner Hm He.
    pose proof (getTotalShipsDestroyed_throws m e He) as ->.
    unfold emit, St.andThen, St.bind, St.tryCatch, updateStats, St.bind,
      St.ofResult, toUnixSecondsNow, RoomEmitter_emit, broadcastOf,
      consoleLog.
    rewrite liftDb_run, Hwinner, Hsame. simpl.
    rewrite liftDb_run. simpl. rewrite Hm. simpl. rewrite He. reflexivity.
Qed.

Lemma emit_failure_before_persisting_witness :
  MatchStore.terminate (newMatchTerminatedEmitter "m1") Scenario.strangerWon
    Scenario.world
  = (Ok tt,
     {| db := Scenario.store;
        console := [failureLine noUserError];
        sent := [{| toRoom := "m1"; event := "match-terminated";
                    data := Scenario.strangerWon |}];
        clock := 1000 |}).
Proof.
  apply (proj1 (emit_failure_before_persisting
                  MatchStore.getMatchById MatchStore.updateMatchStats
                  (newMatchTerminatedEmitter "m1") Scenario.strangerWon
                  Scenario.world)).
  intros id u Hu Hname.
  destruct (String.eqb_spec id "u1") as [->|H1].
  - vm_compute in Hu. injection Hu as <-. discriminate.
  - destruct (String.eqb_spec id "u2") as [->|H2].
    + vm_compute in Hu. injection Hu as <-. discriminate.
    + unfold Scenario.world, Scenario.store in Hu. simpl in Hu.
      rewrite !lookup_insert_ne, lookup_empty in Hu by congruence.
      discriminate.
Defined.

(** ** Arrays spliced while they are walked *)

Section SpliceMatching.
Context {A : Type}.
Variable test : A -> bool.
Implicit Types (xs cur : list A) (keys : list nat).

Lemma spliceMatching_fold xs :
  JsArray.spliceMatching test xs
  = fold_left (JsArray.spliceTurn test) (seq 0 (length xs)) xs.
Proof. reflexivity. Qed.

Lemma turns_stable keys cur :
  (forall k x, In k keys -> nth_error cur k = Some x -> test x = false) ->
  fold_left (JsArray.spliceTurn test) keys cur = cur.
Proof.
  induction keys as [|k keys IH]; simpl; intros Hno; [reflexivity|].
  assert (Hk : JsArray.spliceTurn test cur k = cur).
  { unfold JsArray.spliceTurn.
    destruct (nth_error cur k) as [x|] eqn:Hx; [|reflexivity].
    rewrite (Hno k x (or_introl eq_refl) Hx). reflexivity. }
  rewrite Hk. apply IH. intros k' x Hin. apply Hno. right. exact Hin.
Qed.

Lemma splice1_middle (l1 l2 : list A) x :
  JsArray.splice1 (l1 ++ x :: l2) (length l1) = l1 ++ l2.
Proof.
  induction l1 as [|a l1 IH]; [reflexivity|].
  unfold JsArray.splice1 in *. simpl. f_equal. exact IH.
Qed.

Lemma nth_error_splice1_before cur k i :
  (i < k)%nat -> nth_error (JsArray.splice1 cur k) i = nth_error cur i.
Proof.
  intros Hik. unfold JsArray.splice1.
  destruct (Nat.le_gt_cases (length cur) k) as [Hlen|Hlen].
  - rewrite firstn_all2 by exact Hlen.
    rewrite skipn_all2 by lia. rewrite app_nil_r. reflexivity.
  - rewrite nth_error_app1 by (rewrite length_firstn; lia).
    rewrite nth_error_firstn.
    destruct (Nat.ltb_spec i k); [reflexivity | lia].
Qed.

Lemma turns_keep_earlier keys : forall cur i,
  (forall k, In k keys -> (i < k)%nat) ->
  nth_error (fold_left (JsArray.spliceTurn test) keys cur) i = nth_error cur i.
Proof.
  induction keys as [|k keys IH]; simpl; intros cur i Hlate; [reflexivity|].
  rewrite IH by (intros k' Hk'; apply Hlate; right; exact Hk').
  unfold JsArray.spliceTurn.
  destruct (nth_error cur k) as [x|]; [|reflexivity].
  destruct (test x); [|reflexivity].
  apply nth_error_splice1_before. apply Hlate. left. reflexivity.
Qed.

Lemma seq_split_at (n m : nat) :
  seq 0 (n + S m) = seq 0 n ++ n :: seq (S n) m.
Proof. rewrite seq_app. reflexivity. Qed.

(** Up to the first match nothing changes; the match is spliced out. *)
Lemma turns_to_first_match (l1 l2 : list A) x :
  (forall y, In y l1 -> test y = false) -> test x = true ->
  fold_left (JsArray.spliceTurn test) (seq 0 (length l1) ++ [length l1])
    (l1 ++ x :: l2)
  = l1 ++ l2.
Proof.
  intros Hl1 Hx. rewrite fold_left_app. simpl.
  rewrite turns_stable.
  - unfold JsArray.spliceTurn. rewrite nth_error_app2 by lia.
    rewrite Nat.sub_diag. simpl.
    rewrite Hx. apply splice1_middle.
  - intros k y Hk Hy. apply in_seq in Hk.
    rewrite nth_error_app1 in Hy by lia.
    apply Hl1. apply (nth_error_In _ _ Hy).
Qed.

(** With at most one match, the loop removes exactly the match. *)
Lemma spliceMatching_single (l1 l2 : list A) x :
  (forall y, In y (l1 ++ l2) -> test y = false) -> test x = true ->
  JsArray.spliceMatching test (l1 ++ x :: l2) = l1 ++ l2.
Proof.
  intros Hrest Hx. rewrite spliceMatching_fold.
  rewrite length_app. simpl. rewrite seq_split_at.
  change (seq 0 (length l1) ++ length l1 :: seq (S (length l1)) (length l2))
    with (seq 0 (length l1) ++ [length l1] ++ seq (S (length l1)) (length l2)).
  rewrite app_assoc, fold_left_app.
  rewrite turns_to_first_match;
    [|intros y Hy; apply Hrest; apply in_or_app; auto | exact Hx].
  apply turns_stable. intros k y _ Hy. apply Hrest.
  apply (nth_error_In _ _ Hy).
Qed.

Lemma spliceMatching_none xs :
  (forall y, In y xs -> test y = false) ->
  JsArray.spliceMatching test xs = xs.
Proof.
  intros Hno. rewrite spliceMatching_fold. apply turns_stable.
  intros k y _ Hy. apply Hno. apply (nth_error_In _ _ Hy).
Qed.

(** Of two matches in a row, the second one survives the loop. *)
Lemma spliceMatching_adjacent (l1 l2 : list A) x x' :
  (forall y, In y l1 -> test y = false) -> test x = true ->
  nth_error (JsArray.spliceMatching test (l1 ++ x :: x' :: l2)) (length l1)
  = Some x'.
Proof.
  intros Hl1 Hx. rewrite spliceMatching_fold.
  rewrite length_app. simpl. rewrite seq_split_at.
  change (seq 0 (length l1)
          ++ length l1 :: seq (S (length l1)) (S (length l2)))
    with (seq 0 (length l1) ++ [length l1]
          ++ seq (S (length l1)) (S (length l2))).
  rewrite app_assoc, fold_left_app.
  rewrite (turns_to_first_match l1 (x' :: l2) x Hl1 Hx).
  rewrite turns_keep_earlier.
  - rewrite nth_error_app2 by lia. rewrite Nat.sub_diag. reflexivity.
  - intros k Hk. apply in_seq in Hk. lia.
Qed.
End SpliceMatching.

(** ** Roles *)

Section Roles.
Import Social.
Implicit Types (this : UserDocument) (role other : UserRoles) (s : Store).

Lemma roleValue_inj role other :
  roleValue role = roleValue other -> role = other.
Proof.
  destruct role, other; simpl; intros H; (reflexivity || discriminate).
Qed.

Lemma hasRole_In this role :
  hasRole this role = true <-> In (roleValue role) (roles (fields this)).
Proof.
  unfold hasRole. rewrite existsb_exists. split.
  - intros (r & Hr & Heq). apply String.eqb_eq in Heq. subst. exact Hr.
  - intros H. exists (roleValue role). split; [exact H|].
    apply String.eqb_refl.
Qed.

Lemma hasRole_withRoles this rs role :
  hasRole (withRoles this rs) role
  = existsb (fun r => String.eqb r (roleValue role)) rs.
Proof. reflexivity. Qed.

(** On roles held once each, the loop of [removeRole] is a filter. *)
Lemma removeRole_loop_filter (name : string) (rs : list string) :
  List.NoDup rs ->
  JsArray.spliceMatching (fun r => String.eqb r name) rs
  = List.filter (fun r => negb (String.eqb r name)) rs.
Proof.
  intros Hnd.
  assert (Hkeep : forall l, ~ In name l ->
            List.filter (fun r => negb (String.eqb r name)) l = l).
  { induction l as [|a l IH]; simpl; intros Hno; [reflexivity|].
    destruct (String.eqb_spec a name) as [->|Hne]; simpl.
    - exfalso. apply Hno. left. reflexivity.
    - f_equal. apply IH. tauto. }
  assert (Hfalse : forall l, ~ In name l ->
            forall y, In y l -> String.eqb y name = false).
  { intros l Hno y Hy. apply String.eqb_neq. intros ->. contradiction. }
  destruct (in_dec String.string_dec name rs) as [Hin|Hno].
  - apply in_split in Hin as (l1 & l2 & ->).
    apply List.NoDup_remove_2 in Hnd.
    rewrite spliceMatching_single;
      [|apply Hfalse; exact Hnd | apply String.eqb_refl].
    rewrite List.filter_app. simpl. rewrite String.eqb_refl. simpl.
    rewrite !Hkeep; [reflexivity | |];
      intros H; apply Hnd; apply in_or_app; auto.
  - rewrite spliceMatching_none by (apply Hfalse; exact Hno).
    symmetry. apply Hkeep. exact Hno.
Qed.
End Roles.

(** X20. [setRole] on a role that the user does not hold appends it to the
    roles and saves the document: the user then has the role, keeps every
    role it had, and roles held once each are still held once each.  On a
    role that the user holds it rejects with 'Role already set' and
    neither the document nor the store changes. *)
Theorem setRole_adds_once (this : Social.UserDocument)
  (role : Social.UserRoles) (s : Social.Store) :
  (Social.hasRole this role = false ->
   let this' :=
     Social.withRoles this
       (Social.roles (Social.fields this) ++ [Social.roleValue role]) in
   Social.setRole this role s
   = (Ok this',
      {| Social.Users :=
           <[Social._id this := Social.fields this']> (Social.Users s);
         Social.Chats := Social.Chats s |})
   /\ Social.hasRole this' role = true
   /\ (forall other, Social.hasRole this other = true ->
                     Social.hasRole this' other = true)
   /\ (List.NoDup (Social.roles (Social.fields this)) ->
       List.NoDup (Social.roles (Social.fields this')))
   /\ forall s', Social.setRole this' role s'
                 = (Throw (JsError "Role already set"), s'))
  /\ (Social.hasRole this role = true ->
      Social.setRole this role s = (Throw (JsError "Role already set"), s)).
Proof.
  split.
  - intros Hno this'.
    assert (Hhas : Social.hasRole this' role = true).
    { apply hasRole_In. simpl. apply in_or_app. right. left. reflexivity. }
    split; [|split; [|split; [|split]]].
    + unfold Social.setRole. rewrite Hno. reflexivity.
    + exact Hhas.
    + intros other Hother. apply hasRole_In. apply hasRole_In in Hother.
      simpl. apply in_or_app. left. exact Hother.
    + intros Hnd. simpl.
      apply List.NoDup_app.
      * exact Hnd.
      * constructor; [intros []|constructor].
      * intros r Hr [<-|[]].
        apply hasRole_In in Hr. congruence.
    + intros s'. unfold Social.setRole. rewrite Hhas. reflexivity.
  - intros Hhas. unfold Social.setRole. rewrite Hhas. reflexivity.
Qed.

Lemma setRole_adds_once_witness :
  Social.setRole SocialSamples.carolDoc Social.Admin SocialSamples.store
  = (Ok (Social.withRoles SocialSamples.carolDoc ["Base"; "Admin"]),
     {| Social.Users :=
          <["s1" := Social.fields
                      (Social.withRoles SocialSamples.carolDoc
                         ["Base"; "Admin"])]>
            (Social.Users SocialSamples.store);
        Social.Chats := Social.Chats SocialSamples.store |})
  /\ Social.setRole SocialSamples.carolDoc Social.Base SocialSamples.store
     = (Throw (JsError "Role already set"), SocialSamples.store).
Proof.
  split.
  - apply (proj1 (setRole_adds_once SocialSamples.carolDoc Social.Admin
                    SocialSamples.store)).
    reflexivity.
  - apply (proj2 (setRole_adds_once SocialSamples.carolDoc Social.Base
                    SocialSamples.store)).
    reflexivity.
Defined.

(** X21. [removeRole] never rejects.  When the user's roles are held once
    each, it saves the roles without the given one, in their order: the
    user no longer has that role and has every other role exactly if it
    had it before; removing a role that [setRole] has just added gives
    back the roles the user started with. *)
Theorem removeRole_removes (this : Social.UserDocument)
  (role : Social.UserRoles) (s : Social.Store) :
  List.NoDup (Social.roles (Social.fields this)) ->
  let rs' :=
    List.filter (fun r => negb (String.eqb r (Social.roleValue role)))
      (Social.roles (Social.fields this)) in
  Social.removeRole this role s
  = (Ok (Social.withRoles this rs'),
     {| Social.Users :=
          <[Social._id this := Social.fields (Social.withRoles this rs')]>
            (Social.Users s);
        Social.Chats := Social.Chats s |})
  /\ Social.hasRole (Social.withRoles this rs') role = false
  /\ (forall other, other <> role ->
        Social.hasRole (Social.withRoles this rs') other
        = Social.hasRole this other)
  /\ (Social.hasRole this role = false ->
      fst (Social.removeRole
             (Social.withRoles this
                (Social.roles (Social.fields this)
                 ++ [Social.roleValue role]))
             role s)
      = Ok this).
Proof.
  intros Hnd rs'.
  split; [|split; [|split]].
  - unfold Social.removeRole. rewrite (removeRole_loop_filter _ _ Hnd).
    reflexivity.
  - apply not_true_is_false. intros Hhas. apply hasRole_In in Hhas.
    simpl in Hhas. apply filter_In in Hhas as [_ Hne].
    rewrite String.eqb_refl in Hne. discriminate.
  - intros other Hne. apply eq_true_iff_eq.
    rewrite !hasRole_In. simpl. unfold rs'. rewrite filter_In.
    split; [tauto|]. intros Hin. split; [exact Hin|].
    apply negb_true_iff, String.eqb_neq. intros Heq.
    apply roleValue_inj in Heq. contradiction.
  - intros Hno. unfold Social.removeRole. simpl.
    rewrite (spliceMatching_single _ (Social.roles (Social.fields this)) []).
    + rewrite app_nil_r. destruct this as [id [rs ns rels]]. reflexivity.
    + intros y Hy. rewrite app_nil_r in Hy.
      apply String.eqb_neq. intros ->.
      assert (Hhas : Social.hasRole this role = true)
        by (apply hasRole_In; exact Hy).
      congruence.
    + apply String.eqb_refl.
Qed.

Lemma removeRole_removes_witness :
  Social.removeRole SocialSamples.daveDoc Social.Base SocialSamples.store
  = (Ok (Social.withRoles SocialSamples.daveDoc ["Moderator"]),
     {| Social.Users :=
          <["s2" := Social.fields
                      (Social.withRoles SocialSamples.daveDoc ["Moderator"])]>
            (Social.Users SocialSamples.store);
        Social.Chats := Social.Chats SocialSamples.store |}).
Proof.
  apply (removeRole_removes SocialSamples.daveDoc Social.Base
           SocialSamples.store).
  repeat (apply List.NoDup_cons; [simpl; intuition discriminate|]).
  apply List.NoDup_nil.
Defined.

(** X22. When a role is held twice in a row, [removeRole] removes the
    first of the two only, because the loop splices the array it is
    walking: the user still has the role afterwards. *)
Theorem removeRole_leaves_second_copy (this : Social.UserDocument)
  (role : Social.UserRoles) (s : Social.Store)
  (before after : list string) :
  Social.roles (Social.fields this)
  = before ++ Social.roleValue role :: Social.roleValue role :: after ->
  ~ In (Social.roleValue role) before ->
  exists this',
    fst (Social.removeRole this role s) = Ok this'
    /\ Social.hasRole this' role = true
    /\ nth_error (Social.roles (Social.fields this')) (length before)
       = Some (Social.roleValue role).
Proof.
  intros Hroles Hbefore. unfold Social.removeRole. rewrite Hroles.
  eexists. split; [reflexivity|].
  assert (Hnth : nth_error
            (JsArray.spliceMatching
               (fun r => String.eqb r (Social.roleValue role))
               (before ++ Social.roleValue role
                       :: Social.roleValue role :: after))
            (length before) = Some (Social.roleValue role)).
  { apply spliceMatching_adjacent.
    - intros y Hy. apply String.eqb_neq. intros ->. contradiction.
    - apply String.eqb_refl. }
  split; [|exact Hnth].
  apply hasRole_In. simpl. apply (nth_error_In _ _ Hnth).
Qed.

Lemma removeRole_leaves_second_copy_witness :
  exists this',
    fst (Social.removeRole
           (Social.withRoles SocialSamples.carolDoc ["Base"; "Admin"; "Admin"])
           Social.Admin SocialSamples.store) = Ok this'
    /\ Social.hasRole this' Social.Admin = true
    /\ nth_error (Social.roles (Social.fields this')) 1
       = Some "Admin"%string.
Proof.
  apply (removeRole_leaves_second_copy
           (Social.withRoles SocialSamples.carolDoc ["Base"; "Admin"; "Admin"])
           Social.Admin SocialSamples.store ["Base"%string] []).
  - reflexivity.
  - simpl. intuition discriminate.
Defined.

(** ** Notifications *)

Section FindIndex.
Context {A : Type}.
Variable p : A -> bool.
Implicit Types (xs : list A).

Lemma findIndex_None xs :
  JsArray.findIndex p xs = None <-> (forall y, In y xs -> p y = false).
Proof.
  induction xs as [|x xs IH]; simpl.
  - split; [intros _ y [] | reflexivity].
  - destruct (p x) eqn:Hx.
    + split; [discriminate|]. intros H. specialize (H x (or_introl eq_refl)).
      congruence.
    + destruct (JsArray.findIndex p xs) as [i|]; simpl.
      * split; [discriminate|]. intros H. exfalso.
        assert (Hbad : Some i = None); [|discriminate].
        apply (proj2 IH). intros y Hy. apply H. right. exact Hy.
      * split; [|reflexivity]. intros _ y [<-|Hy]; [exact Hx|].
        apply (proj1 IH eq_refl y Hy).
Qed.

(** The first match is found past any prefix without a match, and
    splicing it out leaves the elements around it. *)
Lemma findIndex_first (l1 l2 : list A) x :
  (forall y, In y l1 -> p y = false) -> p x = true ->
  JsArray.findIndex p (l1 ++ x :: l2) = Some (length l1)
  /\ JsArray.splice1 (l1 ++ x :: l2) (length l1) = l1 ++ l2.
Proof.
  intros Hl1 Hx. split; [|apply splice1_middle].
  induction l1 as [|a l1 IH]; simpl.
  - rewrite Hx. reflexivity.
  - rewrite (Hl1 a (or_introl eq_refl)).
    rewrite IH by (intros y Hy; apply Hl1; right; exact Hy). reflexivity.
Qed.
End FindIndex.

Section Notifications.
Import Social.
Implicit Types (this : UserDocument) (n : RequestNotification).

Lemma sameNotification_eq reqType from n :
  sameNotification reqType from n = true
  <-> n = {| type := reqType; sender := from |}.
Proof.
  unfold sameNotification. rewrite andb_true_iff, !String.eqb_eq.
  destruct n as [t snd]. simpl. split.
  - intros [Ht ->]. f_equal. destruct t, reqType; simpl in Ht;
      (reflexivity || discriminate).
  - intros [= -> ->]. auto.
Qed.

Lemma sameNotification_absent reqType from (ns : list RequestNotification) :
  ~ In {| type := reqType; sender := from |} ns ->
  forall y, In y ns -> sameNotification reqType from y = false.
Proof.
  intros Hno y Hy. apply not_true_is_false. intros Hsame.
  apply sameNotification_eq in Hsame. subst. contradiction.
Qed.

Lemma withNotifications_same this :
  withNotifications this (notifications (fields this)) = this.
Proof. destruct this as [id [rs ns rels]]. reflexivity. Qed.
End Notifications.

(** X23. [addNotification] appends the notification and saves the document
    when the user has no notification of that type from that sender;
    notifications that were pairwise distinct stay pairwise distinct.  When
    the user has one already, it rejects with 'Notification already sent'
    and changes nothing; so adding the same notification a second time
    always rejects. *)
Theorem addNotification_once (this : Social.UserDocument)
  (reqType : Social.RequestTypes) (from : string) (s : Social.Store) :
  let n := {| Social.type := reqType; Social.sender := from |} in
  let ns := Social.notifications (Social.fields this) in
  (~ In n ns ->
   let this' := Social.withNotifications this (ns ++ [n]) in
   Social.addNotification this reqType from s
   = (Ok this',
      {| Social.Users :=
           <[Social._id this := Social.fields this']> (Social.Users s);
         Social.Chats := Social.Chats s |})
   /\ (List.NoDup ns -> List.NoDup (ns ++ [n]))
   /\ forall s', Social.addNotification this' reqType from s'
                 = (Throw (JsError "Notification already sent"), s'))
  /\ (In n ns ->
      Social.addNotification this reqType from s
      = (Throw (JsError "Notification already sent"), s)).
Proof.
  intros n ns.
  assert (Hpresent : forall doc s0,
            In n (Social.notifications (Social.fields doc)) ->
            Social.addNotification doc reqType from s0
            = (Throw (JsError "Notification already sent"), s0)).
  { intros doc s0 Hin. unfold Social.addNotification.
    assert (Hex : existsb (Social.sameNotification reqType from)
                    (Social.notifications (Social.fields doc)) = true).
    { apply existsb_exists. exists n. split; [exact Hin|].
      apply sameNotification_eq. reflexivity. }
    rewrite Hex. reflexivity. }
  split; [|apply Hpresent].
  intros Hno this'. split; [|split].
  - unfold Social.addNotification.
    assert (Hex : existsb (Social.sameNotification reqType from) ns = false).
    { apply not_true_is_false. intros Hex.
      apply existsb_exists in Hex as (y & Hy & Hsame).
      rewrite (sameNotification_absent _ _ _ Hno y Hy) in Hsame.
      discriminate. }
    fold ns. rewrite Hex. reflexivity.
  - intros Hnd. apply List.NoDup_app; [exact Hnd | |].
    + constructor; [intros [] | constructor].
    + intros y Hy [<-|[]]. contradiction.
  - intros s'. apply Hpresent. simpl. apply in_or_app. right. left.
    reflexivity.
Qed.

Lemma addNotification_once_witness :
  Social.addNotification SocialSamples.daveDoc Social.FriendRequest "s1"
    SocialSamples.store
  = (Ok (Social.withNotifications SocialSamples.daveDoc
           [{| Social.type := Social.MatchRequest; Social.sender := "s1" |};
            {| Social.type := Social.FriendRequest; Social.sender := "s1" |}]),
     {| Social.Users :=
          <["s2" :=
              Social.fields
                (Social.withNotifications SocialSamples.daveDoc
                   [{| Social.type := Social.MatchRequest;
                       Social.sender := "s1" |};
                    {| Social.type := Social.FriendRequest;
                       Social.sender := "s1" |}])]>
            (Social.Users SocialSamples.store);
        Social.Chats := Social.Chats SocialSamples.store |})
  /\ Social.addNotification SocialSamples.daveDoc Social.MatchRequest "s1"
       SocialSamples.store
     = (Throw (JsError "Notification already sent"), SocialSamples.store).
Proof.
  split.
  - apply (proj1 (addNotification_once SocialSamples.daveDoc
                    Social.FriendRequest "s1" SocialSamples.store)).
    simpl. intuition discriminate.
  - apply (proj2 (addNotification_once SocialSamples.daveDoc
                    Social.MatchRequest "s1" SocialSamples.store)).
    simpl. left. reflexivity.
Defined.

(** X24. [removeNotification] rejects with 'Notification not found', and
    changes nothing, when the user has no notification of that type from
    that sender; otherwise it removes the first such notification, keeps
    all the others in their order and saves the document.  Removing a
    notification that [addNotification] has just added gives back the
    document as it was. *)
Theorem removeNotification_first (this : Social.UserDocument)
  (reqType : Social.RequestTypes) (from : string) (s : Social.Store) :
  let n := {| Social.type := reqType; Social.sender := from |} in
  let ns := Social.notifications (Social.fields this) in
  (~ In n ns ->
   Social.removeNotification this reqType from s
   = (Throw (JsError "Notification not found"), s)
   /\ fst (Social.removeNotification
             (Social.withNotifications this (ns ++ [n])) reqType from s)
      = Ok this)
  /\ (forall before after,
        ns = before ++ n :: after -> ~ In n before ->
        let this' := Social.withNotifications this (before ++ after) in
        Social.removeNotification this reqType from s
        = (Ok this',
           {| Social.Users :=
                <[Social._id this := Social.fields this']> (Social.Users s);
              Social.Chats := Social.Chats s |})).
Proof.
  intros n ns. split.
  - intros Hno. split.
    + unfold Social.removeNotification. fold ns.
      rewrite (proj2 (findIndex_None _ ns)
                 (sameNotification_absent _ _ _ Hno)).
      reflexivity.
    + unfold Social.removeNotification. simpl. fold ns.
      destruct (findIndex_first (Social.sameNotification reqType from)
                  ns [] n (sameNotification_absent _ _ _ Hno))
        as [Hidx Hsplice]; [apply sameNotification_eq; reflexivity|].
      fold n. rewrite Hidx. simpl. rewrite Hsplice, app_nil_r.
      destruct this as [id [rs ns0 rels]]. reflexivity.
  - intros before after Hns Hbefore this'.
    unfold Social.removeNotification. fold ns. rewrite Hns.
    destruct (findIndex_first (Social.sameNotification reqType from)
                before after n (sameNotification_absent _ _ _ Hbefore))
      as [Hidx Hsplice]; [apply sameNotification_eq; reflexivity|].
    rewrite Hidx, Hsplice. reflexivity.
Qed.

Lemma removeNotification_first_witness :
  Social.removeNotification SocialSamples.carolDoc Social.MatchRequest "s2"
    SocialSamples.store
  = (Throw (JsError "Notification not found"), SocialSamples.store)
  /\ fst (Social.removeNotification SocialSamples.daveDoc
            Social.MatchRequest "s1" SocialSamples.store)
     = Ok (Social.withNotifications SocialSamples.daveDoc []).
Proof.
  split.
  - apply (proj1 (removeNotification_first SocialSamples.carolDoc
                    Social.MatchRequest "s2" SocialSamples.store)).
    intros [].
  - rewrite (proj2 (removeNotification_first SocialSamples.daveDoc
                      Social.MatchRequest "s1" SocialSamples.store)
               [] [] eq_refl (fun H => H)).
    reflexivity.
Defined.

(** ** Chats *)

(** X25. [addUser] appends an id that the chat does not have and saves the
    chat; it rejects, with a message that names the id, when the chat has
    it already.  [removeUser] rejects with 'No user with that identifier'
    when the chat does not have the id, and removing a user that [addUser]
    has just added gives back the chat as it was. *)
Theorem chat_addUser_removeUser (this : Chats.ChatDocument)
  (userId : string) (s : Social.Store) :
  let users := Chats.users (Chats.chat this) in
  (~ In userId users ->
   let this' :=
     {| Chats._id := Chats._id this;
        Chats.chat :=
          {| Chats.users := users ++ [userId];
             Chats.messages := Chats.messages (Chats.chat this) |} |} in
   Social.addUser this userId s
   = (Ok this',
      {| Social.Users := Social.Users s;
         Social.Chats :=
           <[Chats._id this := Chats.chat this']> (Social.Chats s) |})
   /\ fst (Social.removeUser this' userId s) = Ok this
   /\ Social.removeUser this userId s = (Throw (JsError noUserError), s))
  /\ (In userId users ->
      Social.addUser this userId s
      = (Throw (JsError ("this id is already in the array: " ++ userId)), s)).
Proof.
  intros users. split.
  - intros Hno this'.
    assert (Hfalse : forall y, In y users -> String.eqb y userId = false).
    { intros y Hy. apply String.eqb_neq. intros ->. contradiction. }
    split; [|split].
    + unfold Social.addUser. fold users.
      assert (Hex : existsb (String.eqb userId) users = false).
      { apply not_true_is_false. intros Hex.
        apply existsb_eqb_In in Hex. contradiction. }
      rewrite Hex. reflexivity.
    + unfold Social.removeUser. simpl.
      destruct (findIndex_first (fun u => String.eqb u userId)
                  users [] userId Hfalse (String.eqb_refl _))
        as [Hidx Hsplice].
      rewrite Hidx. simpl. rewrite Hsplice, app_nil_r.
      destruct this as [id [us ms]]. reflexivity.
    + unfold Social.removeUser. fold users.
      rewrite (proj2 (findIndex_None _ users) Hfalse). reflexivity.
  - intros Hin. unfold Social.addUser. fold users.
    rewrite (proj2 (existsb_eqb_In userId users) Hin). reflexivity.
Qed.

Lemma chat_addUser_removeUser_witness :
  Social.addUser SocialSamples.lobby "s2" SocialSamples.store
  = (Ok {| Chats._id := "c1";
           Chats.chat := {| Chats.users := ["s1"; "s2"];
                            Chats.messages := [] |} |},
     {| Social.Users := Social.Users SocialSamples.store;
        Social.Chats :=
          <["c1" := {| Chats.users := ["s1"; "s2"];
                       Chats.messages := [] |}]>
            (Social.Chats SocialSamples.store) |})
  /\ Social.addUser SocialSamples.lobby "s1" SocialSamples.store
     = (Throw (JsError "this id is already in the array: s1"),
        SocialSamples.store).
Proof.
  split.
  - apply (proj1 (chat_addUser_removeUser SocialSamples.lobby "s2"
                    SocialSamples.store)).
    simpl. intuition discriminate.
  - apply (proj2 (chat_addUser_removeUser SocialSamples.lobby "s1"
                    SocialSamples.store)).
    simpl. left. reflexivity.
Defined.

(** X26. [getChatById] finds a chat that [createChat] has just made, with
    the given users and no message; it finds a chat after [addMessage] with
    the new message last and the users unchanged; after [deleteChat] it
    rejects with 'No chat with that identifier'.  [deleteChat] never
    rejects, and on a chat that does not exist it changes nothing. *)
Theorem chat_store_round_trips (s : Social.Store) (id : string)
  (users : list string) (this : Chats.ChatDocument)
  (content : string) (timestamp : Z) (author : string) :
  let created := snd (Social.createChat id users s) in
  let deleted := snd (Social.deleteChat id s) in
  let posted := snd (Social.addMessage this content timestamp author s) in
  Social.getChatById id created
  = (Ok {| Chats._id := id;
           Chats.chat := {| Chats.users := users; Chats.messages := [] |} |},
     created)
  /\ Social.getChatById (Chats._id this) posted
     = (Ok {| Chats._id := Chats._id this;
              Chats.chat :=
                {| Chats.users := Chats.users (Chats.chat this);
                   Chats.messages :=
                     Chats.messages (Chats.chat this)
                     ++ [{| Chats.content := content;
                            Chats.timestamp := timestamp;
                            Chats.author := author |}] |} |},
        posted)
  /\ fst (Social.deleteChat id s) = Ok tt
  /\ Social.getChatById id deleted
     = (Throw (JsError "No chat with that identifier"), deleted)
  /\ (Social.Chats s !! id = None -> deleted = s).
Proof.
  intros created deleted posted.
  unfold created, deleted, posted, Social.getChatById, Social.createChat,
    Social.deleteChat, Social.deleteOneChat, Social.addMessage,
    Social.saveChat.
  simpl. rewrite !lookup_insert_eq, lookup_delete_eq.
  repeat split.
  intros Hnone. rewrite (delete_id _ _ Hnone). destruct s. reflexivity.
Qed.

Lemma chat_store_round_trips_witness :
  snd (Social.deleteChat "c9" SocialSamples.store) = SocialSamples.store.
Proof.
  apply (chat_store_round_trips SocialSamples.store "c9" []
           SocialSamples.lobby "hello" 0 "s1").
  vm_compute. reflexivity.
Defined.

(** ** Relationships *)

Section RemoveLoop.
Import Social.
Variable onMatch : Relationship -> ST Store unit.
Variable friend : string.
Implicit Types (acc : ST Store (list Relationship * bool)).
Implicit Types (cur rels : list Relationship) (keys : list nat).

(** Turns that meet no relationship with [friend] change nothing. *)
Lemma removeTurns_no_match keys : forall acc s cur found s1,
  acc s = (Ok (cur, found), s1) ->
  (forall k r, In k keys -> nth_error cur k = Some r ->
               isRelationshipWith friend r = false) ->
  fold_left (removeTurn onMatch friend) keys acc s = (Ok (cur, found), s1).
Proof.
  induction keys as [|k keys IH]; simpl; intros acc s cur found s1 Hacc Hno;
    [exact Hacc|].
  apply IH.
  - unfold removeTurn, St.bind. rewrite Hacc. simpl.
    destruct (nth_error cur k) as [r|] eqn:Hr; [|reflexivity].
    rewrite (Hno k r (or_introl eq_refl) Hr). reflexivity.
  - intros k' r Hk'. apply Hno. right. exact Hk'.
Qed.

(** Once a turn has thrown, the loop is over. *)
Lemma removeTurns_thrown keys : forall acc s e s1,
  acc s = (Throw e, s1) ->
  fold_left (removeTurn onMatch friend) keys acc s = (Throw e, s1).
Proof.
  induction keys as [|k keys IH]; simpl; intros acc s e s1 Hacc;
    [exact Hacc|].
  apply IH. unfold removeTurn, St.bind. rewrite Hacc. reflexivity.
Qed.

Lemma no_match_in rels :
  (forall r, In r rels -> isRelationshipWith friend r = false) ->
  forall keys k r, In k keys -> nth_error rels k = Some r ->
                   isRelationshipWith friend r = false.
Proof. intros Hno keys k r _ Hr. apply Hno. apply (nth_error_In _ _ Hr). Qed.

Lemma removeLoop_none rels s :
  (forall r, In r rels -> isRelationshipWith friend r = false) ->
  removeLoop onMatch friend rels s = (Ok (rels, false), s).
Proof.
  intros Hno. unfold removeLoop.
  apply removeTurns_no_match; [reflexivity|].
  apply no_match_in. exact Hno.
Qed.

(** The loop on an array with one relationship with [friend]: [onMatch]
    runs once, on that relationship, in the store of the call. *)
Lemma removeLoop_single (before after : list Relationship) r s :
  (forall y, In y (before ++ after) -> isRelationshipWith friend y = false) ->
  isRelationshipWith friend r = true ->
  removeLoop onMatch friend (before ++ r :: after) s
  = match onMatch r s with
    | (Ok _, s1) => (Ok (before ++ after, true), s1)
    | (Throw e, s1) => (Throw e, s1)
    end.
Proof.
  intros Hrest Hr. unfold removeLoop.
  rewrite length_app. simpl. rewrite seq_split_at.
  change (seq 0 (length before)
          ++ length before :: seq (S (length before)) (length after))
    with (seq 0 (length before) ++ [length before]
          ++ seq (S (length before)) (length after)).
  rewrite !fold_left_app. simpl.
  set (start := fold_left (removeTurn onMatch friend)
                  (seq 0 (length before))
                  (St.ret (before ++ r :: after, false))).
  assert (Hstart : start s = (Ok (before ++ r :: after, false), s)).
  { apply removeTurns_no_match; [reflexivity|].
    intros k y Hk Hy. apply in_seq in Hk.
    rewrite nth_error_app1 in Hy by lia.
    apply Hrest. apply in_or_app. left. apply (nth_error_In _ _ Hy). }
  assert (Hturn : removeTurn onMatch friend start (length before) s
                  = match onMatch r s with
                    | (Ok _, s1) => (Ok (before ++ after, true), s1)
                    | (Throw e, s1) => (Throw e, s1)
                    end).
  { unfold removeTurn, St.bind. rewrite Hstart. simpl.
    rewrite nth_error_app2 by lia. rewrite Nat.sub_diag. simpl.
    rewrite Hr. rewrite splice1_middle.
    destruct (onMatch r s) as [[[]|e] s1]; reflexivity. }
  destruct (onMatch r s) as [[[]|e] s1] eqn:Hrun.
  - apply removeTurns_no_match; [exact Hturn|].
    apply no_match_in. exact Hrest.
  - apply removeTurns_thrown. exact Hturn.
Qed.
End RemoveLoop.

Section Relationships.
Import Social.
Implicit Types (this : UserDocument) (friend : string) (s : Store).

Lemma isRelationshipWith_absent friend (rels : list Relationship) :
  existsb (isRelationshipWith friend) rels = false ->
  forall r, In r rels -> isRelationshipWith friend r = false.
Proof.
  intros Hex r Hr. apply not_true_is_false. intros Hm.
  assert (Htrue : existsb (isRelationshipWith friend) rels = true)
    by (apply existsb_exists; eauto).
  congruence.
Qed.

Lemma withRelationships_same this :
  withRelationships this (relationships (fields this)) = this.
Proof. destruct this as [id [rs ns rels]]. reflexivity. Qed.

Lemma withRelationships_undo this (rels : list Relationship) :
  withRelationships (withRelationships this rels)
    (relationships (fields this)) = this.
Proof. destruct this as [id [rs ns rels0]]. reflexivity. Qed.

Lemma User_eta (u : User) :
  {| roles := roles u; notifications := notifications u;
     relationships := relationships u |} = u.
Proof. destruct u. reflexivity. Qed.

(** [removeRelationship(friend, true)] on a document whose only
    relationship with [friend] is [r]. *)
Lemma removeRelationshipOneSide_single this friend s
  (before after : list Relationship) r :
  relationships (fields this) = before ++ r :: after ->
  (forall y, In y (before ++ after) -> isRelationshipWith friend y = false) ->
  isRelationshipWith friend r = true ->
  removeRelationshipOneSide this friend s
  = (Ok (withRelationships this (before ++ after)),
     {| Users := <[_id this := fields (withRelationships this
                                         (before ++ after))]> (Users s);
        Chats := Chats s |}).
Proof.
  intros Hrels Hrest Hr.
  unfold removeRelationshipOneSide, removeRelationshipWith, St.bind.
  rewrite Hrels, (removeLoop_single _ _ _ _ _ _ Hrest Hr). reflexivity.
Qed.

Lemma removeRelationshipOneSide_none this friend s :
  existsb (isRelationshipWith friend) (relationships (fields this)) = false ->
  removeRelationshipOneSide this friend s
  = (Throw (JsError "Relationship not found"), s).
Proof.
  intros Hex.
  unfold removeRelationshipOneSide, removeRelationshipWith, St.bind.
  rewrite (removeLoop_none _ _ _ _ (isRelationshipWith_absent _ _ Hex)).
  reflexivity.
Qed.
End Relationships.

Section Friendship.
Import Social.
Implicit Types (this : UserDocument) (friend : string) (s : Store).

(** The run of [addRelationshipSymmetrically] when the friend is stored
    and is not yet a friend. *)
Lemma addRelationshipSymmetrically_run (newChatId : string) this friend s
  (f : User) :
  existsb (isRelationshipWith friend) (relationships (fields this)) = false ->
  Users s !! friend = Some f ->
  addRelationshipSymmetrically newChatId this friend s
  = (Ok (withRelationships this
           (relationships (fields this)
            ++ [{| friendId := friend; chatId := newChatId |}])),
     {| Users :=
          <[_id this :=
              fields (withRelationships this
                        (relationships (fields this)
                         ++ [{| friendId := friend; chatId := newChatId |}]))]>
            (<[friend :=
                 fields (withRelationships {| _id := friend; fields := f |}
                           (relationships f
                            ++ [{| friendId := _id this;
                                   chatId := newChatId |}]))]>
               (Users s));
        Chats :=
          <[newChatId := {| Chats.users := [_id this; friend];
                            Chats.messages := [] |}]> (Chats s) |}).
Proof.
  intros Hex Hf.
  unfold addRelationshipSymmetrically. rewrite Hex.
  unfold St.tryCatch, St.bind, createChat, getUserById, save. simpl.
  rewrite Hf. reflexivity.
Qed.
End Friendship.

(** X27. [addRelationshipSymmetrically] between a user and a stored user
    who is not yet a friend creates one chat for the two and adds the
    relationship on both sides: the user gets a relationship with the
    friend, the friend one with the user, both name the new chat, whose
    users are the two of them; no other user and no other chat changes. *)
Theorem addRelationshipSymmetrically_both_sides (newChatId : string)
  (this : Social.UserDocument) (friend : string) (s : Social.Store)
  (f : Social.User) :
  existsb (Social.isRelationshipWith friend)
    (Social.relationships (Social.fields this)) = false ->
  friend <> Social._id this ->
  Social.Users s !! friend = Some f ->
  let mine := {| Social.friendId := friend; Social.chatId := newChatId |} in
  let theirs :=
    {| Social.friendId := Social._id this; Social.chatId := newChatId |} in
  let this' :=
    Social.withRelationships this
      (Social.relationships (Social.fields this) ++ [mine]) in
  let s' := snd (Social.addRelationshipSymmetrically newChatId this friend s) in
  fst (Social.addRelationshipSymmetrically newChatId this friend s) = Ok this'
  /\ Social.getUserById (Social._id this) s' = (Ok this', s')
  /\ Social.relationships <$> Social.Users s' !! friend
     = Some (Social.relationships f ++ [theirs])
  /\ Social.getChatById newChatId s'
     = (Ok {| Chats._id := newChatId;
              Chats.chat := {| Chats.users := [Social._id this; friend];
                               Chats.messages := [] |} |}, s')
  /\ (forall other, other <> Social._id this -> other <> friend ->
        Social.Users s' !! other = Social.Users s !! other)
  /\ (forall c, c <> newChatId ->
        Social.Chats s' !! c = Social.Chats s !! c).
Proof.
  intros Hex Hne Hf mine theirs this' s'. unfold s'.
  rewrite (addRelationshipSymmetrically_run newChatId this friend s f Hex Hf).
  simpl. unfold Social.getUserById, Social.getChatById. simpl.
  rewrite !lookup_insert_eq.
  rewrite (lookup_insert_ne _ (Social._id this) friend) by congruence.
  rewrite lookup_insert_eq. simpl.
  split; [reflexivity|]. split; [reflexivity|]. split; [reflexivity|].
  split; [reflexivity|]. split.
  - intros other H1 H2. rewrite !lookup_insert_ne by congruence. reflexivity.
  - intros c Hc. rewrite lookup_insert_ne by congruence. reflexivity.
Qed.

(** X28. [addRelationshipSymmetrically] rejects with 'Relationship already
    existent', and changes nothing, when the user has a relationship with
    the friend.  When the friend is not stored it rejects with 'No user
    with that identifier' and no user changes, but the chat of the two has
    been created by then and stays in the store. *)
Theorem addRelationshipSymmetrically_rejections (newChatId : string)
  (this : Social.UserDocument) (friend : string) (s : Social.Store) :
  (existsb (Social.isRelationshipWith friend)
     (Social.relationships (Social.fields this)) = true ->
   Social.addRelationshipSymmetrically newChatId this friend s
   = (Throw (JsError "Relationship already existent"), s))
  /\ (existsb (Social.isRelationshipWith friend)
        (Social.relationships (Social.fields this)) = false ->
      Social.Users s !! friend = None ->
      Social.addRelationshipSymmetrically newChatId this friend s
      = (Throw (JsError noUserError),
         {| Social.Users := Social.Users s;
            Social.Chats :=
              <[newChatId := {| Chats.users := [Social._id this; friend];
                                Chats.messages := [] |}]>
                (Social.Chats s) |})).
Proof.
  split.
  - intros Hex. unfold Social.addRelationshipSymmetrically. rewrite Hex.
    reflexivity.
  - intros Hex Hf. unfold Social.addRelationshipSymmetrically. rewrite Hex.
    unfold St.tryCatch, St.bind, Social.createChat, Social.getUserById.
    simpl. rewrite Hf. reflexivity.
Qed.

(** X29. Removing a friend that has just been added undoes the addition:
    for a user and a friend who are stored and were not friends, and a chat
    id that was free, [removeRelationship] after
    [addRelationshipSymmetrically] resolves with the user's document as it
    was and leaves the store exactly as it was before the two calls. *)
Theorem relationship_add_then_remove (newChatId : string)
  (this : Social.UserDocument) (friend : string) (s : Social.Store)
  (f : Social.User) :
  Social.Users s !! Social._id this = Some (Social.fields this) ->
  Social.Users s !! friend = Some f ->
  friend <> Social._id this ->
  Social.Chats s !! newChatId = None ->
  existsb (Social.isRelationshipWith friend)
    (Social.relationships (Social.fields this)) = false ->
  existsb (Social.isRelationshipWith (Social._id this))
    (Social.relationships f) = false ->
  exists this' s',
    Social.addRelationshipSymmetrically newChatId this friend s
    = (Ok this', s')
    /\ Social.removeRelationship this' friend false s' = (Ok this, s).
Proof.
  intros Hthis Hf Hne Hfree Hmine Htheirs.
  eexists. eexists. split.
  { apply (addRelationshipSymmetrically_run newChatId this friend s f
             Hmine Hf). }
  set (mine := {| Social.friendId := friend; Social.chatId := newChatId |}).
  set (theirs := {| Social.friendId := Social._id this;
                    Social.chatId := newChatId |}).
  set (this' := Social.withRelationships this _).
  set (friend' := Social.withRelationships
                    {| Social._id := friend; Social.fields := f |} _).
  set (s' := {| Social.Users := _; Social.Chats := _ |}).
  (* the friend's side, run in the store from which the chat is gone *)
  set (s1 := {| Social.Users := Social.Users s';
                Social.Chats := delete newChatId (Social.Chats s') |}).
  assert (Hfriend' : Social.Users s1 !! friend
                     = Some (Social.fields friend')).
  { unfold s1, s'. simpl.
    rewrite lookup_insert_ne by congruence. apply lookup_insert_eq. }
  assert (Hsym : Social.symmetricRemoveRelationship friend (Social._id this)
                   s1
                 = (Ok (Social.withRelationships friend'
                          (Social.relationships f ++ [])),
                    {| Social.Users :=
                         <[friend :=
                             Social.fields
                               (Social.withRelationships friend'
                                  (Social.relationships f ++ []))]>
                           (Social.Users s1);
                       Social.Chats := Social.Chats s1 |})).
  { unfold Social.symmetricRemoveRelationship, St.bind, St.tryCatch,
      Social.getUserById.
    rewrite Hfriend'.
    apply (removeRelationshipOneSide_single
             {| Social._id := friend; Social.fields := Social.fields friend' |}
             (Social._id this) s1 (Social.relationships f) [] theirs).
    - reflexivity.
    - intros y Hy. rewrite app_nil_r in Hy.
      apply (isRelationshipWith_absent _ _ Htheirs y Hy).
    - apply String.eqb_refl. }
  unfold Social.removeRelationship, Social.removeRelationshipWith, St.bind.
  rewrite (removeLoop_single _ friend
             (Social.relationships (Social.fields this)) [] mine s').
  - unfold St.tryCatch, St.bind, Social.deleteOneChat.
    change (Social._id this') with (Social._id this).
    change {| Social.Users := Social.Users s';
              Social.Chats := delete (Social.chatId mine) (Social.Chats s') |}
      with s1.
    rewrite Hsym. simpl. unfold Social.save. simpl.
    rewrite !app_nil_r, !User_eta. f_equal.
    + f_equal. apply withRelationships_undo.
    + destruct s as [U C]. simpl in *. f_equal.
      * apply map_eq. intros k.
        destruct (decide (k = Social._id this)) as [->|Hk1].
        -- rewrite lookup_insert_eq. symmetry. exact Hthis.
        -- rewrite lookup_insert_ne by congruence.
           destruct (decide (k = friend)) as [->|Hk2].
           ++ rewrite lookup_insert_eq. symmetry. exact Hf.
           ++ rewrite !lookup_insert_ne by congruence. reflexivity.
      * apply delete_insert_id. exact Hfree.
  - intros y Hy. rewrite app_nil_r in Hy.
    apply (isRelationshipWith_absent _ _ Hmine y Hy).
  - apply String.eqb_refl.
Qed.

Lemma addRelationshipSymmetrically_both_sides_witness :
  fst (Social.addRelationshipSymmetrically "c7" SocialSamples.carolDoc "s2"
         SocialSamples.store)
  = Ok (Social.withRelationships SocialSamples.carolDoc
          [{| Social.friendId := "s2"; Social.chatId := "c7" |}]).
Proof.
  apply (addRelationshipSymmetrically_both_sides "c7" SocialSamples.carolDoc
           "s2" SocialSamples.store SocialSamples.dave).
  - reflexivity.
  - discriminate.
  - vm_compute. reflexivity.
Defined.

Lemma addRelationshipSymmetrically_rejections_witness :
  Social.addRelationshipSymmetrically "c7" SocialSamples.carolDoc "s9"
    SocialSamples.store
  = (Throw (JsError noUserError),
     {| Social.Users := Social.Users SocialSamples.store;
        Social.Chats :=
          <["c7" := {| Chats.users := ["s1"; "s9"];
                       Chats.messages := [] |}]>
            (Social.Chats SocialSamples.store) |})
  /\ Social.addRelationshipSymmetrically "c8"
       (Social.withRelationships SocialSamples.carolDoc
          [{| Social.friendId := "s2"; Social.chatId := "c7" |}])
       "s2" SocialSamples.store
     = (Throw (JsError "Relationship already existent"), SocialSamples.store).
Proof.
  split.
  - apply (proj2 (addRelationshipSymmetrically_rejections "c7"
                    SocialSamples.carolDoc "s9" SocialSamples.store)).
    + reflexivity.
    + vm_compute. reflexivity.
  - apply (proj1 (addRelationshipSymmetrically_rejections "c8"
                    (Social.withRelationships SocialSamples.carolDoc
                       [{| Social.friendId := "s2"; Social.chatId := "c7" |}])
                    "s2" SocialSamples.store)).
    reflexivity.
Defined.

Lemma relationship_add_then_remove_witness :
  exists this' s',
    Social.addRelationshipSymmetrically "c7" SocialSamples.carolDoc "s2"
      SocialSamples.store = (Ok this', s')
    /\ Social.removeRelationship this' "s2" false s'
       = (Ok SocialSamples.carolDoc, SocialSamples.store).
Proof.
  apply (relationship_add_then_remove "c7" SocialSamples.carolDoc "s2"
           SocialSamples.store SocialSamples.dave).
  - vm_compute. reflexivity.
  - vm_compute. reflexivity.
  - discriminate.
  - vm_compute. reflexivity.
  - reflexivity.
  - reflexivity.
Defined.

(** X30. [removeRelationship] rejects with 'Relationship not found', and
    changes nothing, when the user has no relationship with the friend.
    When the user has one but the friend is not stored, or is stored
    without the relationship back, the call rejects after the chat of the
    relationship has been deleted and before the user's document is saved:
    the chat is gone and every user document is as it was. *)
Theorem removeRelationship_half_done (this : Social.UserDocument)
  (friend : string) (s : Social.Store) :
  (existsb (Social.isRelationshipWith friend)
     (Social.relationships (Social.fields this)) = false ->
   forall removeSymmetric,
     Social.removeRelationship this friend removeSymmetric s
     = (Throw (JsError "Relationship not found"), s))
  /\ (forall before after r,
        Social.relationships (Social.fields this) = before ++ r :: after ->
        (forall y, In y (before ++ after) ->
                   Social.isRelationshipWith friend y = false) ->
        Social.isRelationshipWith friend r = true ->
        let gone :=
          {| Social.Users := Social.Users s;
             Social.Chats := delete (Social.chatId r) (Social.Chats s) |} in
        (Social.Users s !! friend = None ->
         Social.removeRelationship this friend false s
         = (Throw (JsError noUserError), gone))
        /\ (forall f,
              Social.Users s !! friend = Some f ->
              existsb (Social.isRelationshipWith (Social._id this))
                (Social.relationships f) = false ->
              Social.removeRelationship this friend false s
              = (Throw (JsError "Relationship not found"), gone))).
Proof.
  split.
  - intros Hex removeSymmetric.
    pose proof (isRelationshipWith_absent _ _ Hex) as Hno.
    destruct removeSymmetric.
    + apply removeRelationshipOneSide_none. exact Hex.
    + unfold Social.removeRelationship, Social.removeRelationshipWith,
        St.bind.
      rewrite (removeLoop_none _ _ _ _ Hno). reflexivity.
  - intros before after r Hrels Hrest Hr gone. split.
    + intros Hf.
      unfold Social.removeRelationship, Social.removeRelationshipWith,
        St.bind.
      rewrite Hrels, (removeLoop_single _ _ _ _ _ _ Hrest Hr).
      unfold St.tryCatch, St.bind, Social.deleteOneChat,
        Social.symmetricRemoveRelationship, St.tryCatch, St.bind,
        Social.getUserById.
      simpl. rewrite Hf. reflexivity.
    + intros f Hf Hback.
      unfold Social.removeRelationship, Social.removeRelationshipWith,
        St.bind.
      rewrite Hrels, (removeLoop_single _ _ _ _ _ _ Hrest Hr).
      unfold St.tryCatch, St.bind, Social.deleteOneChat,
        Social.symmetricRemoveRelationship, St.tryCatch, St.bind,
        Social.getUserById.
      simpl. rewrite Hf.
      rewrite (removeRelationshipOneSide_none
                 {| Social._id := friend; Social.fields := f |}
                 (Social._id this) _ Hback).
      reflexivity.
Qed.

Lemma removeRelationship_half_done_witness :
  Social.removeRelationship SocialSamples.carolDoc "s2" false
    SocialSamples.store
  = (Throw (JsError "Relationship not found"), SocialSamples.store)
  /\ Social.removeRelationship
       (Social.withRelationships SocialSamples.carolDoc
          [{| Social.friendId := "s2"; Social.chatId := "c7" |}])
       "s2" false SocialSamples.store
     = (Throw (JsError "Relationship not found"),
        {| Social.Users := Social.Users SocialSamples.store;
           Social.Chats := delete "c7" (Social.Chats SocialSamples.store) |}).
Proof.
  split.
  - apply (proj1 (removeRelationship_half_done SocialSamples.carolDoc "s2"
                    SocialSamples.store)).
    reflexivity.
  - apply (proj2
             (proj2 (removeRelationship_half_done
                       (Social.withRelationships SocialSamples.carolDoc
                          [{| Social.friendId := "s2";
                              Social.chatId := "c7" |}])
                       "s2" SocialSamples.store)
                [] [] {| Social.friendId := "s2"; Social.chatId := "c7" |}
                eq_refl (fun y (H : In y []) => match H with end) eq_refl)
             SocialSamples.dave).
    + vm_compute. reflexivity.
    + reflexivity.
Defined.
